(** * Mist AP site assignment: the validation-gated batch pipeline

    A shallow embedding of [Flask_UI/core.py] and [cli/mist_assign_aps.py]:
    header and cell normalisation, the header and row validators, the
    all-or-none gate, the per-row assignment loop and the validation
    report builders, with the properties the specification states about
    them.

    Modelling conventions.
    - A Python [str] is a [string]; a character is a code point below 256
      (the Latin-1 range), on which [str.isspace] and [str.lower] are
      transcribed from CPython's tables.
    - A pandas cell read with [dtype=str] is a string or [NaN]; column
      labels are strings, on which [str(c)] is the identity.
    - A DataFrame with the default [RangeIndex] is a list of column labels
      and a list of rows, each row a list of cells in column order.  An
      assignment by label reaches every column that carries the label; a
      read by label of a repeated label yields a Series, on which the
      modelled code raises.
    - Remote calls go through an explicit [World] (the answers of the
      remote service) and are recorded in a trace, together with the CSV
      files written.  The names of the files written and time stamps are
      left out.
    - The routes of [Flask_UI/app.py], the readers' choice by file name,
      the sorted site listing and the prompt of the command-line tool
      are modelled after the pipeline, for the further properties at the
      end.
    - The pipeline is given twice.  [Core.process_file], [Cli.main] and
      [App.run_route] take the writes and the pages for granted: they
      serve the properties of what is validated, sent and recorded.
      [Io.process_file], [Io.main] and [Io.run_route] run the same text
      on a host whose directory creation, writes and pages may raise:
      they serve the properties of how a run ends.  On a host where
      nothing fails the second are the first; for [main], as long as the
      site listing and the inventory fail by an error status only, the
      one failure [Cli.main] tells apart. *)

From Stdlib Require Import ZArith Ascii Sorted.
From stdpp Require Import base option list gmap strings.
From Stdlib Require DecimalString DecimalNat.

(** ** Python string primitives *)

Module Py.

(** [str.isspace] on one code point below 256: TAB..CR, FS..US, SPACE,
    NEL (0x85) and NBSP (0xA0). *)
Definition isspace (c : ascii) : bool :=
  let n := Ascii.N_of_ascii c in
  ((9 <=? n) && (n <=? 13) || (28 <=? n) && (n <=? 32)
   || (n =? 133) || (n =? 160))%N.

(** [str.lower] on one code point below 256: A..Z and the Latin-1
    capitals 0xC0..0xDE except the multiplication sign 0xD7. *)
Definition lower_char (c : ascii) : ascii :=
  let n := Ascii.N_of_ascii c in
  if ((65 <=? n) && (n <=? 90)
      || (192 <=? n) && (n <=? 222) && negb (n =? 215))%N
  then Ascii.ascii_of_N (n + 32) else c.

Fixpoint lower (s : string) : string :=
  match s with
  | EmptyString => EmptyString
  | String c r => String (lower_char c) (lower r)
  end.

Fixpoint lstrip (s : string) : string :=
  match s with
  | EmptyString => EmptyString
  | String c r => if isspace c then lstrip r else s
  end.

Fixpoint rstrip (s : string) : string :=
  match s with
  | EmptyString => EmptyString
  | String c r =>
      match rstrip r with
      | EmptyString => if isspace c then EmptyString else String c EmptyString
      | r' => String c r'
      end
  end.

(** [s.strip()] *)
Definition strip (s : string) : string := rstrip (lstrip s).

(** [s.replace(a, b)] for one-character [a] and [b]. *)
Fixpoint replace (a b : ascii) (s : string) : string :=
  match s with
  | EmptyString => EmptyString
  | String c r => String (if Ascii.eqb c a then b else c) (replace a b r)
  end.

(** [a in s] for a one-character [a]. *)
Fixpoint contains (a : ascii) (s : string) : bool :=
  match s with
  | EmptyString => false
  | String c r => Ascii.eqb c a || contains a r
  end.

(** [s.split(sep)] for a one-character separator: never the empty list,
    [""] splits into [[""]]. *)
Fixpoint split (sep : ascii) (s : string) : list string :=
  match s with
  | EmptyString => [EmptyString]
  | String c r =>
      if Ascii.eqb c sep then EmptyString :: split sep r
      else match split sep r with
           | h :: t => String c h :: t
           | [] => [String c EmptyString]
           end
  end.

(** [sep.join(l)] *)
Fixpoint join (sep : string) (l : list string) : string :=
  match l with
  | [] => EmptyString
  | [x] => x
  | x :: r => x +:+ sep +:+ join sep r
  end.

(** [s[i:i+n]] for non-negative [i]; slicing truncates, it never raises. *)
Definition slice (i n : nat) (s : string) : string := String.substring i n s.

(** Truthiness of a [str]. *)
Definition truthy (s : string) : bool :=
  match s with EmptyString => false | _ => true end.

(** [a or b] on optional strings, [None] standing for Python's [None]. *)
Definition or_else (a : option string) (b : string) : string :=
  match a with
  | Some s => if truthy s then s else b
  | None => b
  end.

End Py.

(** ** [normalize_mac]  (core.py 60-64, mist_assign_aps.py 140-144) *)

Definition normalize_mac (mac : string) : string :=
  let m := Py.replace "-"%char ":"%char (Py.lower (Py.strip (Py.or_else (Some mac) ""))) in
  if negb (Py.contains ":"%char m) && (String.length m =? 12)%nat
  then Py.join ":" (map (fun i => Py.slice i 2 m) [0; 2; 4; 6; 8; 10]%nat)
  else m.

(** ** Data model *)

(** A cell of a frame read with [dtype=str]: a string, or the missing
    value. *)
Inductive cell : Type :=
| NaN
| Str (s : string).

(** A DataFrame with the default [RangeIndex]: the position of a row in
    [rows] is its index label. *)
Record DataFrame : Type := mkDataFrame {
  columns : list string;
  rows : list (list cell)
}.

(** Every row has one cell per column, as in any frame pandas builds. *)
Definition wf_frame (df : DataFrame) : Prop :=
  Forall (fun r => length r = length (columns df)) (rows df).

(** [RowIssue] (core.py 11-16, mist_assign_aps.py 41-46). *)
Record RowIssue : Type := mkRowIssue {
  row : Z;
  field : string;
  value : string;
  message : string
}.

(** An entry of the inventory the remote service returns; [None] is an
    absent key or a JSON null, both falsy under [i.get(k)]. *)
Record InvItem : Type := mkInvItem {
  inv_serial : option string;
  inv_mac : option string
}.

(** The aggregate counts [process_file] returns. *)
Record Summary : Type := mkSummary {
  success : nat;
  failed : nat;
  total : nat
}.

(** Exceptions the modelled code can raise. *)
Inductive exn : Type :=
| ValidationError (issues : list RowIssue) (msg : string)
| AttributeError
| ValueError
| KeyError (key : string)
| ReadError
| FetchError
| SystemExit (code : Z).

Inductive result (A : Type) : Type :=
| Ok (a : A)
| Raise (e : exn).
Arguments Ok {A} a.
Arguments Raise {A} e.

#[global] Instance result_ret : MRet result := fun A a => Ok a.
#[global] Instance result_bind : MBind result := fun A B f m =>
  match m with
  | Ok a => f a
  | Raise e => Raise e
  end.

(** ** Remote service and trace of effects *)

Inductive event : Type :=
| EvGetSites
| EvGetInventory
| EvAssign (site_id mac : string)
| EvWriteCsv (df : DataFrame).

(** The answers of the outside world during one run: the parsed input
    file, the inventory listing, the site the user picks, and the answer
    to the [k]-th assign call ([None]: accepted, [Some d]: an exception
    whose [str(e)] is [d]). *)
Record World : Type := mkWorld {
  w_input : result DataFrame;
  w_sites : result string;
  w_inventory : result (list InvItem);
  w_assign : nat -> string -> string -> option string
}.

(** Computations that may raise and that append to the trace. *)
Definition M (A : Type) : Type := list event -> result A * list event.

#[global] Instance M_ret : MRet M := fun A a t => (Ok a, t).
#[global] Instance M_bind : MBind M := fun A B f m t =>
  match m t with
  | (Ok a, t') => f a t'
  | (Raise e, t') => (Raise e, t')
  end.

Definition raise {A : Type} (e : exn) : M A := fun t => (Raise e, t).
Definition lift {A : Type} (r : result A) : M A := fun t => (r, t).
Definition emit (e : event) : M unit := fun t => (Ok tt, t ++ [e]).
Definition run {A : Type} (m : M A) : result A * list event := m [].

Definition is_assign (e : event) : bool :=
  match e with EvAssign _ _ => true | _ => false end.

(** Number of assign calls recorded in a trace. *)
Definition assign_calls (t : list event) : nat := length (filter is_assign t).

Definition is_remote (e : event) : bool :=
  match e with EvWriteCsv _ => false | _ => true end.

Definition remote_calls (t : list event) : list event := filter is_remote t.

(** ** Frame primitives *)

(** [row.get(c)] for a label that is not repeated: the cell under the
    column labelled [c], [None] when there is no such column. *)
Fixpoint lookup_col (cols : list string) (r : list cell) (c : string) : option cell :=
  match cols, r with
  | k :: cols', x :: r' => if decide (k = c) then Some x else lookup_col cols' r' c
  | _, _ => None
  end.

(** Apply [f] to the cells of a row under the columns labelled [c]. *)
Fixpoint map_col (cols : list string) (r : list cell) (c : string) (f : cell -> cell) : list cell :=
  match cols, r with
  | k :: cols', x :: r' => (if decide (k = c) then f x else x) :: map_col cols' r' c f
  | _, _ => r
  end.

(** [df[c] = df[c].<f>]: a column rewritten cell by cell. *)
Definition map_column (df : DataFrame) (c : string) (f : cell -> cell) : DataFrame :=
  mkDataFrame (columns df) (map (fun r => map_col (columns df) r c f) (rows df)).

(** [df[c] = v] for a scalar [v]: overwrite the column when the label
    exists, append it otherwise. *)
Definition set_column (df : DataFrame) (c : string) (v : string) : DataFrame :=
  if decide (c ∈ columns df)
  then map_column df c (fun _ => Str v)
  else mkDataFrame (columns df ++ [c]) (map (fun r => r ++ [Str v]) (rows df)).

(** [df.at[idx, c] = v] for an index [idx] of the frame. *)
Definition set_at (df : DataFrame) (idx : nat) (c : string) (v : string) : DataFrame :=
  mkDataFrame (columns df)
    (alter (fun r => map_col (columns df) r c (fun _ => Str v)) idx (rows df)).

(** [df.iloc[0:0]] *)
Definition iloc_empty (df : DataFrame) : DataFrame := mkDataFrame (columns df) [].

(** The label [c] heads more than one column: [row.get(c)] and [row[c]]
    are then a Series, not a cell. *)
Definition repeated (cols : list string) (c : string) : bool :=
  (1 <? length (filter (fun k => k = c) cols))%nat.

(** [(x or "")] for [x = row.get(c)], as the receiver of the [.strip()]
    that follows.  [None] and [""] give [""] and a string gives itself;
    the truth value of a Series is ambiguous, so the [or] raises; and
    [NaN] is truthy, so the [.strip()] raises. *)
Definition get_or_empty (cols : list string) (r : list cell) (c : string) : result string :=
  if repeated cols c then Raise ValueError
  else match lookup_col cols r c with
       | None => Ok ""
       | Some (Str s) => Ok (Py.or_else (Some s) "")
       | Some NaN => Raise AttributeError
       end.

(** [row[c].strip()]: [KeyError] when the column is absent; a Series and
    [NaN] have no [strip]. *)
Definition getitem_strip (cols : list string) (r : list cell) (c : string) : result string :=
  if repeated cols c then Raise AttributeError
  else match lookup_col cols r c with
       | None => Raise (KeyError c)
       | Some (Str s) => Ok (Py.strip s)
       | Some NaN => Raise AttributeError
       end.

(** [row.get(c, "")] where it is a string: the text of the cell, empty
    when the column is absent. *)
Definition cell_text (cols : list string) (r : list cell) (c : string) : string :=
  match lookup_col cols r c with
  | Some (Str s) => s
  | _ => ""
  end.

(** ** Normalizer, header validator, row validator *)

Definition REQUIRED_COLUMNS : list string :=
  ["floor #"; "wap hostname"; "serial number"; "mac address"].

(** [.fillna("").astype(str).map(lambda x: x.strip())] on one cell. *)
Definition normalize_cell (x : cell) : cell :=
  match x with
  | NaN => Str (Py.strip "")
  | Str s => Str (Py.strip s)
  end.

(** [_normalize_dataframe] (core.py 76-84); [normalize_dataframe]
    (mist_assign_aps.py 164-172) has the same body. *)
Definition _normalize_dataframe (df : DataFrame) : DataFrame :=
  let df := mkDataFrame (map (fun c => Py.lower (Py.strip c)) (columns df)) (rows df) in
  foldl (fun df col => map_column df col normalize_cell) df (columns df).

(** [_validate_headers] (core.py 87-89); [validate_headers]
    (mist_assign_aps.py 175-176). *)
Definition _validate_headers (df : DataFrame) : list string :=
  filter (fun c => c ∉ columns df) REQUIRED_COLUMNS.

(** [{str(i.get("serial","")).strip(): i for i in inventory if i.get("serial")}]
    (core.py 142, mist_assign_aps.py 269). On the kept entries the serial
    is a non-empty string, so [str] is the identity. *)
Definition build_inv_map (inventory : list InvItem) : gmap string InvItem :=
  foldl (fun m i =>
           match inv_serial i with
           | Some s => if Py.truthy s then <[Py.strip s := i]> m else m
           | None => m
           end) ∅ inventory.

(** One iteration of the loop of [_validate_rows]: the issues list after
    the row at index [idx]. *)
Definition validate_row (cols : list string) (inv_map : gmap string InvItem)
    (idx : nat) (r : list cell) (issues : list RowIssue) : result (list RowIssue) :=
  let rownum := (Z.of_nat idx + 1)%Z in
  s ← get_or_empty cols r "serial number";
  let serial := Py.strip s in
  if negb (Py.truthy serial) then
    Ok (issues ++ [mkRowIssue rownum "serial number" "" "Serial Number is blank"])
  else if decide (inv_map !! serial = None) then
    Ok (issues ++ [mkRowIssue rownum "serial number" serial
                     "Serial not found in Mist org inventory"])
  else
    m ← get_or_empty cols r "mac address";
    let mac_file := normalize_mac m in
    if Py.truthy mac_file && negb (length (Py.split ":"%char mac_file) =? 6)%nat then
      Ok (issues ++ [mkRowIssue rownum "mac address" (cell_text cols r "mac address")
                       "MAC Address format looks invalid"])
    else Ok issues.

Fixpoint validate_loop (cols : list string) (inv_map : gmap string InvItem)
    (idx : nat) (rs : list (list cell)) (issues : list RowIssue) : result (list RowIssue) :=
  match rs with
  | [] => Ok issues
  | r :: rs' =>
      issues' ← validate_row cols inv_map idx r issues;
      validate_loop cols inv_map (S idx) rs' issues'
  end.

(** [_validate_rows] (core.py 92-115); [validate_rows]
    (mist_assign_aps.py 179-197) is the same loop without the last,
    redundant [continue]. *)
Definition _validate_rows (df : DataFrame) (inv_map : gmap string InvItem)
    : result (list RowIssue) :=
  validate_loop (columns df) inv_map 0 (rows df) [].

(** ** Remote calls *)

(** [get_inventory] of core.py (50-57): [raise_for_status] lets the
    failure propagate. *)
Definition get_inventory (w : World) : M (list InvItem) :=
  fun t => (w_inventory w, t ++ [EvGetInventory]).

(** The PUT of the assign payload, with the [try]/[except Exception]
    around it: the answer is data, never a raised exception. *)
Definition assign_inventory (w : World) (site_id mac : string) : M (option string) :=
  fun t => (Ok (w_assign w (assign_calls t) site_id mac), t ++ [EvAssign site_id mac]).

(** ** Assignment executor  (core.py 150-171, mist_assign_aps.py 292-307) *)

(** [inv.get("mac") or row.get("mac address") or ""], as the argument
    [normalize_mac] strips. *)
Definition mac_source (inv : InvItem) (cols : list string) (r : list cell) : result string :=
  match inv_mac inv with
  | Some s => if Py.truthy s then Ok s else get_or_empty cols r "mac address"
  | None => get_or_empty cols r "mac address"
  end.

(** [inv_map[serial]] *)
Definition getitem_inv (inv_map : gmap string InvItem) (serial : string) : result InvItem :=
  match inv_map !! serial with
  | Some i => Ok i
  | None => Raise (KeyError serial)
  end.

(** One iteration of the assignment loop on the row [r] at index [idx];
    the state is the frame and the two counters. *)
Definition assign_row (w : World) (site_id : string) (inv_map : gmap string InvItem)
    (idx : nat) (r : list cell) (st : DataFrame * nat * nat) : M (DataFrame * nat * nat) :=
  let '(df, ok, bad) := st in
  serial ← lift (getitem_strip (columns df) r "serial number");
  inv ← lift (getitem_inv inv_map serial);
  m ← lift (mac_source inv (columns df) r);
  let mac := normalize_mac m in
  answer ← assign_inventory w site_id mac;
  match answer with
  | None => mret (set_at df idx "assignment status" "SUCCESS", S ok, bad)
  | Some e =>
      mret (set_at (set_at df idx "assignment status" "FAILED") idx "error message" e,
            ok, S bad)
  end.

Fixpoint assign_loop (w : World) (site_id : string) (inv_map : gmap string InvItem)
    (idx : nat) (rs : list (list cell)) (st : DataFrame * nat * nat)
    : M (DataFrame * nat * nat) :=
  match rs with
  | [] => mret st
  | r :: rs' =>
      st' ← assign_row w site_id inv_map idx r st;
      assign_loop w site_id inv_map (S idx) rs' st'
  end.

(** The header-level issue both front ends build from the missing
    columns (core.py 133, mist_assign_aps.py 255). *)
Definition header_issue (missing : list string) : RowIssue :=
  mkRowIssue 0 "headers" (Py.join ", " missing) "Missing required column(s)".

Definition nonempty {A : Type} (l : list A) : bool :=
  match l with [] => false | _ => true end.

(** ** Validation report builders *)

(** [by_row.setdefault(k, []).append(i)] *)
Definition setdefault_append (by_row : gmap Z (list RowIssue)) (k : Z) (i : RowIssue)
    : gmap Z (list RowIssue) :=
  <[k := default [] (by_row !! k) ++ [i]]> by_row.

(** The body of the loop over the rows of the report. *)
Definition annotate (by_row : gmap Z (list RowIssue)) (rep : DataFrame) (idx : nat)
    : DataFrame :=
  match by_row !! (Z.of_nat idx + 1)%Z with
  | Some l =>
      let rep := set_at rep idx "issue" (Py.join " | " (map message l)) in
      let rep := set_at rep idx "issue_field" (Py.join " | " (map field l)) in
      set_at rep idx "issue_value" (Py.join " | " (map value l))
  | None => rep
  end.

(** [rep = df.copy()] and the three empty issue columns. *)
Definition issue_columns (df : DataFrame) : DataFrame :=
  set_column (set_column (set_column df "issue" "") "issue_field" "") "issue_value" "".

Module Core.

(** [process_file] (core.py 118-178), from the reading of the input
    file on; the configuration is part of the world. *)
Definition process_file (site_id : string) (w : World) : M (DataFrame * Summary) :=
  df ← lift (w_input w);
  let df := _normalize_dataframe df in
  let missing := _validate_headers df in
  if nonempty missing then
    raise (ValidationError [header_issue missing] "Missing required columns")
  else
    let df := set_column df "assignment status" "" in
    let df := set_column df "error message" "" in
    inventory ← get_inventory w;
    let inv_map := build_inv_map inventory in
    issues ← lift (_validate_rows df inv_map);
    if nonempty issues then
      raise (ValidationError issues "One or more rows are invalid")
    else
      '(df, ok, bad) ← assign_loop w site_id inv_map 0 (rows df) (df, 0, 0);
      _ ← emit (EvWriteCsv df);
      mret (df, mkSummary ok bad (ok + bad)).

(** The grouping key of [create_error_report]: every issue with
    [row <= 0] goes under key 0. *)
Definition group_key (i : RowIssue) : Z := if (row i <=? 0)%Z then 0%Z else row i.

(** [create_error_report] (core.py 182-229): the frame written to the
    report file. *)
Definition create_error_report (df : DataFrame) (issues : list RowIssue) : DataFrame :=
  let rep := issue_columns df in
  let by_row := foldl (fun m i => setdefault_append m (group_key i) i) ∅ issues in
  let rep := foldl (annotate by_row) rep (seq 0 (length (rows rep))) in
  match by_row !! 0%Z with
  | Some l =>
      if (length (rows rep) =? 0)%nat then
        mkDataFrame ["issue"; "issue_field"; "issue_value"]
          [[Str (Py.join " | " (map message l));
            Str (Py.join " | " (map field l));
            Str (Py.join " | " (map value l))]]
      else rep
  | None => rep
  end.

End Core.

Module Cli.

Definition normalize_dataframe := _normalize_dataframe.
Definition validate_headers := _validate_headers.
Definition validate_rows := _validate_rows.

(** [get_sites] and [choose_site] (mist_assign_aps.py 106-129): the id
    of the site picked at the prompt; a failed listing ends in [die]. *)
Definition get_sites (w : World) : M string :=
  fun t => (match w_sites w with
            | Ok s => Ok s
            | Raise _ => Raise (SystemExit 1)
            end, t ++ [EvGetSites]).

(** [get_inventory] (mist_assign_aps.py 132-137): a failed fetch ends in
    [die]. *)
Definition get_inventory (w : World) : M (list InvItem) :=
  fun t => (match w_inventory w with
            | Ok l => Ok l
            | Raise _ => Raise (SystemExit 1)
            end, t ++ [EvGetInventory]).

(** [create_validation_report] (mist_assign_aps.py 200-227): issues are
    grouped under their own row number. *)
Definition create_validation_report (df : DataFrame) (issues : list RowIssue) : DataFrame :=
  let rep := issue_columns df in
  let by_row := foldl (fun m i => setdefault_append m (row i) i) ∅ issues in
  foldl (annotate by_row) rep (seq 0 (length (rows rep))).

(** [main] (mist_assign_aps.py 238-319) from the reading of the input
    file on; the result is the frame written and the two counters. *)
Definition main (w : World) : M (DataFrame * nat * nat) :=
  df_raw ← lift (w_input w);
  let df := normalize_dataframe df_raw in
  let missing := validate_headers df in
  if nonempty missing then
    let issues := [header_issue missing] in
    _ ← emit (EvWriteCsv (create_validation_report (iloc_empty df) issues));
    raise (SystemExit 2)
  else
    site_id ← get_sites w;
    inventory ← get_inventory w;
    let inv_map := build_inv_map inventory in
    issues ← lift (validate_rows df inv_map);
    if nonempty issues then
      _ ← emit (EvWriteCsv (create_validation_report df issues));
      raise (SystemExit 2)
    else
      let df := set_column df "assignment status" "" in
      let df := set_column df "error message" "" in
      '(df, ok, bad) ← assign_loop w site_id inv_map 0 (rows df) (df, 0, 0);
      _ ← emit (EvWriteCsv df);
      mret (df, ok, bad).

End Cli.

(** ** Auxiliary definitions used in the statements *)

(** Apply [f] to the cells under the columns whose label is in [ks]. *)
Fixpoint map_where (ks : list string) (cols : list string) (r : list cell)
    (f : cell -> cell) : list cell :=
  match cols, r with
  | k :: cols', x :: r' =>
      (if decide (k ∈ ks) then f x else x) :: map_where ks cols' r' f
  | _, _ => r
  end.

(** A row after normalisation under [n] columns. *)
Definition normalize_row (n : nat) (r : list cell) : list cell :=
  map normalize_cell (take n r) ++ drop n r.

(** Every cell of the frame is a string, as after normalisation. *)
Definition is_str (x : cell) : Prop :=
  match x with Str _ => True | NaN => False end.

Definition str_frame (df : DataFrame) : Prop := Forall (Forall is_str) (rows df).

(** The row check in the words of the specification (4.4): blank serial,
    else serial absent from the snapshot, else MAC not made of six
    colon-separated groups; at most one issue. *)
Definition spec_row_issue (cols : list string) (inv_map : gmap string InvItem)
    (idx : nat) (r : list cell) : option RowIssue :=
  let rownum := (Z.of_nat idx + 1)%Z in
  let serial := Py.strip (cell_text cols r "serial number") in
  let mac := cell_text cols r "mac address" in
  if decide (serial = "") then
    Some (mkRowIssue rownum "serial number" "" "Serial Number is blank")
  else if decide (inv_map !! serial = None) then
    Some (mkRowIssue rownum "serial number" serial "Serial not found in Mist org inventory")
  else if decide (normalize_mac mac ≠ ""
                  ∧ length (Py.split ":"%char (normalize_mac mac)) ≠ 6%nat) then
    Some (mkRowIssue rownum "mac address" mac "MAC Address format looks invalid")
  else None.

(** The issues of the rows [rs], the first of which has index [idx]. *)
Fixpoint spec_issues (cols : list string) (inv_map : gmap string InvItem)
    (idx : nat) (rs : list (list cell)) : list RowIssue :=
  match rs with
  | [] => []
  | r :: rs' =>
      option_list (spec_row_issue cols inv_map idx r)
        ++ spec_issues cols inv_map (S idx) rs'
  end.

(** The canonical form of a MAC address in the words of the
    specification: six colon-separated groups of two lower-case hex
    digits. *)
Definition is_lower_hex (c : ascii) : bool :=
  let n := Ascii.N_of_ascii c in
  ((48 <=? n) && (n <=? 57) || (97 <=? n) && (n <=? 102))%N.

Definition hex_pair (g : string) : bool :=
  match g with
  | String a (String b EmptyString) => is_lower_hex a && is_lower_hex b
  | _ => false
  end.

Definition canonical_mac (m : string) : bool :=
  let groups := Py.split ":"%char m in
  (length groups =? 6)%nat && forallb hex_pair groups.

(** An inventory entry is kept under the key [k]: its serial is a
    non-empty string whose stripped form is [k]. *)
Definition kept_under (e : InvItem) (k : string) : Prop :=
  ∃ s, inv_serial e = Some s ∧ s ≠ "" ∧ Py.strip s = k.

(** The MAC the executor sends for a row: the three lookups of one
    iteration of the assignment loop, before the remote call. *)
Definition resolve (cols : list string) (inv_map : gmap string InvItem) (r : list cell)
    : result string :=
  serial ← getitem_strip cols r "serial number";
  inv ← getitem_inv inv_map serial;
  m ← mac_source inv cols r;
  Ok (normalize_mac m).

(** A row after its outcome has been written. *)
Definition outcome_row (cols : list string) (answer : option string) (r : list cell)
    : list cell :=
  match answer with
  | None => map_col cols r "assignment status" (fun _ => Str "SUCCESS")
  | Some e =>
      map_col cols (map_col cols r "assignment status" (fun _ => Str "FAILED"))
        "error message" (fun _ => Str e)
  end.

(** The frame and the counters after the outcome of the row [idx]. *)
Definition record_outcome (answer : option string) (idx : nat)
    (st : DataFrame * nat * nat) : DataFrame * nat * nat :=
  let '(df, ok, bad) := st in
  match answer with
  | None => (set_at df idx "assignment status" "SUCCESS", S ok, bad)
  | Some e =>
      (set_at (set_at df idx "assignment status" "FAILED") idx "error message" e,
       ok, S bad)
  end.

(** The two outcome columns added to a frame. *)
Definition outcome_columns (df : DataFrame) : DataFrame :=
  set_column (set_column df "assignment status" "") "error message" "".

(** The answers of the remote service to the assign calls for [macs],
    the first of which is the [k]-th call of the run. *)
Fixpoint answers (w : World) (site_id : string) (k : nat) (macs : list string)
    : list (option string) :=
  match macs with
  | [] => []
  | mac :: macs' => w_assign w k site_id mac :: answers w site_id (S k) macs'
  end.

Definition accepted (a : option string) : bool :=
  match a with None => true | Some _ => false end.

Definition count_accepted (l : list (option string)) : nat :=
  length (List.filter accepted l).

Definition count_refused (l : list (option string)) : nat :=
  length (List.filter (fun a => negb (accepted a)) l).

(** The issue list of the schema validator and the row validator taken
    together: the header-level issue when a required column is missing,
    the issues of the rows otherwise. *)
Definition combined_issues (df0 : DataFrame) (inventory : list InvItem)
    : result (list RowIssue) :=
  let df := _normalize_dataframe df0 in
  let missing := _validate_headers df in
  if nonempty missing then Ok [header_issue missing]
  else _validate_rows df (build_inv_map inventory).

(** ** Sample inputs *)

Definition demo_inventory : list InvItem :=
  [mkInvItem (Some "ABC999") (Some "aabbccddeeff");
   mkInvItem (Some " XYZ ") None;
   mkInvItem (Some "") (Some "112233445566");
   mkInvItem None (Some "x")].

(** Two rows that pass validation. *)
Definition demo_input : DataFrame :=
  mkDataFrame [" Floor # "; "WAP Hostname"; "Serial Number"; "Mac Address"]
    [[Str "1"; Str "ap1"; Str " ABC999 "; Str "AA-BB-cc-dd-ee-ff"];
     [Str "2"; NaN; Str "XYZ"; NaN]].

(** A normalised frame with a bad MAC, an unknown serial, a blank serial
    and a row that passes. *)
Definition demo_bad_rows : DataFrame :=
  mkDataFrame ["floor #"; "wap hostname"; "serial number"; "mac address"]
    [[Str "1"; Str "ap1"; Str "ABC999"; Str "aa:bb:cc"];
     [Str "2"; Str ""; Str "xyz"; Str ""];
     [Str "3"; Str ""; Str ""; Str ""];
     [Str "4"; Str ""; Str "XYZ"; Str "aabbccddeeff"]].

(** A header without the "WAP Hostname" column. *)
Definition demo_bad_header : DataFrame :=
  mkDataFrame ["Floor #"; "Serial Number"; "Mac Address"]
    [[Str "1"; Str "ABC999"; Str "aa:bb:cc:dd:ee:ff"]].

(** A row whose serial is known and whose MAC has six groups that are
    not hex digits. *)
Definition demo_odd_mac : DataFrame :=
  mkDataFrame ["floor #"; "wap hostname"; "serial number"; "mac address"]
    [[Str "1"; Str "ap1"; Str "ABC999"; Str "zz:zz:zz:zz:zz:zz"]].

(** The remote service accepts every assign call but the second. *)
Definition demo_world (input : DataFrame) : World :=
  mkWorld (Ok input) (Ok "site-1") (Ok demo_inventory)
    (fun k _ _ => if (k =? 1)%nat then Some "400 Client Error" else None).

(** ** Further definitions used in the statements *)

(** The snapshot keeps the entry [e] under the key [k], as a test. *)
Definition keeps (e : InvItem) (k : string) : bool :=
  match inv_serial e with
  | Some s => Py.truthy s && bool_decide (Py.strip s = k)
  | None => false
  end.

(** The MAC sent for a row, read off the row and the snapshot: the MAC of
    the inventory record of the row's serial when it has one, the MAC of
    the file otherwise, in canonical form. *)
Definition chosen_mac (inv_map : gmap string InvItem) (cols : list string)
    (r : list cell) : string :=
  match inv_map !! Py.strip (cell_text cols r "serial number") with
  | Some inv =>
      normalize_mac
        (match inv_mac inv with
         | Some s => if Py.truthy s then s else cell_text cols r "mac address"
         | None => cell_text cols r "mac address"
         end)
  | None => ""
  end.


(** A row of the report after the issues [l] have been written on it. *)
Definition annotate_row (cols : list string) (l : list RowIssue) (r : list cell)
    : list cell :=
  map_col cols
    (map_col cols
       (map_col cols r "issue" (fun _ => Str (Py.join " | " (map message l))))
       "issue_field" (fun _ => Str (Py.join " | " (map field l))))
    "issue_value" (fun _ => Str (Py.join " | " (map value l))).

Definition annotate_opt (cols : list string) (o : option (list RowIssue)) (r : list cell)
    : list cell :=
  match o with
  | Some l => annotate_row cols l r
  | None => r
  end.


(** ** The web front end  (app.py) *)

Module App.

(** A JSON string or null. *)
Inductive jstr : Type :=
| JNull
| JStr (s : string).

(** An entry of the site listing: [s.get("id")] and the value under the
    key "name", [None] when the key is absent. *)
Record Site : Type := mkSite {
  site_id : option string;
  site_name : option jstr
}.

(** What a route returns. *)
Inductive response : Type :=
| RedirectIndex (flash : string)
| ErrorPage (e : exn)
| ResultsPage (site_name : jstr) (summary : Summary) (df : DataFrame)
| ValidationErrorsPage (message : string) (issues : list RowIssue)
    (report : option DataFrame).

(** [except Exception] does not catch [SystemExit]. *)
Definition is_exception (e : exn) : bool :=
  match e with SystemExit _ => false | _ => true end.

(** [core.load_config()] and [core.get_sites(cfg)] of the routes: the
    listing, or what either call raises. *)
Definition get_sites (sites : result (list Site)) : M (list Site) :=
  fun t => (sites, t ++ [EvGetSites]).

(** [next((s.get("name", "") for s in sites if s.get("id") == site_id), site_id)] *)
Fixpoint find_site_name (sites : list Site) (id : string) : jstr :=
  match sites with
  | [] => JStr id
  | s :: sites' =>
      if decide (site_id s = Some id)
      then match site_name s with Some n => n | None => JStr "" end
      else find_site_name sites' id
  end.

(** The [try] block that builds the downloadable report: the file is read
    and normalised again; whatever [Exception] is raised leaves the page
    without report. *)
Definition build_report (w : World) (issues : list RowIssue) : M (option DataFrame) :=
  fun t =>
    match w_input w with
    | Ok df2 =>
        let rep := Core.create_error_report (_normalize_dataframe df2) issues in
        (Ok (Some rep), t ++ [EvWriteCsv rep])
    | Raise e => if is_exception e then (Ok None, t) else (Raise e, t)
    end.

(** The route [/run] (app.py 52-108), given the two form fields, whether
    the uploaded file is still there, and the answers of the remote
    service. *)
Definition run_route (form_filename form_site_id : option string) (file_exists : bool)
    (sites : result (list Site)) (w : World) : M response :=
  let filename := Py.strip (Py.or_else form_filename "") in
  let site_id := Py.strip (Py.or_else form_site_id "") in
  if negb (Py.truthy filename) || negb (Py.truthy site_id) then
    mret (RedirectIndex "Missing filename or site selection.")
  else if negb file_exists then
    mret (RedirectIndex "Uploaded file not found. Please upload again.")
  else fun t =>
    match get_sites sites t with
    | (Raise e, t1) => if is_exception e then (Ok (ErrorPage e), t1) else (Raise e, t1)
    | (Ok listing, t1) =>
        let site_name := find_site_name listing site_id in
        match Core.process_file site_id w t1 with
        | (Ok (df, summary), t2) => (Ok (ResultsPage site_name summary df), t2)
        | (Raise (ValidationError issues message), t2) =>
            match build_report w issues t2 with
            | (Ok report, t3) => (Ok (ValidationErrorsPage message issues report), t3)
            | (Raise e, t3) => (Raise e, t3)
            end
        | (Raise e, t2) => if is_exception e then (Ok (ErrorPage e), t2) else (Raise e, t2)
        end
    end.

End App.






(** ** Shapes of MAC addresses *)

(** A hex digit in either case. *)
Definition is_hex_digit (c : ascii) : bool :=
  let n := Ascii.N_of_ascii c in
  ((48 <=? n) && (n <=? 57) || (65 <=? n) && (n <=? 70) || (97 <=? n) && (n <=? 102))%N.

Fixpoint all_chars (P : ascii -> bool) (s : string) : bool :=
  match s with
  | EmptyString => true
  | String c r => P c && all_chars P r
  end.

(** Six groups of two hex digits, in either case, separated by [sep]. *)
Definition mac_pairs (sep : ascii) (m : string) : bool :=
  let groups := Py.split sep m in
  (length groups =? 6)%nat
  && forallb (fun g => (String.length g =? 2)%nat && all_chars is_hex_digit g) groups.

(** The three usual ways of writing a MAC address: twelve hex digits, or
    six pairs separated by colons or by dashes. *)
Definition wellformed_mac (m : string) : bool :=
  (String.length m =? 12)%nat && all_chars is_hex_digit m
  || mac_pairs ":"%char m
  || mac_pairs "-"%char m.

(** The last character of a string is a space. *)
Fixpoint last_space (s : string) : bool :=
  match s with
  | EmptyString => false
  | String c EmptyString => Py.isspace c
  | String _ r => last_space r
  end.

Definition head_space (s : string) : bool :=
  match s with
  | EmptyString => false
  | String c _ => Py.isspace c
  end.


(** ** Paths and readers *)

(** [s.endswith(suf)] *)
Fixpoint endswith (s suf : string) : bool :=
  String.eqb s suf
  || match s with
     | EmptyString => false
     | String _ r => endswith r suf
     end.

(** [os.path.basename(p)] on a POSIX system: what follows the last
    slash. *)
Definition basename (p : string) : string := default "" (last (Py.split "/"%char p)).

(** [os.path.join(a, b)] on a POSIX system. *)
Definition path_join (a b : string) : string :=
  match b with
  | String "/"%char _ => b
  | _ => if negb (Py.truthy a) || endswith a "/" then a +:+ b else a +:+ "/" +:+ b
  end.

Module Reader.

(** The pandas call that reads the file. *)
Inductive reader : Type :=
| ReadCsv
| ReadExcel (sheet_name : option string).

(** [_read_input] (core.py 67-73): anything that is not a CSV by its
    name is read as a spreadsheet. *)
Definition _read_input (input_path : string) (sheet_name : option string) : reader :=
  if endswith (Py.lower input_path) ".csv" then ReadCsv
  else match sheet_name with
       | Some s => if Py.truthy s then ReadExcel (Some s) else ReadExcel None
       | None => ReadExcel None
       end.

(** [read_input] (mist_assign_aps.py 147-161): [None] stands for [die],
    when the file is not there or is neither a CSV nor a spreadsheet by
    its name. *)
Definition read_input (file_exists : bool) (filename : string) (sheet_name : option string)
    : option reader :=
  if negb file_exists then None
  else if endswith (Py.lower filename) ".csv" then Some ReadCsv
  else if endswith (Py.lower filename) ".xlsx" then
    match sheet_name with
    | Some s => if Py.truthy s then Some (ReadExcel (Some s)) else Some (ReadExcel None)
    | None => Some (ReadExcel None)
    end
  else None.

End Reader.

(** ** The listing of the sites and the prompt  (app.py 46-47,
    mist_assign_aps.py 106-129) *)

Module Prompt.

(** The sort key [(s.get("name") or "").lower()]. *)
Definition name_key (s : App.Site) : string :=
  Py.lower (Py.or_else (match App.site_name s with
                        | Some (App.JStr n) => Some n
                        | _ => None
                        end) "").

(** Insertion before the first entry whose key is not smaller. *)
Fixpoint insert_site (x : App.Site) (l : list App.Site) : list App.Site :=
  match l with
  | [] => [x]
  | y :: l' =>
      if String.leb (name_key x) (name_key y) then x :: y :: l'
      else y :: insert_site x l'
  end.

(** [sorted(sites, key=...)] and [sites.sort(key=...)]: the sort of
    Python is stable, and a stable sort has one result only, the one
    insertion gives. *)
Definition sort_sites (sites : list App.Site) : list App.Site :=
  foldr insert_site [] sites.

(** The white space [int] skips at the two ends of a string. *)
Definition int_space (c : ascii) : bool :=
  let n := Ascii.N_of_ascii c in
  ((9 <=? n) && (n <=? 13) || (n =? 32) || (n =? 133) || (n =? 160))%N.

Fixpoint lstrip_int (s : string) : string :=
  match s with
  | EmptyString => EmptyString
  | String c r => if int_space c then lstrip_int r else s
  end.

Fixpoint rstrip_int (s : string) : string :=
  match s with
  | EmptyString => EmptyString
  | String c r =>
      match rstrip_int r with
      | EmptyString => if int_space c then EmptyString else String c EmptyString
      | r' => String c r'
      end
  end.

Definition digit_value (c : ascii) : option Z :=
  let n := Ascii.N_of_ascii c in
  if ((48 <=? n) && (n <=? 57))%N then Some (Z.of_N n - 48)%Z else None.

(** Decimal digits with single underscores between them; [after_digit]
    tells whether the character before was a digit. *)
Fixpoint digits (acc : Z) (after_digit : bool) (s : string) : option Z :=
  match s with
  | EmptyString => if after_digit then Some acc else None
  | String c r =>
      match digit_value c with
      | Some d => digits (10 * acc + d)%Z true r
      | None =>
          if Ascii.eqb c "_" && after_digit then digits acc false r else None
      end
  end.

Fixpoint count_digits (s : string) : nat :=
  match s with
  | EmptyString => 0
  | String c r => match digit_value c with Some _ => 1 | None => 0 end + count_digits r
  end.

(** [int(s)] for a string: [None] stands for [ValueError].
    [max_str_digits] is the limit the interpreter sets on the digits of
    a string to convert, 0 when it sets none; it is looked at for more
    than 640 digits only. *)
Definition py_int (max_str_digits : nat) (s : string) : option Z :=
  let body := rstrip_int (lstrip_int s) in
  let n := count_digits body in
  if (640 <? n) && (0 <? max_str_digits) && (max_str_digits <? n) then None
  else match body with
       | String "+"%char r => digits 0 false r
       | String "-"%char r => Z.opp <$> digits 0 false r
       | r => digits 0 false r
       end.

(** [choose_site] (mist_assign_aps.py 116-129) on the lines typed at the
    prompt; [None] when the input ends before a valid line, where
    [input] raises. *)
Fixpoint choose_site (max_str_digits : nat) (sites : list App.Site) (lines : list string)
    : option App.Site :=
  match lines with
  | [] => None
  | line :: rest =>
      let val := Py.strip line in
      match py_int max_str_digits val with
      | Some idx =>
          if (idx <? 1)%Z || (Z.of_nat (length sites) <? idx)%Z
          then choose_site max_str_digits sites rest
          else match sites !! Z.to_nat (idx - 1) with
               | Some s => Some s
               | None => choose_site max_str_digits sites rest
               end
      | None => choose_site max_str_digits sites rest
      end
  end.

End Prompt.

(** ** The route [/upload]  (app.py 24-49) *)

Module Upload.

Inductive response : Type :=
| RedirectIndex (flash : string)
| ErrorPage (e : exn)
| SelectSitePage (filename : string) (sites : list App.Site).

(** The route, given the name of the file of the request ([None] when
    the request has none), the eight hex digits drawn for the job, what
    [file.save] does, and the site listing; the trace tells whether the
    listing was asked for. *)
Definition upload (file : option string) (job_id : string) (saved : result unit)
    (sites : result (list App.Site)) : M response :=
  match file with
  | None => mret (RedirectIndex "Please select a CSV or XLSX file.")
  | Some name =>
      if negb (Py.truthy name) then mret (RedirectIndex "Please select a CSV or XLSX file.")
      else if negb (endswith (Py.lower name) ".csv" || endswith (Py.lower name) ".xlsx")
      then mret (RedirectIndex "Only CSV and XLSX files are supported.")
      else
        let filename := job_id +:+ "_" +:+ basename name in
        fun t =>
          match saved with
          | Raise e => (Raise e, t)
          | Ok _ =>
              match App.get_sites sites t with
              | (Raise e, t1) =>
                  if App.is_exception e then (Ok (ErrorPage e), t1) else (Raise e, t1)
              | (Ok listing, t1) =>
                  (Ok (SelectSitePage filename (Prompt.sort_sites listing)), t1)
              end
          end
  end.

End Upload.


(** ** The order of the listing and the lines the prompt refuses *)

(** The order of the sort keys. *)
Definition key_le (a b : App.Site) : Prop :=
  String.le (Prompt.name_key a) (Prompt.name_key b).

(** A line the prompt refuses: not a number, or a number that is not
    one of the list. *)
Definition refused (max_str_digits : nat) (sites : list App.Site) (line : string) : Prop :=
  ∀ idx, Prompt.py_int max_str_digits (Py.strip line) = Some idx →
         (idx < 1 ∨ Z.of_nat (length sites) < idx)%Z.


(** ** The numbered list of the prompt  (mist_assign_aps.py 117-119) *)

(** [str(i)] for a natural number. *)
Definition str_nat (i : nat) : string :=
  DecimalString.NilEmpty.string_of_uint (Nat.to_uint i).

(** [str(s.get('name'))], as the f-string formats it. *)
Definition shown_name (s : App.Site) : string :=
  match App.site_name s with
  | Some (App.JStr n) => n
  | _ => "None"
  end.

(** The lines printed for [enumerate(sites, 1)]. *)
Definition menu (sites : list App.Site) : list string :=
  imap (fun i s => str_nat (S i) +:+ ". " +:+ shown_name s) sites.


(** ** The pipeline on its host

    [Core.process_file], [Cli.main] and [App.run_route] above take every
    write of a file and every page for granted.  Below the creation of
    the directory, the writing of a CSV file and the rendering of a page
    are answers of the host, which may raise as the remote calls may;
    the program text is the same.  The console and the log stay out of
    the model: [print], [flash] and [logging] are taken to succeed. *)

Module Io.

(** The answers of the host: [os.makedirs(dir, exist_ok=True)],
    [df.to_csv(path, index=False)] for the frame [df], and
    [render_template] for a page, the evaluation of its arguments
    included. *)
Record Host : Type := mkHost {
  h_makedirs : result unit;
  h_to_csv : DataFrame -> result unit;
  h_render : App.response -> result unit
}.

Definition makedirs (h : Host) : M unit := lift (h_makedirs h).

(** The write is recorded in the trace once it has succeeded. *)
Definition to_csv (h : Host) (df : DataFrame) : M unit :=
  _ ← lift (h_to_csv h df);
  emit (EvWriteCsv df).

Definition render_template (h : Host) (page : App.response) : M App.response :=
  _ ← lift (h_render h page);
  mret page.

(** [process_file] (core.py 118-178). *)
Definition process_file (h : Host) (site_id : string) (w : World)
    : M (DataFrame * Summary) :=
  df ← lift (w_input w);
  let df := _normalize_dataframe df in
  let missing := _validate_headers df in
  if nonempty missing then
    raise (ValidationError [header_issue missing] "Missing required columns")
  else
    let df := set_column df "assignment status" "" in
    let df := set_column df "error message" "" in
    inventory ← get_inventory w;
    let inv_map := build_inv_map inventory in
    issues ← lift (_validate_rows df inv_map);
    if nonempty issues then
      raise (ValidationError issues "One or more rows are invalid")
    else
      '(df, ok, bad) ← assign_loop w site_id inv_map 0 (rows df) (df, 0, 0);
      _ ← makedirs h;
      _ ← to_csv h df;
      mret (df, mkSummary ok bad (ok + bad)).

(** [create_error_report] (core.py 182-229) with its directory and its
    file. *)
Definition create_error_report (h : Host) (df : DataFrame) (issues : list RowIssue)
    : M DataFrame :=
  _ ← makedirs h;
  let rep := Core.create_error_report df issues in
  _ ← to_csv h rep;
  mret rep.

(** [create_validation_report] (mist_assign_aps.py 200-227) with its
    directory and its file. *)
Definition create_validation_report (h : Host) (df : DataFrame) (issues : list RowIssue)
    : M DataFrame :=
  _ ← makedirs h;
  let rep := Cli.create_validation_report df issues in
  _ ← to_csv h rep;
  mret rep.

(** An answer of the remote service with an error status stands in the
    world as [FetchError]: [raise_for_status] raises it in the web core,
    and the command-line tool dies on it ([if not r.ok: die(...)]).
    Anything else is raised by the call itself, or for the site by
    [input] at the prompt, and propagates. *)
Definition or_die {A : Type} (r : result A) : result A :=
  match r with
  | Raise FetchError => Raise (SystemExit 1)
  | _ => r
  end.

(** [get_sites] and [choose_site] (mist_assign_aps.py 106-129): the id
    of the site picked. *)
Definition get_sites (w : World) : M string :=
  fun t => (or_die (w_sites w), t ++ [EvGetSites]).

(** [get_inventory] (mist_assign_aps.py 132-137). *)
Definition get_inventory (w : World) : M (list InvItem) :=
  fun t => (or_die (w_inventory w), t ++ [EvGetInventory]).

(** [main] (mist_assign_aps.py 238-319) from the reading of the input
    file on. *)
Definition main (h : Host) (w : World) : M (DataFrame * nat * nat) :=
  df_raw ← lift (w_input w);
  let df := Cli.normalize_dataframe df_raw in
  let missing := Cli.validate_headers df in
  if nonempty missing then
    let issues := [header_issue missing] in
    _ ← create_validation_report h (iloc_empty df) issues;
    raise (SystemExit 2)
  else
    site_id ← get_sites w;
    inventory ← get_inventory w;
    let inv_map := build_inv_map inventory in
    issues ← lift (Cli.validate_rows df inv_map);
    if nonempty issues then
      _ ← create_validation_report h df issues;
      raise (SystemExit 2)
    else
      let df := set_column df "assignment status" "" in
      let df := set_column df "error message" "" in
      '(df, ok, bad) ← assign_loop w site_id inv_map 0 (rows df) (df, 0, 0);
      _ ← to_csv h df;
      mret (df, ok, bad).

(** [try: body except Exception: handler]: [SystemExit] is not an
    [Exception] and goes through. *)
Definition try_except {A : Type} (body : M A) (handler : exn -> M A) : M A :=
  fun t =>
    match body t with
    | (Ok a, t') => (Ok a, t')
    | (Raise e, t') => if App.is_exception e then handler e t' else (Raise e, t')
    end.

(** The inner [try] of the route [/run] (app.py 86-93): the file is read
    and normalised again and the report written; any [Exception] leaves
    the page without report. *)
Definition build_report (h : Host) (w : World) (issues : list RowIssue)
    : M (option DataFrame) :=
  try_except
    (df2 ← lift (w_input w);
     rep ← create_error_report h (_normalize_dataframe df2) issues;
     mret (Some rep))
    (fun _ => mret None).

(** The route [/run] (app.py 52-108). *)
Definition run_route (h : Host) (form_filename form_site_id : option string)
    (file_exists : bool) (sites : result (list App.Site)) (w : World) : M App.response :=
  let filename := Py.strip (Py.or_else form_filename "") in
  let site_id := Py.strip (Py.or_else form_site_id "") in
  if negb (Py.truthy filename) || negb (Py.truthy site_id) then
    mret (App.RedirectIndex "Missing filename or site selection.")
  else if negb file_exists then
    mret (App.RedirectIndex "Uploaded file not found. Please upload again.")
  else fun t =>
    match App.get_sites sites t with
    | (Raise e, t1) =>
        if App.is_exception e then render_template h (App.ErrorPage e) t1
        else (Raise e, t1)
    | (Ok listing, t1) =>
        let site_name := App.find_site_name listing site_id in
        match ('(df, summary) ← process_file h site_id w;
               render_template h (App.ResultsPage site_name summary df)) t1 with
        | (Ok page, t2) => (Ok page, t2)
        | (Raise (ValidationError issues message), t2) =>
            (report ← build_report h w issues;
             render_template h (App.ValidationErrorsPage message issues report)) t2
        | (Raise e, t2) =>
            if App.is_exception e then render_template h (App.ErrorPage e) t2
            else (Raise e, t2)
        end
    end.

End Io.

(** A host on which every write and every page succeeds. *)
Definition reliable : Io.Host :=
  Io.mkHost (Ok tt) (fun _ => Ok tt) (fun _ => Ok tt).



(** A host whose disk refuses every write; [ReadError] stands for the
    [OSError] of the file system. *)
Definition full_disk : Io.Host :=
  Io.mkHost (Ok tt) (fun _ => Raise ReadError) (fun _ => Ok tt).

(** * Properties *)

(** ** Strings *)

Section Strings.

Lemma isspace_lower_char c : Py.isspace (Py.lower_char c) = Py.isspace c.
Proof. destruct c as [[] [] [] [] [] [] [] []]; reflexivity. Qed.

Lemma lower_char_idem c : Py.lower_char (Py.lower_char c) = Py.lower_char c.
Proof. destruct c as [[] [] [] [] [] [] [] []]; reflexivity. Qed.

Lemma lower_idem s : Py.lower (Py.lower s) = Py.lower s.
Proof. induction s as [|c s IH]; simpl; [done|]. by rewrite lower_char_idem, IH. Qed.

Lemma rstrip_cons c s :
  Py.rstrip (String c s) =
    if Py.isspace c && negb (Py.truthy (Py.rstrip s)) then EmptyString
    else String c (Py.rstrip s).
Proof. simpl. destruct (Py.rstrip s), (Py.isspace c); reflexivity. Qed.

Lemma lstrip_idem s : Py.lstrip (Py.lstrip s) = Py.lstrip s.
Proof.
  induction s as [|c s IH]; simpl; [done|].
  destruct (Py.isspace c) eqn:E; [done|]. simpl. by rewrite E.
Qed.

Lemma rstrip_idem s : Py.rstrip (Py.rstrip s) = Py.rstrip s.
Proof.
  induction s as [|c s IH]; [done|].
  rewrite rstrip_cons.
  destruct (Py.isspace c && negb (Py.truthy (Py.rstrip s))) eqn:E; [done|].
  rewrite rstrip_cons, IH, E. done.
Qed.

Lemma lstrip_rstrip s : Py.lstrip (Py.rstrip s) = Py.rstrip (Py.lstrip s).
Proof.
  induction s as [|c s IH]; [done|].
  rewrite rstrip_cons. cbn [Py.lstrip].
  destruct (Py.isspace c) eqn:E; cbn [andb].
  - rewrite <- IH. destruct (Py.rstrip s) eqn:R; cbn; [done|]. by rewrite E.
  - cbn [Py.lstrip]. rewrite E, rstrip_cons, E. done.
Qed.

Lemma strip_idem s : Py.strip (Py.strip s) = Py.strip s.
Proof.
  unfold Py.strip.
  by rewrite lstrip_rstrip, lstrip_idem, rstrip_idem.
Qed.

Lemma lower_lstrip s : Py.lower (Py.lstrip s) = Py.lstrip (Py.lower s).
Proof.
  induction s as [|c s IH]; simpl; [done|].
  rewrite isspace_lower_char. by destruct (Py.isspace c).
Qed.

Lemma truthy_lower s : Py.truthy (Py.lower s) = Py.truthy s.
Proof. by destruct s. Qed.

Lemma lower_rstrip s : Py.lower (Py.rstrip s) = Py.rstrip (Py.lower s).
Proof.
  induction s as [|c s IH]; [done|].
  cbn [Py.lower]. rewrite !rstrip_cons, <- IH, truthy_lower, isspace_lower_char.
  by destruct (Py.isspace c && negb (Py.truthy (Py.rstrip s))).
Qed.

Lemma lower_strip s : Py.lower (Py.strip s) = Py.strip (Py.lower s).
Proof. unfold Py.strip. by rewrite lower_rstrip, lower_lstrip. Qed.

(** The header normaliser [str(c).strip().lower()] is idempotent. *)
Lemma normalize_header_idem c :
  Py.lower (Py.strip (Py.lower (Py.strip c))) = Py.lower (Py.strip c).
Proof. by rewrite <- lower_strip, strip_idem, lower_idem. Qed.

Lemma normalize_cell_idem x : normalize_cell (normalize_cell x) = normalize_cell x.
Proof. destruct x; simpl; [done|]. by rewrite strip_idem. Qed.

End Strings.

(** ** Normalizer *)

Section Normalizer.

Lemma map_where_nil cols r f : map_where [] cols r f = r.
Proof.
  revert r; induction cols as [|k cols IH]; intros [|x r]; simpl; try done.
  rewrite IH. destruct (decide (k ∈ [])) as [Hin|]; [|done]. by apply elem_of_nil in Hin.
Qed.

Lemma map_where_ext ks1 ks2 cols r f :
  (∀ k, k ∈ ks1 ↔ k ∈ ks2) → map_where ks1 cols r f = map_where ks2 cols r f.
Proof.
  intros H. revert r; induction cols as [|k cols IH]; intros [|x r]; simpl; try done.
  rewrite IH. f_equal. destruct (decide (k ∈ ks1)), (decide (k ∈ ks2)); naive_solver.
Qed.

Lemma map_col_map_where f ks cols r c :
  (∀ x, f (f x) = f x) →
  map_col cols (map_where ks cols r f) c f = map_where (c :: ks) cols r f.
Proof.
  intros Hf. revert r; induction cols as [|k cols IH]; intros [|x r]; simpl; try done.
  rewrite IH. f_equal.
  destruct (decide (k = c)) as [->|Hne].
  - rewrite (decide_True (P := c ∈ c :: ks)) by set_solver.
    destruct (decide (c ∈ ks)); by rewrite ?Hf.
  - destruct (decide (k ∈ ks)), (decide (k ∈ c :: ks)); set_solver.
Qed.

Lemma map_where_all f ks cols r :
  cols ⊆ ks → map_where ks cols r f = map f (take (length cols) r) ++ drop (length cols) r.
Proof.
  revert r; induction cols as [|k cols IH]; intros [|x r] Hsub; simpl; try done.
  rewrite decide_True by set_solver. f_equal. apply IH. set_solver.
Qed.

(** The loop over the columns, started from rows already rewritten under
    the labels [ks0]. *)
Lemma normalize_loop f cols rs ks ks0 :
  (∀ x, f (f x) = f x) →
  foldl (fun df col => map_column df col f)
    (mkDataFrame cols (map (fun r => map_where ks0 cols r f) rs)) ks
  = mkDataFrame cols (map (fun r => map_where (ks ++ ks0) cols r f) rs).
Proof.
  intros Hf. revert ks0; induction ks as [|k ks IH]; intros ks0; simpl; [done|].
  unfold map_column at 2. simpl. rewrite map_map.
  erewrite map_ext; [|intros r; apply (map_col_map_where f ks0 cols r k Hf)].
  rewrite IH. f_equal. apply map_ext. intros r. apply map_where_ext. set_solver.
Qed.

(** What the normaliser computes, without the loop. *)
Lemma normalize_dataframe_eq df :
  _normalize_dataframe df =
    mkDataFrame (map (fun c => Py.lower (Py.strip c)) (columns df))
      (map (normalize_row (length (columns df))) (rows df)).
Proof.
  unfold _normalize_dataframe. simpl.
  set (cols := map _ (columns df)).
  assert (Hrs : rows df = map (fun r => map_where [] cols r normalize_cell) (rows df)).
  { rewrite <- (map_id (rows df)) at 1. apply map_ext. intros r. by rewrite map_where_nil. }
  rewrite Hrs at 1. rewrite normalize_loop by apply normalize_cell_idem.
  f_equal. apply map_ext. intros r. rewrite map_where_all by set_solver.
  unfold normalize_row, cols. by rewrite length_map.
Qed.

Lemma normalize_row_idem n r : normalize_row n (normalize_row n r) = normalize_row n r.
Proof.
  unfold normalize_row.
  destruct (decide (n ≤ length r)) as [Hle|Hgt].
  - rewrite take_app_length', drop_app_length'
      by (rewrite length_map, length_take; lia).
    rewrite map_map. f_equal. apply map_ext, normalize_cell_idem.
  - rewrite (drop_ge r n), (take_ge r n), app_nil_r by lia.
    rewrite take_ge, drop_ge, app_nil_r by (rewrite length_map; lia).
    rewrite map_map. apply map_ext, normalize_cell_idem.
Qed.

Lemma normalize_wf df : wf_frame df → wf_frame (_normalize_dataframe df).
Proof.
  rewrite normalize_dataframe_eq. unfold wf_frame. simpl.
  intros H. rewrite Forall_map. eapply Forall_impl; [exact H|].
  intros r Hr. simpl in *. unfold normalize_row.
  rewrite length_app, !length_map, length_take, length_drop. lia.
Qed.


(** C4. The normaliser is idempotent on every frame.  The web core's
    [_normalize_dataframe] and the CLI's [normalize_dataframe] both
    return the frame whose labels are the labels of the input stripped
    and lower-cased, and in which every cell under a column is a string:
    the empty string for a missing value, the stripped text otherwise;
    and each of them, applied to its own result, returns that result. *)
Theorem C4_normalizer_idempotent (df : DataFrame) :
  let n := length (columns df) in
  let normalized :=
    mkDataFrame
      (map (fun c => Py.lower (Py.strip c)) (columns df))
      (map (fun r => map (fun x => match x with
                                   | NaN => Str ""
                                   | Str s => Str (Py.strip s)
                                   end) (take n r) ++ drop n r) (rows df)) in
  _normalize_dataframe df = normalized
  ∧ Cli.normalize_dataframe df = normalized
  ∧ _normalize_dataframe (_normalize_dataframe df) = _normalize_dataframe df
  ∧ Cli.normalize_dataframe (Cli.normalize_dataframe df) = Cli.normalize_dataframe df.
Proof.
  intros n normalized.
  assert (Hidem : _normalize_dataframe (_normalize_dataframe df) = _normalize_dataframe df).
  { rewrite (normalize_dataframe_eq (_normalize_dataframe df)).
    rewrite normalize_dataframe_eq. simpl. f_equal.
    - rewrite map_map. apply map_ext. intros c. apply normalize_header_idem.
    - rewrite length_map, map_map. apply map_ext. intros r. apply normalize_row_idem. }
  assert (Hexp : _normalize_dataframe df = normalized).
  { (* after the loop, a cell is [normalize_cell] of the input cell, which
       computes to the two cases of the statement *)
    rewrite normalize_dataframe_eq. reflexivity. }
  unfold Cli.normalize_dataframe. by split_and!.
Qed.

End Normalizer.

(** ** Row validator *)

Section RowValidator.

Lemma or_else_self s : Py.or_else (Some s) "" = s.
Proof. by destruct s. Qed.

Lemma truthy_false s : Py.truthy s = false ↔ s = "".
Proof. destruct s; naive_solver. Qed.

Lemma truthy_true s : Py.truthy s = true ↔ s ≠ "".
Proof. destruct s; naive_solver. Qed.

Lemma lookup_col_str cols r c :
  Forall is_str r → lookup_col cols r c ≠ Some NaN.
Proof.
  intros Hr. revert cols; induction Hr as [|x r Hx _ IH]; intros [|k cols]; simpl; try done.
  case_decide; [|apply IH]. destruct x; naive_solver.
Qed.

Lemma filter_none {A} (P : A → Prop) `{!∀ x, Decision (P x)} (l : list A) :
  (∀ x, x ∈ l → ¬ P x) → filter P l = [].
Proof.
  intros Hl. induction l as [|x l IH]; [done|].
  rewrite filter_cons_False by (apply Hl; set_solver). apply IH. set_solver.
Qed.

Lemma NoDup_repeated cols c : NoDup cols → repeated cols c = false.
Proof.
  intros Hnd. unfold repeated. apply Nat.ltb_ge.
  induction Hnd as [|k cols Hk _ IH]; simpl; [lia|].
  destruct (decide (k = c)) as [->|Hne].
  - rewrite filter_cons_True by done.
    rewrite (filter_none _ cols); [simpl; lia|]. by intros k Hin ->.
  - by rewrite filter_cons_False.
Qed.

Lemma get_or_empty_str cols r c :
  repeated cols c = false →
  Forall is_str r → get_or_empty cols r c = Ok (cell_text cols r c).
Proof.
  intros Hrep Hr. unfold get_or_empty, cell_text. rewrite Hrep.
  pose proof (lookup_col_str cols r c Hr) as Hn.
  destruct (lookup_col cols r c) as [[|s]|]; try done. by rewrite or_else_self.
Qed.

(** One iteration of the loop does what the specification's row check
    says. *)
Lemma validate_row_spec cols inv_map idx r issues :
  NoDup cols →
  Forall is_str r →
  validate_row cols inv_map idx r issues
  = Ok (issues ++ option_list (spec_row_issue cols inv_map idx r)).
Proof.
  intros Hnd Hr. unfold validate_row, spec_row_issue.
  rewrite !get_or_empty_str by (done || by apply NoDup_repeated).
  cbn [mbind result_bind].
  set (serial := Py.strip (cell_text cols r "serial number")).
  set (mac := cell_text cols r "mac address").
  destruct (decide (serial = "")) as [He|Hne].
  { apply truthy_false in He as Ht. by rewrite Ht. }
  apply truthy_true in Hne as Ht. rewrite Ht. simpl.
  destruct (decide (inv_map !! serial = None)); [done|].
  destruct (decide (normalize_mac mac ≠ "" ∧ _)) as [[H1 H2]|Hn].
  - apply truthy_true in H1. rewrite H1.
    apply Nat.eqb_neq in H2. by rewrite H2.
  - destruct (Py.truthy (normalize_mac mac)) eqn:E1; simpl; [|by rewrite app_nil_r].
    destruct (length (Py.split ":" (normalize_mac mac)) =? 6)%nat eqn:E2; simpl;
      [by rewrite app_nil_r|].
    exfalso. apply Hn. split; [by apply truthy_true|by apply Nat.eqb_neq].
Qed.

Lemma validate_loop_spec cols inv_map idx rs issues :
  NoDup cols →
  Forall (Forall is_str) rs →
  validate_loop cols inv_map idx rs issues
  = Ok (issues ++ spec_issues cols inv_map idx rs).
Proof.
  intros Hnd Hrs. revert idx issues.
  induction Hrs as [|r rs Hr _ IH]; intros idx issues; simpl.
  - by rewrite app_nil_r.
  - rewrite validate_row_spec by done. cbn [mbind result_bind].
    rewrite IH. by rewrite <- app_assoc.
Qed.

Lemma validate_rows_spec df inv_map :
  NoDup (columns df) →
  str_frame df →
  _validate_rows df inv_map = Ok (spec_issues (columns df) inv_map 0 (rows df)).
Proof. intros Hnd H. unfold _validate_rows. by rewrite validate_loop_spec. Qed.

Lemma spec_row_issue_row cols inv_map idx r i :
  spec_row_issue cols inv_map idx r = Some i → row i = (Z.of_nat idx + 1)%Z.
Proof.
  unfold spec_row_issue. repeat case_decide; intros [= <-]; done.
Qed.

Lemma spec_issues_rows cols inv_map idx rs i :
  i ∈ spec_issues cols inv_map idx rs →
  (Z.of_nat idx < row i ≤ Z.of_nat idx + Z.of_nat (length rs))%Z.
Proof.
  revert idx; induction rs as [|r rs IH]; intros idx; cbn [spec_issues];
    [by intros ?%elem_of_nil|].
  rewrite elem_of_app, length_cons. intros [Hi|Hi].
  - destruct (spec_row_issue cols inv_map idx r) as [i'|] eqn:E; simpl in Hi;
      [|by apply elem_of_nil in Hi].
    apply list_elem_of_singleton in Hi as ->.
    apply spec_row_issue_row in E. lia.
  - apply IH in Hi. lia.
Qed.

(** The validator walks over all the rows: the issues of a frame cut in
    two are the issues of the two parts. *)
Lemma spec_issues_app cols inv_map idx rs1 rs2 :
  spec_issues cols inv_map idx (rs1 ++ rs2)
  = spec_issues cols inv_map idx rs1
      ++ spec_issues cols inv_map (idx + length rs1) rs2.
Proof.
  revert idx; induction rs1 as [|r rs1 IH]; intros idx; simpl.
  - by rewrite Nat.add_0_r.
  - rewrite IH, <- app_assoc.
    by replace (idx + S (length rs1)) with (S idx + length rs1) by lia.
Qed.

Lemma spec_issues_length cols inv_map idx rs :
  length (spec_issues cols inv_map idx rs) ≤ length rs.
Proof.
  revert idx; induction rs as [|r rs IH]; intros idx; simpl; [done|].
  rewrite length_app. specialize (IH (S idx)).
  destruct (spec_row_issue cols inv_map idx r); simpl; lia.
Qed.

Lemma filter_row_none (n : Z) (l : list RowIssue) :
  (∀ i, i ∈ l → row i ≠ n) → filter (fun i => row i = n) l = [].
Proof. apply filter_none. Qed.

(** The issues carrying the number of a row are those of that row. *)
Lemma spec_issues_filter cols inv_map idx0 rs j r :
  rs !! j = Some r →
  filter (fun i => row i = (Z.of_nat (idx0 + j) + 1)%Z) (spec_issues cols inv_map idx0 rs)
  = option_list (spec_row_issue cols inv_map (idx0 + j) r).
Proof.
  revert idx0 j; induction rs as [|r0 rs IH]; intros idx0 j Hj; [done|].
  simpl. rewrite filter_app. destruct j as [|j]; simpl in Hj.
  - injection Hj as ->. rewrite Nat.add_0_r.
    rewrite (filter_row_none _ (spec_issues _ _ _ _)), app_nil_r.
    + destruct (spec_row_issue cols inv_map idx0 r) as [i|] eqn:E; simpl; [|done].
      rewrite filter_cons_True; [done|]. by apply spec_row_issue_row in E.
    + intros i Hi%spec_issues_rows. lia.
  - rewrite (filter_row_none _ (option_list _)).
    + simpl. replace (idx0 + S j) with (S idx0 + j) by lia. by apply IH.
    + intros i Hi. destruct (spec_row_issue cols inv_map idx0 r0) as [i'|] eqn:E;
        simpl in Hi; [|by apply elem_of_nil in Hi].
      apply list_elem_of_singleton in Hi as ->.
      apply spec_row_issue_row in E. lia.
Qed.

Lemma spec_issues_sorted cols inv_map idx rs :
  StronglySorted Z.lt (map row (spec_issues cols inv_map idx rs)).
Proof.
  revert idx; induction rs as [|r rs IH]; intros idx; simpl; [constructor|].
  rewrite map_app.
  destruct (spec_row_issue cols inv_map idx r) as [i|] eqn:E; simpl; [|apply IH].
  constructor; [apply IH|].
  apply Forall_forall. intros z Hz.
  apply list_elem_of_In, in_map_iff in Hz as (i' & <- & Hi'%list_elem_of_In).
  apply spec_issues_rows in Hi'. apply spec_row_issue_row in E. lia.
Qed.

End RowValidator.

Section RowValidatorClaims.

(** C3. On a normalised frame (distinct column labels, every cell a
    string) the row validator returns, for both front ends, the issues of
    all the rows in row order: it goes on after a bad row, and the issues
    carrying the number of a row are at most one, the first that applies
    of: blank serial, serial not in the snapshot, MAC not made of six
    groups. *)
Theorem C3_row_validator (df : DataFrame) (inv_map : gmap string InvItem) :
  NoDup (columns df) →
  str_frame df →
  ∃ issues,
    _validate_rows df inv_map = Ok issues
    ∧ Cli.validate_rows df inv_map = Ok issues
    ∧ issues = spec_issues (columns df) inv_map 0 (rows df)
    ∧ (∀ idx r, rows df !! idx = Some r →
         filter (fun i => row i = (Z.of_nat idx + 1)%Z) issues
         = option_list (spec_row_issue (columns df) inv_map idx r))
    ∧ StronglySorted Z.lt (map row issues)
    ∧ length issues ≤ length (rows df).
Proof.
  intros Hnd Hs. exists (spec_issues (columns df) inv_map 0 (rows df)).
  split_and!.
  - by apply validate_rows_spec.
  - by apply validate_rows_spec.
  - done.
  - intros idx r Hr. by apply (spec_issues_filter _ _ 0).
  - apply spec_issues_sorted.
  - apply spec_issues_length.
Qed.

(** The theorem on [demo_bad_rows], whose rows fail in the three ways. *)
Lemma C3_row_validator_witness :
  ∃ issues,
    _validate_rows demo_bad_rows (build_inv_map demo_inventory) = Ok issues
    ∧ Cli.validate_rows demo_bad_rows (build_inv_map demo_inventory) = Ok issues
    ∧ issues = spec_issues (columns demo_bad_rows) (build_inv_map demo_inventory) 0
                 (rows demo_bad_rows)
    ∧ (∀ idx r, rows demo_bad_rows !! idx = Some r →
         filter (fun i => row i = (Z.of_nat idx + 1)%Z) issues
         = option_list (spec_row_issue (columns demo_bad_rows)
                          (build_inv_map demo_inventory) idx r))
    ∧ StronglySorted Z.lt (map row issues)
    ∧ length issues ≤ length (rows demo_bad_rows).
Proof.
  apply (C3_row_validator demo_bad_rows (build_inv_map demo_inventory)).
  - apply (bool_decide_unpack _). vm_compute. exact I.
  - repeat constructor.
Defined.

Example validate_demo_bad_rows :
  _validate_rows demo_bad_rows (build_inv_map demo_inventory)
  = Ok [mkRowIssue 1 "mac address" "aa:bb:cc" "MAC Address format looks invalid";
        mkRowIssue 2 "serial number" "xyz" "Serial not found in Mist org inventory";
        mkRowIssue 3 "serial number" "" "Serial Number is blank"].
Proof. vm_compute. reflexivity. Qed.

End RowValidatorClaims.

(** ** MAC canonicalisation and flagging *)

Section Mac.

Example normalize_mac_upper :
  normalize_mac "  AA-BB-CC-DD-EE-0F " = "aa:bb:cc:dd:ee:0f".
Proof. reflexivity. Qed.

(** ["aa:bb:cc"] is flagged: three groups. *)
Example short_mac_flagged :
  _validate_rows demo_bad_rows (build_inv_map demo_inventory)
  = Ok [mkRowIssue 1 "mac address" "aa:bb:cc" "MAC Address format looks invalid";
        mkRowIssue 2 "serial number" "xyz" "Serial not found in Mist org inventory";
        mkRowIssue 3 "serial number" "" "Serial Number is blank"]
  ∧ canonical_mac (normalize_mac "aa:bb:cc") = false.
Proof. split; vm_compute; reflexivity. Qed.

(** A canonical MAC address has six groups, so it is never flagged. *)
Lemma canonical_mac_groups m :
  canonical_mac m = true → length (Py.split ":"%char m) = 6%nat.
Proof. unfold canonical_mac. intros [H _]%andb_true_iff. by apply Nat.eqb_eq. Qed.

(** C2, as stated, fails: the row of [demo_odd_mac] has a serial that is
    in the inventory and the non-empty MAC "zz:zz:zz:zz:zz:zz", whose
    canonical form is not made of hex digits, and the row validator
    returns no issue for it. *)
Lemma C2_counterexample :
  NoDup (columns demo_odd_mac)
  ∧ str_frame demo_odd_mac
  ∧ rows demo_odd_mac !! 0%nat
    = Some [Str "1"; Str "ap1"; Str "ABC999"; Str "zz:zz:zz:zz:zz:zz"]
  ∧ is_Some (build_inv_map demo_inventory !! "ABC999")
  ∧ normalize_mac "zz:zz:zz:zz:zz:zz" = "zz:zz:zz:zz:zz:zz"
  ∧ canonical_mac (normalize_mac "zz:zz:zz:zz:zz:zz") = false
  ∧ _validate_rows demo_odd_mac (build_inv_map demo_inventory) = Ok [].
Proof.
  split_and!; try (vm_compute; reflexivity).
  - apply (bool_decide_unpack _). vm_compute. exact I.
  - repeat constructor.
  - vm_compute. eauto.
Qed.

(** C2, amended. [normalize_mac] maps "aa-bb-cc-dd-ee-ff" and
    "aabbccddeeff" to "aa:bb:cc:dd:ee:ff"; and for a row whose serial is
    non-blank and in the snapshot, the row gets the mac-address issue
    exactly when the canonical form of its MAC is non-empty and does not
    split into six colon-separated groups.  The content of the groups is
    not checked. *)
Theorem C2_mac_flagging (df : DataFrame) (inv_map : gmap string InvItem)
    (idx : nat) (r : list cell) :
  NoDup (columns df) →
  str_frame df →
  rows df !! idx = Some r →
  Py.strip (cell_text (columns df) r "serial number") ≠ "" →
  is_Some (inv_map !! Py.strip (cell_text (columns df) r "serial number")) →
  normalize_mac "aa-bb-cc-dd-ee-ff" = "aa:bb:cc:dd:ee:ff"
  ∧ normalize_mac "aabbccddeeff" = "aa:bb:cc:dd:ee:ff"
  ∧ ∃ issues,
      _validate_rows df inv_map = Ok issues
      ∧ filter (fun i => row i = (Z.of_nat idx + 1)%Z) issues
        = let mac := cell_text (columns df) r "mac address" in
          if decide (normalize_mac mac ≠ ""
                     ∧ length (Py.split ":"%char (normalize_mac mac)) ≠ 6%nat)
          then [mkRowIssue (Z.of_nat idx + 1) "mac address" mac
                  "MAC Address format looks invalid"]
          else [].
Proof.
  intros Hnd Hs Hr Hblank [e He]. split_and!; [reflexivity..|].
  eexists. split; [by apply validate_rows_spec|].
  rewrite (spec_issues_filter _ _ 0 _ idx r Hr). cbn [Nat.add].
  unfold spec_row_issue. rewrite decide_False by done.
  rewrite decide_False by congruence. cbv zeta.
  by case_decide.
Qed.

(** The theorem on the first row of [demo_bad_rows], whose MAC has three
    groups. *)
Lemma C2_mac_flagging_witness :
  normalize_mac "aa-bb-cc-dd-ee-ff" = "aa:bb:cc:dd:ee:ff"
  ∧ normalize_mac "aabbccddeeff" = "aa:bb:cc:dd:ee:ff"
  ∧ ∃ issues,
      _validate_rows demo_bad_rows (build_inv_map demo_inventory) = Ok issues
      ∧ filter (fun i => row i = (Z.of_nat 0 + 1)%Z) issues
        = let mac := cell_text (columns demo_bad_rows)
                       [Str "1"; Str "ap1"; Str "ABC999"; Str "aa:bb:cc"] "mac address" in
          if decide (normalize_mac mac ≠ ""
                     ∧ length (Py.split ":"%char (normalize_mac mac)) ≠ 6%nat)
          then [mkRowIssue (Z.of_nat 0 + 1) "mac address" mac
                  "MAC Address format looks invalid"]
          else [].
Proof.
  apply (C2_mac_flagging demo_bad_rows (build_inv_map demo_inventory) 0
           [Str "1"; Str "ap1"; Str "ABC999"; Str "aa:bb:cc"]).
  - apply (bool_decide_unpack _). vm_compute. exact I.
  - repeat constructor.
  - reflexivity.
  - vm_compute. discriminate.
  - vm_compute. eauto.
Defined.

End Mac.

(** ** Inventory snapshot *)

Section Inventory.

Lemma build_inv_map_snoc inventory e :
  build_inv_map (inventory ++ [e])
  = match inv_serial e with
    | Some s => if Py.truthy s then <[Py.strip s := e]> (build_inv_map inventory)
                else build_inv_map inventory
    | None => build_inv_map inventory
    end.
Proof. unfold build_inv_map. by rewrite foldl_app. Qed.

Lemma build_inv_map_lookup inventory k e :
  build_inv_map inventory !! k = Some e → e ∈ inventory ∧ kept_under e k.
Proof.
  induction inventory as [|e0 inventory IH] using rev_ind; [done|].
  rewrite build_inv_map_snoc, elem_of_app, list_elem_of_singleton.
  destruct (inv_serial e0) as [s|] eqn:Es; [|naive_solver].
  destruct (Py.truthy s) eqn:Et; [|naive_solver].
  destruct (decide (Py.strip s = k)) as [<-|Hne].
  - rewrite lookup_insert_eq. intros [= <-]. split; [by right|].
    exists s. by rewrite truthy_true in Et.
  - rewrite lookup_insert_ne by done. naive_solver.
Qed.

Lemma build_inv_map_is_Some inventory k :
  is_Some (build_inv_map inventory !! k) ↔ ∃ e, e ∈ inventory ∧ kept_under e k.
Proof.
  split.
  - intros [e He]. exists e. by apply build_inv_map_lookup.
  - intros (e & Hin & s & Hs & Hne & Hk).
    induction inventory as [|e0 inventory IH] using rev_ind;
      [by apply elem_of_nil in Hin|].
    rewrite build_inv_map_snoc.
    apply elem_of_app in Hin as [Hin|Hin%list_elem_of_singleton].
    + destruct (inv_serial e0) as [s0|]; [|by apply IH].
      destruct (Py.truthy s0); [|by apply IH].
      destruct (decide (Py.strip s0 = k)) as [<-|].
      * rewrite lookup_insert_eq. eauto.
      * rewrite lookup_insert_ne by done. by apply IH.
    + subst e0. rewrite Hs. apply truthy_true in Hne. rewrite Hne, Hk.
      rewrite lookup_insert_eq. eauto.
Qed.

(** Of several entries with the same stripped serial the last one
    stays. *)
Lemma build_inv_map_last inventory e k :
  kept_under e k → build_inv_map (inventory ++ [e]) !! k = Some e.
Proof.
  intros (s & Hs & Hne & Hk). rewrite build_inv_map_snoc, Hs.
  apply truthy_true in Hne. rewrite Hne, Hk. apply lookup_insert_eq.
Qed.

(** C9. The snapshot maps a key to an entry exactly when an entry of
    the inventory has a non-empty serial whose stripped form is that
    key; entries without a serial or with the empty serial are left
    out.  A row with a non-blank stripped serial [k] gets the
    not-found issue exactly when no kept entry has a stripped serial
    equal to [k], character for character. *)
Theorem C9_inventory_snapshot (inventory : list InvItem) (k : string) :
  (is_Some (build_inv_map inventory !! k) ↔ ∃ e, e ∈ inventory ∧ kept_under e k)
  ∧ (∀ e, build_inv_map inventory !! k = Some e → e ∈ inventory ∧ kept_under e k)
  ∧ (∀ cols idx r issues,
       NoDup cols →
       Forall is_str r →
       Py.strip (cell_text cols r "serial number") = k →
       k ≠ "" →
       (validate_row cols (build_inv_map inventory) idx r issues
        = Ok (issues ++ [mkRowIssue (Z.of_nat idx + 1) "serial number" k
                           "Serial not found in Mist org inventory"])
        ↔ ¬ ∃ e, e ∈ inventory ∧ kept_under e k)).
Proof.
  split_and!.
  - apply build_inv_map_is_Some.
  - intros e. apply build_inv_map_lookup.
  - intros cols idx r issues Hnd Hr Hk Hne.
    rewrite validate_row_spec by done.
    rewrite <- build_inv_map_is_Some. unfold spec_row_issue. rewrite Hk.
    rewrite decide_False by done. cbv zeta.
    destruct (decide (build_inv_map inventory !! k = None)) as [Hn|Hs].
    + rewrite Hn. split; [intros _ [? ?]; done|done].
    + split; [|intros H; destruct H; by destruct (build_inv_map inventory !! k)].
      intros Heq. exfalso. case_decide; simpl in Heq.
      * injection Heq as Heq. apply app_inv_head in Heq. discriminate.
      * injection Heq as Heq. apply app_inv_head in Heq. discriminate.
Qed.

(** The membership test on a row whose serial differs from a key of the
    snapshot by its case only. *)
Lemma C9_inventory_snapshot_witness :
  validate_row ["serial number"] (build_inv_map demo_inventory) 0 [Str "abc999"] []
  = Ok ([] ++ [mkRowIssue (Z.of_nat 0 + 1) "serial number" "abc999"
                 "Serial not found in Mist org inventory"])
  ↔ ¬ ∃ e, e ∈ demo_inventory ∧ kept_under e "abc999".
Proof.
  apply (C9_inventory_snapshot demo_inventory "abc999").
  - apply (bool_decide_unpack _). vm_compute. exact I.
  - repeat constructor.
  - reflexivity.
  - discriminate.
Defined.

(** Serials are matched with their case: "ABC999" is in the inventory,
    "abc999" is not found. *)
Example serial_case_sensitive :
  is_Some (build_inv_map demo_inventory !! "ABC999")
  ∧ build_inv_map demo_inventory !! "abc999" = None
  ∧ validate_row ["serial number"] (build_inv_map demo_inventory) 0 [Str "abc999"] []
    = Ok [mkRowIssue 1 "serial number" "abc999" "Serial not found in Mist org inventory"].
Proof. split_and!; vm_compute; eauto. Qed.

(** An entry whose serial is made of spaces only is kept, under the
    empty key. *)
Example blank_serial_kept :
  build_inv_map [mkInvItem (Some "  ") None] !! "" = Some (mkInvItem (Some "  ") None).
Proof. vm_compute. reflexivity. Qed.

End Inventory.

(** ** Frames *)

Section Frames.

Lemma map_fmap {A B} (f : A → B) (l : list A) : map f l = f <$> l.
Proof. induction l as [|x l IH]; simpl; [done|]. by rewrite IH. Qed.

Lemma list_lookup_map {A B} (f : A → B) (l : list A) (i : nat) :
  map f l !! i = f <$> l !! i.
Proof. by rewrite map_fmap, list_lookup_fmap. Qed.

Lemma alter_alter {A} (f g : A → A) (i : nat) (l : list A) :
  alter f i (alter g i l) = alter (fun x => f (g x)) i l.
Proof.
  revert i; induction l as [|x l IH]; intros [|i]; simpl; try done.
  f_equal. apply IH.
Qed.

Lemma map_col_length cols r c f : length (map_col cols r c f) = length r.
Proof.
  revert r; induction cols as [|k cols IH]; intros [|x r]; simpl; try done.
  by rewrite IH.
Qed.

Lemma lookup_col_map_col cols r c f :
  lookup_col cols (map_col cols r c f) c = f <$> lookup_col cols r c.
Proof.
  revert r; induction cols as [|k cols IH]; intros [|x r]; simpl; try done.
  case_decide; [done|]. apply IH.
Qed.

Lemma lookup_col_map_col_ne cols r c k f :
  k ≠ c → lookup_col cols (map_col cols r c f) k = lookup_col cols r k.
Proof.
  intros Hne. revert r; induction cols as [|k' cols IH]; intros [|x r]; simpl; try done.
  destruct (decide (k' = k)) as [->|]; [by rewrite decide_False|]. apply IH.
Qed.

Lemma lookup_col_is_Some cols r c :
  c ∈ cols → length cols ≤ length r → is_Some (lookup_col cols r c).
Proof.
  revert r; induction cols as [|k cols IH]; intros r Hin Hlen.
  - by apply elem_of_nil in Hin.
  - destruct r as [|x r]; simpl in *; [lia|].
    case_decide; [eauto|]. apply IH; [set_solver|lia].
Qed.

Lemma lookup_col_app_new cols r c v :
  c ∉ cols → length r = length cols → lookup_col (cols ++ [c]) (r ++ [v]) c = Some v.
Proof.
  revert r; induction cols as [|k cols IH]; intros [|x r] Hin Hlen; simpl in *; try done.
  - by rewrite decide_True.
  - rewrite decide_False by set_solver. apply IH; [set_solver|lia].
Qed.

Lemma lookup_col_app_other cols r c k v :
  k ≠ c → length r = length cols →
  lookup_col (cols ++ [c]) (r ++ [v]) k = lookup_col cols r k.
Proof.
  intros Hne. revert r; induction cols as [|k' cols IH]; intros [|x r] Hlen;
    simpl in *; try done.
  - by rewrite decide_False.
  - case_decide; [done|]. apply IH. lia.
Qed.

(** The row [r] of a frame with columns [cols] after [df[c] = v]. *)
Lemma set_column_rows df c v :
  rows (set_column df c v)
  = map (fun r => if decide (c ∈ columns df)
                  then map_col (columns df) r c (fun _ => Str v)
                  else r ++ [Str v]) (rows df).
Proof. unfold set_column. by case_decide. Qed.

Lemma set_column_length df c v : length (rows (set_column df c v)) = length (rows df).
Proof. by rewrite set_column_rows, length_map. Qed.

Lemma set_column_wf df c v : wf_frame df → wf_frame (set_column df c v).
Proof.
  unfold wf_frame, set_column. intros H. case_decide; simpl.
  - rewrite Forall_map. eapply Forall_impl; [done|]. intros r Hr. simpl in *.
    by rewrite map_col_length.
  - rewrite Forall_map. eapply Forall_impl; [done|]. intros r Hr. simpl in *.
    rewrite !length_app, Hr. done.
Qed.

Lemma map_col_str cols r c v :
  Forall is_str r → Forall is_str (map_col cols r c (fun _ => Str v)).
Proof.
  intros Hr. revert cols; induction Hr as [|x r Hx Hr IH]; intros [|k cols]; simpl;
    try by constructor.
  constructor; [by destruct (decide (k = c))|apply IH].
Qed.

Lemma set_column_str df c v : str_frame df → str_frame (set_column df c v).
Proof.
  unfold str_frame, set_column. intros H. case_decide; simpl.
  - rewrite Forall_map. eapply Forall_impl; [done|]. intros r Hr. by apply map_col_str.
  - rewrite Forall_map. eapply Forall_impl; [done|]. intros r Hr. simpl.
    apply Forall_app. split; [done|]. by repeat constructor.
Qed.

(** After [df[c] = v] every row reads [v] under [c], and reads under any
    other label what it read before. *)
Lemma set_column_lookup df c v idx r' :
  wf_frame df →
  rows (set_column df c v) !! idx = Some r' →
  ∃ r, rows df !! idx = Some r
       ∧ lookup_col (columns (set_column df c v)) r' c = Some (Str v)
       ∧ ∀ k, k ≠ c →
           lookup_col (columns (set_column df c v)) r' k = lookup_col (columns df) r k.
Proof.
  intros Hwf. rewrite set_column_rows, list_lookup_map.
  destruct (rows df !! idx) as [r|] eqn:Er; [|done]. simpl. intros [= <-].
  exists r. split; [done|].
  assert (Hlen : length r = length (columns df)).
  { eapply (Forall_lookup_1 _ _ _ _ Hwf Er). }
  unfold set_column. case_decide as Hc; simpl.
  - split.
    + rewrite lookup_col_map_col.
      destruct (lookup_col_is_Some (columns df) r c Hc) as [x ->]; [lia|done].
    + intros k Hk. by apply lookup_col_map_col_ne.
  - split.
    + by apply lookup_col_app_new.
    + intros k Hk. by apply lookup_col_app_other.
Qed.

Lemma set_column_has_col df c v : c ∈ columns (set_column df c v).
Proof. unfold set_column. case_decide; simpl; set_solver. Qed.

Lemma set_column_keeps_col df c v k : k ∈ columns df → k ∈ columns (set_column df c v).
Proof. unfold set_column. case_decide; simpl; set_solver. Qed.


Lemma normalize_length df : length (rows (_normalize_dataframe df)) = length (rows df).
Proof. rewrite normalize_dataframe_eq. simpl. by rewrite length_map. Qed.

(** [df[c] = v] does not change which labels are repeated. *)
Lemma set_column_repeated df c v k :
  repeated (columns (set_column df c v)) k = repeated (columns df) k.
Proof.
  unfold set_column. case_decide as Hc; [done|]. simpl. unfold repeated.
  rewrite filter_app, length_app.
  destruct (decide (c = k)) as [->|Hne].
  - rewrite filter_cons_True by done. simpl.
    rewrite (filter_none _ (columns df)); [done|]. by intros k' Hin ->.
  - rewrite filter_cons_False by done. simpl. by rewrite Nat.add_0_r.
Qed.

Lemma outcome_columns_repeated df k :
  repeated (columns (outcome_columns df)) k = repeated (columns df) k.
Proof. unfold outcome_columns. by rewrite !set_column_repeated. Qed.

Lemma outcome_columns_wf df : wf_frame df → wf_frame (outcome_columns df).
Proof. intros H. by do 2 apply set_column_wf. Qed.

Lemma outcome_columns_str df : str_frame df → str_frame (outcome_columns df).
Proof. intros H. by do 2 apply set_column_str. Qed.

Lemma outcome_columns_length df : length (rows (outcome_columns df)) = length (rows df).
Proof. unfold outcome_columns. by rewrite !set_column_length. Qed.

(** The rows of the frame with the two outcome columns read the empty
    string under both and are otherwise the rows of the frame. *)
Lemma outcome_columns_lookup df idx r' :
  wf_frame df →
  rows (outcome_columns df) !! idx = Some r' →
  ∃ r, rows df !! idx = Some r
       ∧ lookup_col (columns (outcome_columns df)) r' "assignment status" = Some (Str "")
       ∧ lookup_col (columns (outcome_columns df)) r' "error message" = Some (Str "")
       ∧ ∀ k, k ≠ "assignment status" → k ≠ "error message" →
           lookup_col (columns (outcome_columns df)) r' k = lookup_col (columns df) r k.
Proof.
  intros Hwf Hr'. unfold outcome_columns in *.
  apply set_column_lookup in Hr' as (r1 & Hr1 & He & Ho); [|by apply set_column_wf].
  apply set_column_lookup in Hr1 as (r & Hr & Hs & Ho'); [|done].
  exists r. split_and!; try done.
  - by rewrite Ho.
  - intros k H1 H2. by rewrite Ho, Ho'.
Qed.

End Frames.

(** ** Assignment executor *)

Section Executor.

Context (w : World) (site_id : string) (inv_map : gmap string InvItem).

Lemma assign_calls_snoc t mac : assign_calls (t ++ [EvAssign site_id mac]) = S (assign_calls t).
Proof. unfold assign_calls. rewrite filter_app, length_app. simpl. lia. Qed.

Lemma answers_lookup k macs j :
  answers w site_id k macs !! j = (fun mac => w_assign w (k + j) site_id mac) <$> macs !! j.
Proof.
  revert k j; induction macs as [|mac macs IH]; intros k [|j]; simpl; try done.
  - by rewrite Nat.add_0_r.
  - rewrite IH. by replace (S k + j) with (k + S j) by lia.
Qed.

Lemma answers_length k macs : length (answers w site_id k macs) = length macs.
Proof. revert k; induction macs as [|mac macs IH]; intros k; simpl; [done|]. by rewrite IH. Qed.

Lemma count_accepted_refused l : count_accepted l + count_refused l = length l.
Proof.
  unfold count_accepted, count_refused.
  induction l as [|[e|] l IH]; simpl; lia.
Qed.

(** What one outcome does to the frame and to the counters. *)
Lemma record_outcome_spec a idx df ok bad :
  ∃ df', record_outcome a idx (df, ok, bad)
         = (df', ok + (if accepted a then 1 else 0), bad + (if accepted a then 0 else 1))
         ∧ columns df' = columns df
         ∧ rows df' = alter (outcome_row (columns df) a) idx (rows df).
Proof.
  destruct a as [e|]; simpl; rewrite Nat.add_0_r, Nat.add_1_r; eexists;
    (split; [reflexivity|split; [done|]]).
  - unfold set_at at 1. simpl. by rewrite alter_alter.
  - done.
Qed.

(** One iteration: the lookups, then the remote call, then the outcome. *)
Lemma assign_row_eq idx r st t :
  assign_row w site_id inv_map idx r st t
  = match resolve (columns st.1.1) inv_map r with
    | Ok mac =>
        (Ok (record_outcome (w_assign w (assign_calls t) site_id mac) idx st),
         t ++ [EvAssign site_id mac])
    | Raise e => (Raise e, t)
    end.
Proof.
  destruct st as [[df ok] bad]. unfold assign_row, resolve. simpl.
  unfold mbind, M_bind, result_bind, lift, assign_inventory.
  destruct (getitem_strip (columns df) r "serial number") as [serial|]; [|done].
  destruct (getitem_inv inv_map serial) as [inv|]; [|done].
  destruct (mac_source inv (columns df) r) as [m|]; [|done].
  by destruct (w_assign w (assign_calls t) site_id (normalize_mac m)).
Qed.

(** The loop, on rows that all resolve to a MAC: one assign call per row
    in row order, and the outcome of the [j]-th row written on that row
    and on no other. *)
Lemma assign_loop_spec rs : ∀ idx df ok bad t macs,
  Forall2 (fun r mac => resolve (columns df) inv_map r = Ok mac) rs macs →
  ∃ df',
    assign_loop w site_id inv_map idx rs (df, ok, bad) t
    = (Ok (df', ok + count_accepted (answers w site_id (assign_calls t) macs),
                bad + count_refused (answers w site_id (assign_calls t) macs)),
       t ++ map (EvAssign site_id) macs)
    ∧ columns df' = columns df
    ∧ length (rows df') = length (rows df)
    ∧ (∀ j, j < idx → rows df' !! j = rows df !! j)
    ∧ (∀ j, idx + length rs ≤ j → rows df' !! j = rows df !! j)
    ∧ (∀ j a, answers w site_id (assign_calls t) macs !! j = Some a →
         rows df' !! (idx + j) = outcome_row (columns df) a <$> rows df !! (idx + j)).
Proof.
  induction rs as [|r rs IH]; intros idx df ok bad t macs Hres.
  - apply Forall2_nil_inv_l in Hres as ->. exists df. simpl.
    unfold count_accepted, count_refused. simpl.
    rewrite !Nat.add_0_r, app_nil_r. split_and!; try done.
  - apply Forall2_cons_inv_l in Hres as (mac & macs' & Hmac & Hres & ->).
    cbn [assign_loop]. unfold mbind at 1, M_bind at 1.
    rewrite assign_row_eq. cbn [fst]. rewrite Hmac.
    set (a0 := w_assign w (assign_calls t) site_id mac).
    destruct (record_outcome_spec a0 idx df ok bad) as (df1 & -> & Hc1 & Hr1).
    rewrite <- Hc1 in Hres.
    destruct (IH (S idx) df1 (ok + (if accepted a0 then 1 else 0))
                (bad + (if accepted a0 then 0 else 1))
                (t ++ [EvAssign site_id mac]) macs' Hres)
      as (df' & -> & Hc & Hl & Hlt & Hge & Hat).
    exists df'. rewrite assign_calls_snoc in *. split_and!.
    + cbn [answers map]. unfold count_accepted, count_refused. cbn [List.filter].
      rewrite <- app_assoc. simpl.
      fold a0. destruct (accepted a0); simpl;
        match goal with
        | |- (Ok (_, ?a, ?b), _) = (Ok (_, ?a', ?b'), _) =>
            replace a with a' by lia; replace b with b' by lia
        end; done.
    + congruence.
    + by rewrite Hl, Hr1, length_alter.
    + intros j Hj. rewrite Hlt, Hr1 by lia. apply list_lookup_alter_ne. lia.
    + intros j Hj. simpl in Hj. rewrite Hge, Hr1 by lia. apply list_lookup_alter_ne. lia.
    + intros [|j] a Ha; simpl in Ha.
      * injection Ha as <-. rewrite Nat.add_0_r, Hlt, Hr1 by lia.
        by rewrite list_lookup_alter_eq.
      * replace (idx + S j) with (S idx + j) by lia.
        rewrite (Hat j a Ha), Hr1, Hc1. by rewrite list_lookup_alter_ne by lia.
Qed.

End Executor.

(** ** From the gate to the executor *)

Section Gate.

Context (inv_map : gmap string InvItem).

Lemma validate_row_extends cols idx r issues l :
  validate_row cols inv_map idx r issues = Ok l → ∃ l', l = issues ++ l'.
Proof.
  unfold validate_row.
  destruct (get_or_empty cols r "serial number") as [s|]; [|done]. cbn [mbind result_bind].
  destruct (negb (Py.truthy (Py.strip s))); [intros [= <-]; eauto|].
  case_decide; [intros [= <-]; eauto|].
  destruct (get_or_empty cols r "mac address") as [m|]; [|done]. cbn [mbind result_bind].
  destruct (_ && _); intros [= <-]; eauto. exists []. by rewrite app_nil_r.
Qed.

Lemma validate_loop_extends cols idx rs issues l :
  validate_loop cols inv_map idx rs issues = Ok l → ∃ l', l = issues ++ l'.
Proof.
  revert idx issues; induction rs as [|r rs IH]; intros idx issues; simpl.
  - intros [= <-]. exists []. by rewrite app_nil_r.
  - destruct (validate_row cols inv_map idx r issues) as [i1|] eqn:E1; [|done].
    cbn [mbind result_bind]. intros (l2 & ->)%IH.
    apply validate_row_extends in E1 as (l1 & ->). exists (l1 ++ l2). by rewrite app_assoc.
Qed.

(** A row that adds no issue has a non-blank serial that is a key of the
    snapshot, and a MAC cell that is a string or absent. *)
Lemma validate_row_clean cols idx r issues :
  validate_row cols inv_map idx r issues = Ok issues →
  ∃ s inv, repeated cols "serial number" = false
           ∧ lookup_col cols r "serial number" = Some (Str s)
           ∧ Py.strip s ≠ ""
           ∧ inv_map !! Py.strip s = Some inv
           ∧ ∃ m, get_or_empty cols r "mac address" = Ok m.
Proof.
  assert (Hgrow : ∀ i : RowIssue, Ok (issues ++ [i]) = Ok issues → False).
  { intros i [= H]. rewrite <- (app_nil_r issues) in H at 2.
    by apply app_inv_head in H. }
  unfold validate_row.
  destruct (get_or_empty cols r "serial number") as [s|] eqn:Eg; [|done].
  cbn [mbind result_bind].
  destruct (Py.truthy (Py.strip s)) eqn:Et; simpl; [|by intros ?%Hgrow].
  destruct (decide (inv_map !! Py.strip s = None)) as [Hn|Hn]; [by intros ?%Hgrow|].
  destruct (inv_map !! Py.strip s) as [inv|] eqn:Ei; [|done].
  destruct (get_or_empty cols r "mac address") as [m|]; [|done].
  intros _. exists s, inv. unfold get_or_empty in Eg.
  destruct (repeated cols "serial number"); [done|].
  split_and!; eauto; [|by apply truthy_true].
  destruct (lookup_col cols r "serial number") as [[|s']|]; try done.
  - rewrite or_else_self in Eg. congruence.
  - injection Eg as <-. done.
Qed.

Lemma validate_loop_clean cols idx rs :
  validate_loop cols inv_map idx rs [] = Ok [] →
  Forall (fun r => validate_row cols inv_map idx r [] = Ok []
                   ∨ ∃ idx', validate_row cols inv_map idx' r [] = Ok []) rs.
Proof.
  revert idx; induction rs as [|r rs IH]; intros idx; simpl; [constructor|].
  destruct (validate_row cols inv_map idx r []) as [i1|] eqn:E1; [|done].
  cbn [mbind result_bind]. intros H.
  destruct (validate_loop_extends _ _ _ _ _ H) as (l' & Hl).
  symmetry in Hl. apply app_eq_nil in Hl as [-> ->].
  constructor; [eauto|].
  eapply Forall_impl; [apply (IH _ H)|]. intros r' [Hr'|Hr']; eauto.
Qed.

Lemma clean_row_resolves cols idx r :
  validate_row cols inv_map idx r [] = Ok [] →
  ∃ serial inv mac,
    getitem_strip cols r "serial number" = Ok serial
    ∧ serial ≠ ""
    ∧ inv_map !! serial = Some inv
    ∧ getitem_inv inv_map serial = Ok inv
    ∧ resolve cols inv_map r = Ok mac.
Proof.
  intros (s & inv & Hrep & Hl & Hne & Hi & m & Hm)%validate_row_clean.
  assert (Hmac : ∃ m', mac_source inv cols r = Ok m').
  { unfold mac_source. destruct (inv_mac inv) as [s'|]; [|eauto].
    destruct (Py.truthy s'); eauto. }
  destruct Hmac as [m' Hm'].
  exists (Py.strip s), inv, (normalize_mac m').
  unfold resolve, getitem_strip, getitem_inv. rewrite Hrep, Hl. cbn [mbind result_bind].
  rewrite Hi. cbn [mbind result_bind]. rewrite Hm'. done.
Qed.

(** When the row validator returns no issue, every row resolves. *)
Lemma gate_rows_resolve df :
  _validate_rows df inv_map = Ok [] →
  Forall (fun r => ∃ serial inv mac,
            getitem_strip (columns df) r "serial number" = Ok serial
            ∧ serial ≠ ""
            ∧ inv_map !! serial = Some inv
            ∧ getitem_inv inv_map serial = Ok inv
            ∧ resolve (columns df) inv_map r = Ok mac) (rows df).
Proof.
  intros H%validate_loop_clean. eapply Forall_impl; [exact H|].
  intros r [Hr|[idx' Hr]]; by eapply clean_row_resolves.
Qed.

Lemma Forall_resolve_macs cols rs :
  Forall (fun r => ∃ mac, resolve cols inv_map r = Ok mac) rs →
  ∃ macs, Forall2 (fun r mac => resolve cols inv_map r = Ok mac) rs macs.
Proof.
  induction 1 as [|r rs [mac Hmac] _ [macs IH]]; [by exists []|].
  exists (mac :: macs). by constructor.
Qed.

(** Validation and resolution only read the serial and the MAC cells. *)
Lemma validate_row_ext cols cols' idx r r' issues :
  (∀ c, repeated cols' c = repeated cols c) →
  lookup_col cols' r' "serial number" = lookup_col cols r "serial number" →
  lookup_col cols' r' "mac address" = lookup_col cols r "mac address" →
  validate_row cols' inv_map idx r' issues = validate_row cols inv_map idx r issues.
Proof.
  intros H0 H1 H2. unfold validate_row, get_or_empty, cell_text. by rewrite !H0, H1, H2.
Qed.

Lemma resolve_ext cols cols' r r' :
  (∀ c, repeated cols' c = repeated cols c) →
  lookup_col cols' r' "serial number" = lookup_col cols r "serial number" →
  lookup_col cols' r' "mac address" = lookup_col cols r "mac address" →
  resolve cols' inv_map r' = resolve cols inv_map r
  ∧ getitem_strip cols' r' "serial number" = getitem_strip cols r "serial number".
Proof.
  intros H0 H1 H2. unfold resolve, getitem_strip, mac_source, get_or_empty.
  by rewrite !H0, H1, H2.
Qed.

Lemma validate_loop_ext cols cols' idx rs rs' issues :
  (∀ c, repeated cols' c = repeated cols c) →
  Forall2 (fun r r' =>
             lookup_col cols' r' "serial number" = lookup_col cols r "serial number"
             ∧ lookup_col cols' r' "mac address" = lookup_col cols r "mac address") rs rs' →
  validate_loop cols' inv_map idx rs' issues = validate_loop cols inv_map idx rs issues.
Proof.
  intros H0 H. revert idx issues; induction H as [|r r' rs rs' [H1 H2] _ IH];
    intros idx issues; simpl; [done|].
  rewrite (validate_row_ext cols cols' idx r r') by done.
  destruct (validate_row cols inv_map idx r issues); [|done]. apply IH.
Qed.

(** The two outcome columns do not change what the row validator
    returns: the gate of [process_file], taken after they are added, and
    the gate of the CLI, taken before, agree. *)
Lemma validate_rows_outcome_columns df :
  wf_frame df →
  _validate_rows (outcome_columns df) inv_map = _validate_rows df inv_map.
Proof.
  intros Hwf. unfold _validate_rows. apply validate_loop_ext.
  { apply outcome_columns_repeated. }
  apply Forall2_same_length_lookup. split; [by rewrite outcome_columns_length|].
  intros idx r r' Hr Hr'.
  apply outcome_columns_lookup in Hr' as (r0 & Hr0 & _ & _ & Ho); [|done].
  assert (r0 = r) as -> by congruence. split; by apply Ho.
Qed.

End Gate.

Section LookupSafety.

Lemma outcome_columns_resolve inv_map df idx r' :
  wf_frame df →
  rows (outcome_columns df) !! idx = Some r' →
  ∃ r, rows df !! idx = Some r
       ∧ resolve (columns (outcome_columns df)) inv_map r' = resolve (columns df) inv_map r
       ∧ getitem_strip (columns (outcome_columns df)) r' "serial number"
         = getitem_strip (columns df) r "serial number".
Proof.
  intros Hwf (r & Hr & _ & _ & Ho)%outcome_columns_lookup; [|done].
  exists r. split; [done|].
  apply resolve_ext; [apply outcome_columns_repeated|by apply Ho..].
Qed.

(** C5. When the row validator has returned the empty issue list for a
    frame and a snapshot, then for every row of the frame the executor's
    [row["serial number"].strip()] gives a non-empty serial and
    [inv_map[serial]] finds its record; the same holds for the rows the
    CLI executes, after it has added the two outcome columns; and the
    assignment loop runs to its end without raising. *)
Theorem C5_lookup_safe (df : DataFrame) (inv_map : gmap string InvItem) :
  _validate_rows df inv_map = Ok [] →
  (∀ idx r, rows df !! idx = Some r →
     ∃ serial inv,
       getitem_strip (columns df) r "serial number" = Ok serial
       ∧ serial ≠ ""
       ∧ getitem_inv inv_map serial = Ok inv)
  ∧ (wf_frame df →
     ∀ idx r, rows (outcome_columns df) !! idx = Some r →
       ∃ serial inv,
         getitem_strip (columns (outcome_columns df)) r "serial number" = Ok serial
         ∧ serial ≠ ""
         ∧ getitem_inv inv_map serial = Ok inv)
  ∧ (∀ w site_id, ∃ st t,
       run (assign_loop w site_id inv_map 0 (rows df) (df, 0, 0)) = (Ok st, t)).
Proof.
  intros Hgate. pose proof (gate_rows_resolve inv_map df Hgate) as Hall.
  split_and!.
  - intros idx r Hr.
    destruct (Forall_lookup_1 _ _ _ _ Hall Hr) as (serial & inv & mac & H1 & H2 & _ & H3 & _).
    eauto.
  - intros Hwf idx r' Hr'.
    destruct (outcome_columns_resolve inv_map df idx r' Hwf Hr') as (r & Hr & _ & ->).
    destruct (Forall_lookup_1 _ _ _ _ Hall Hr) as (serial & inv & mac & H1 & H2 & _ & H3 & _).
    eauto.
  - intros w site_id.
    destruct (Forall_resolve_macs inv_map (columns df) (rows df)) as [macs Hmacs].
    { eapply Forall_impl; [exact Hall|]. intros r (? & ? & mac & ? & ? & ? & ? & ?). eauto. }
    destruct (assign_loop_spec w site_id inv_map (rows df) 0 df 0 0 [] macs Hmacs)
      as (df' & Heq & _).
    unfold run. rewrite Heq. eauto.
Qed.

(** The theorem on [demo_input], which passes validation. *)
Lemma C5_lookup_safe_witness :
  (∀ idx r, rows (_normalize_dataframe demo_input) !! idx = Some r →
     ∃ serial inv,
       getitem_strip (columns (_normalize_dataframe demo_input)) r "serial number" = Ok serial
       ∧ serial ≠ ""
       ∧ getitem_inv (build_inv_map demo_inventory) serial = Ok inv)
  ∧ (wf_frame (_normalize_dataframe demo_input) →
     ∀ idx r, rows (outcome_columns (_normalize_dataframe demo_input)) !! idx = Some r →
       ∃ serial inv,
         getitem_strip (columns (outcome_columns (_normalize_dataframe demo_input))) r
           "serial number" = Ok serial
         ∧ serial ≠ ""
         ∧ getitem_inv (build_inv_map demo_inventory) serial = Ok inv)
  ∧ (∀ w site_id, ∃ st t,
       run (assign_loop w site_id (build_inv_map demo_inventory) 0
              (rows (_normalize_dataframe demo_input))
              (_normalize_dataframe demo_input, 0, 0)) = (Ok st, t)).
Proof.
  apply (C5_lookup_safe (_normalize_dataframe demo_input) (build_inv_map demo_inventory)).
  vm_compute. reflexivity.
Defined.

End LookupSafety.

(** ** The pipeline, stage by stage *)

Section Pipeline.

Lemma nonempty_true {A} (l : list A) : nonempty l = true ↔ l ≠ [].
Proof. by destruct l. Qed.

Lemma nonempty_false {A} (l : list A) : nonempty l = false ↔ l = [].
Proof. by destruct l. Qed.

(** [process_file] unfolded into its stages. *)
Lemma process_file_eq site_id w :
  run (Core.process_file site_id w)
  = match w_input w with
    | Raise e => (Raise e, [])
    | Ok df0 =>
        let df := _normalize_dataframe df0 in
        let missing := _validate_headers df in
        if nonempty missing then
          (Raise (ValidationError [header_issue missing] "Missing required columns"), [])
        else
          match w_inventory w with
          | Raise e => (Raise e, [EvGetInventory])
          | Ok inventory =>
              let inv_map := build_inv_map inventory in
              match _validate_rows (outcome_columns df) inv_map with
              | Raise e => (Raise e, [EvGetInventory])
              | Ok issues =>
                  if nonempty issues then
                    (Raise (ValidationError issues "One or more rows are invalid"),
                     [EvGetInventory])
                  else
                    match assign_loop w site_id inv_map 0 (rows (outcome_columns df))
                            (outcome_columns df, 0, 0) [EvGetInventory] with
                    | (Ok (df', ok, bad), t) =>
                        (Ok (df', mkSummary ok bad (ok + bad)), t ++ [EvWriteCsv df'])
                    | (Raise e, t) => (Raise e, t)
                    end
              end
          end
    end.
Proof.
  unfold run, Core.process_file, mbind, M_bind, lift, raise, get_inventory.
  destruct (w_input w) as [df0|]; [|done]. cbv zeta.
  destruct (nonempty (_validate_headers (_normalize_dataframe df0))); [done|].
  simpl. destruct (w_inventory w) as [inventory|]; [|done].
  fold (outcome_columns (_normalize_dataframe df0)).
  destruct (_validate_rows _ _) as [issues|]; [|done].
  destruct (nonempty issues); [done|].
  destruct (assign_loop _ _ _ _ _ _ _) as [[[[df' ok] bad]|] t]; done.
Qed.

(** [main] unfolded into its stages. *)
Lemma main_eq w :
  run (Cli.main w)
  = match w_input w with
    | Raise e => (Raise e, [])
    | Ok df0 =>
        let df := _normalize_dataframe df0 in
        let missing := _validate_headers df in
        if nonempty missing then
          (Raise (SystemExit 2),
           [EvWriteCsv (Cli.create_validation_report (iloc_empty df) [header_issue missing])])
        else
          match w_sites w with
          | Raise _ => (Raise (SystemExit 1), [EvGetSites])
          | Ok site_id =>
              match w_inventory w with
              | Raise _ => (Raise (SystemExit 1), [EvGetSites; EvGetInventory])
              | Ok inventory =>
                  let inv_map := build_inv_map inventory in
                  match _validate_rows df inv_map with
                  | Raise e => (Raise e, [EvGetSites; EvGetInventory])
                  | Ok issues =>
                      if nonempty issues then
                        (Raise (SystemExit 2),
                         [EvGetSites; EvGetInventory;
                          EvWriteCsv (Cli.create_validation_report df issues)])
                      else
                        match assign_loop w site_id inv_map 0 (rows (outcome_columns df))
                                (outcome_columns df, 0, 0) [EvGetSites; EvGetInventory] with
                        | (Ok (df', ok, bad), t) =>
                            (Ok (df', ok, bad), t ++ [EvWriteCsv df'])
                        | (Raise e, t) => (Raise e, t)
                        end
                  end
              end
          end
    end.
Proof.
  unfold run, Cli.main, mbind, M_bind, lift, raise, emit, Cli.get_inventory, Cli.get_sites,
    Cli.normalize_dataframe, Cli.validate_headers, Cli.validate_rows.
  destruct (w_input w) as [df0|]; [|done]. cbv zeta.
  destruct (nonempty (_validate_headers (_normalize_dataframe df0))); [done|].
  simpl. destruct (w_sites w) as [site_id|]; [|done].
  destruct (w_inventory w) as [inventory|]; [|done].
  destruct (_validate_rows _ _) as [issues|]; [|done].
  destruct (nonempty issues); [done|].
  fold (outcome_columns (_normalize_dataframe df0)).
  destruct (assign_loop _ _ _ _ _ _ _) as [[[[df' ok] bad]|] t]; done.
Qed.

End Pipeline.

(** ** The schema gate and the all-or-none gate *)

Section Gates.

(** C7. When the normalised header lacks a required column, [process_file]
    raises the validation error carrying exactly one issue, with row 0,
    field "headers" and as value the missing column names joined with a
    comma, and its trace is empty: neither the inventory nor anything else
    has been asked from the remote service.  The CLI writes the report
    built from that one issue and exits with code 2, again without any
    remote call. *)
Theorem C7_schema_gate (w : World) (site_id : string) (df0 : DataFrame) :
  w_input w = Ok df0 →
  _validate_headers (_normalize_dataframe df0) ≠ [] →
  let missing := _validate_headers (_normalize_dataframe df0) in
  let issue := mkRowIssue 0 "headers" (Py.join ", " missing) "Missing required column(s)" in
  (∀ c, c ∈ missing ↔ c ∈ REQUIRED_COLUMNS ∧ c ∉ columns (_normalize_dataframe df0))
  ∧ run (Core.process_file site_id w)
    = (Raise (ValidationError [issue] "Missing required columns"), [])
  ∧ run (Cli.main w)
    = (Raise (SystemExit 2),
       [EvWriteCsv (Cli.create_validation_report
                      (iloc_empty (_normalize_dataframe df0)) [issue])])
  ∧ remote_calls (run (Core.process_file site_id w)).2 = []
  ∧ remote_calls (run (Cli.main w)).2 = [].
Proof.
  intros Hin Hmiss missing issue.
  apply nonempty_true in Hmiss.
  assert (Hcore : run (Core.process_file site_id w)
                  = (Raise (ValidationError [issue] "Missing required columns"), [])).
  { rewrite process_file_eq, Hin. cbv zeta. by rewrite Hmiss. }
  assert (Hcli : run (Cli.main w)
                 = (Raise (SystemExit 2),
                    [EvWriteCsv (Cli.create_validation_report
                                   (iloc_empty (_normalize_dataframe df0)) [issue])])).
  { rewrite main_eq, Hin. cbv zeta. by rewrite Hmiss. }
  split_and!; [|done|done|by rewrite Hcore|by rewrite Hcli].
  intros c. unfold missing, _validate_headers. rewrite list_elem_of_filter. tauto.
Qed.

(** The theorem on [demo_bad_header]. *)
Lemma C7_schema_gate_witness :
  let missing := _validate_headers (_normalize_dataframe demo_bad_header) in
  let issue := mkRowIssue 0 "headers" (Py.join ", " missing) "Missing required column(s)" in
  (∀ c, c ∈ missing
        ↔ c ∈ REQUIRED_COLUMNS ∧ c ∉ columns (_normalize_dataframe demo_bad_header))
  ∧ run (Core.process_file "site-1" (demo_world demo_bad_header))
    = (Raise (ValidationError [issue] "Missing required columns"), [])
  ∧ run (Cli.main (demo_world demo_bad_header))
    = (Raise (SystemExit 2),
       [EvWriteCsv (Cli.create_validation_report
                      (iloc_empty (_normalize_dataframe demo_bad_header)) [issue])])
  ∧ remote_calls (run (Core.process_file "site-1" (demo_world demo_bad_header))).2 = []
  ∧ remote_calls (run (Cli.main (demo_world demo_bad_header))).2 = [].
Proof.
  apply (C7_schema_gate (demo_world demo_bad_header) "site-1" demo_bad_header).
  - reflexivity.
  - vm_compute. discriminate.
Defined.

(** The missing-column case of the specification: without "WAP Hostname"
    the one issue names "wap hostname". *)
Example missing_wap_hostname :
  run (Core.process_file "site-1" (demo_world demo_bad_header))
  = (Raise (ValidationError
              [mkRowIssue 0 "headers" "wap hostname" "Missing required column(s)"]
              "Missing required columns"), []).
Proof. vm_compute. reflexivity. Qed.

Lemma combined_issues_header df0 inventory :
  _validate_headers (_normalize_dataframe df0) ≠ [] →
  combined_issues df0 inventory
  = Ok [header_issue (_validate_headers (_normalize_dataframe df0))].
Proof. intros H%nonempty_true. unfold combined_issues. by rewrite H. Qed.

Lemma combined_issues_rows df0 inventory :
  _validate_headers (_normalize_dataframe df0) = [] →
  combined_issues df0 inventory
  = _validate_rows (_normalize_dataframe df0) (build_inv_map inventory).
Proof. intros H%nonempty_false. unfold combined_issues. by rewrite H. Qed.

(** C1. When the issue list of the schema validator and the row validator
    is not empty, [process_file] raises the validation error that carries
    that list, the CLI writes the report built from that list and exits
    with code 2, and in both runs the trace holds no assign call.
    Conversely a run of [process_file] whose trace holds an assign call
    has passed both validators with no issue. *)
Theorem C1_all_or_none (w : World) (site_id : string) (df0 : DataFrame)
    (inventory : list InvItem) (issues : list RowIssue) :
  w_input w = Ok df0 →
  wf_frame df0 →
  w_inventory w = Ok inventory →
  w_sites w = Ok site_id →
  combined_issues df0 inventory = Ok issues →
  issues ≠ [] →
  (∃ msg t,
     run (Core.process_file site_id w) = (Raise (ValidationError issues msg), t)
     ∧ assign_calls t = 0)
  ∧ (∃ df_rep t,
       run (Cli.main w)
       = (Raise (SystemExit 2), t ++ [EvWriteCsv (Cli.create_validation_report df_rep issues)])
       ∧ assign_calls (t ++ [EvWriteCsv (Cli.create_validation_report df_rep issues)]) = 0)
  ∧ (∀ site' w' res t,
       run (Core.process_file site' w') = (res, t) →
       assign_calls t ≠ 0 →
       ∃ df0' inventory',
         w_input w' = Ok df0' ∧ w_inventory w' = Ok inventory'
         ∧ _validate_headers (_normalize_dataframe df0') = []
         ∧ _validate_rows (outcome_columns (_normalize_dataframe df0'))
             (build_inv_map inventory') = Ok []).
Proof.
  intros Hin Hwf Hinv Hsite Hcomb Hne.
  pose proof (normalize_wf df0 Hwf) as Hwf'.
  split_and!.
  - rewrite process_file_eq, Hin. cbv zeta.
    unfold combined_issues in Hcomb.
    destruct (nonempty (_validate_headers (_normalize_dataframe df0))) eqn:Eh.
    + injection Hcomb as <-. eauto.
    + rewrite Hinv, validate_rows_outcome_columns, Hcomb by done.
      apply nonempty_true in Hne. rewrite Hne. eauto.
  - rewrite main_eq, Hin. cbv zeta.
    unfold combined_issues in Hcomb.
    destruct (nonempty (_validate_headers (_normalize_dataframe df0))) eqn:Eh.
    + injection Hcomb as <-. by exists (iloc_empty (_normalize_dataframe df0)), [].
    + rewrite Hsite, Hinv, Hcomb.
      apply nonempty_true in Hne. rewrite Hne.
      by exists (_normalize_dataframe df0), [EvGetSites; EvGetInventory].
  - intros site' w' res t. rewrite process_file_eq.
    destruct (w_input w') as [df0'|]; [|by intros [= <- <-]]. cbv zeta.
    destruct (nonempty (_validate_headers (_normalize_dataframe df0'))) eqn:Eh;
      [by intros [= <- <-]|].
    destruct (w_inventory w') as [inventory'|]; [|by intros [= <- <-]].
    destruct (_validate_rows _ _) as [issues'|] eqn:Ev; [|by intros [= <- <-]].
    destruct (nonempty issues') eqn:Ei; [by intros [= <- <-]|].
    intros _ _. exists df0', inventory'. split_and!; try done.
    + by apply nonempty_false.
    + apply nonempty_false in Ei. by rewrite Ei in Ev.
Qed.

(** The theorem on [demo_bad_rows]: three issues, no assign call. *)
Lemma C1_all_or_none_witness :
  (∃ msg t,
     run (Core.process_file "site-1" (demo_world demo_bad_rows))
     = (Raise (ValidationError
                 [mkRowIssue 1 "mac address" "aa:bb:cc" "MAC Address format looks invalid";
                  mkRowIssue 2 "serial number" "xyz" "Serial not found in Mist org inventory";
                  mkRowIssue 3 "serial number" "" "Serial Number is blank"] msg), t)
     ∧ assign_calls t = 0)
  ∧ (∃ df_rep t,
       run (Cli.main (demo_world demo_bad_rows))
       = (Raise (SystemExit 2),
          t ++ [EvWriteCsv (Cli.create_validation_report df_rep
                  [mkRowIssue 1 "mac address" "aa:bb:cc" "MAC Address format looks invalid";
                   mkRowIssue 2 "serial number" "xyz" "Serial not found in Mist org inventory";
                   mkRowIssue 3 "serial number" "" "Serial Number is blank"])])
       ∧ assign_calls
           (t ++ [EvWriteCsv (Cli.create_validation_report df_rep
                    [mkRowIssue 1 "mac address" "aa:bb:cc" "MAC Address format looks invalid";
                     mkRowIssue 2 "serial number" "xyz" "Serial not found in Mist org inventory";
                     mkRowIssue 3 "serial number" "" "Serial Number is blank"])]) = 0)
  ∧ (∀ site' w' res t,
       run (Core.process_file site' w') = (res, t) →
       assign_calls t ≠ 0 →
       ∃ df0' inventory',
         w_input w' = Ok df0' ∧ w_inventory w' = Ok inventory'
         ∧ _validate_headers (_normalize_dataframe df0') = []
         ∧ _validate_rows (outcome_columns (_normalize_dataframe df0'))
             (build_inv_map inventory') = Ok []).
Proof.
  apply (C1_all_or_none (demo_world demo_bad_rows) "site-1" demo_bad_rows demo_inventory).
  - reflexivity.
  - repeat constructor.
  - reflexivity.
  - reflexivity.
  - vm_compute. reflexivity.
  - discriminate.
Defined.

End Gates.

(** ** Outcomes after a clean gate *)

Section Outcomes.

(** What a row reads after its outcome has been written. *)
Lemma outcome_row_lookup cols a r x :
  lookup_col cols r "assignment status" = Some x →
  lookup_col cols r "error message" = Some (Str "") →
  lookup_col cols (outcome_row cols a r) "assignment status"
  = Some (Str (if accepted a then "SUCCESS" else "FAILED"))
  ∧ lookup_col cols (outcome_row cols a r) "error message" = Some (Str (default "" a))
  ∧ ∀ k, k ≠ "assignment status" → k ≠ "error message" →
      lookup_col cols (outcome_row cols a r) k = lookup_col cols r k.
Proof.
  intros Hs He. destruct a as [e|]; simpl.
  - split_and!.
    + by rewrite lookup_col_map_col_ne, lookup_col_map_col, Hs.
    + by rewrite lookup_col_map_col, lookup_col_map_col_ne, He.
    + intros k H1 H2. by rewrite !lookup_col_map_col_ne.
  - split_and!.
    + by rewrite lookup_col_map_col, Hs.
    + by rewrite lookup_col_map_col_ne, He.
    + intros k H1 H2. by rewrite lookup_col_map_col_ne.
Qed.

(** C6. After a clean gate the run returns; there is one assign call per
    data row, in row order; the [j]-th row of the returned frame reads
    SUCCESS and an empty error message when the [j]-th call was accepted,
    FAILED and the error detail when it was refused, and is otherwise the
    [j]-th row of the input, whatever happened to the other calls; and
    the counts satisfy success + failed = total = number of data rows.
    The CLI run produces the same frame and the same two counts. *)
Theorem C6_row_outcomes (w : World) (site_id : string) (df0 : DataFrame)
    (inventory : list InvItem) :
  w_input w = Ok df0 →
  wf_frame df0 →
  w_inventory w = Ok inventory →
  w_sites w = Ok site_id →
  combined_issues df0 inventory = Ok [] →
  let df1 := outcome_columns (_normalize_dataframe df0) in
  ∃ df_out macs,
    let ans := answers w site_id 0 macs in
    run (Core.process_file site_id w)
    = (Ok (df_out, mkSummary (count_accepted ans) (count_refused ans)
                     (count_accepted ans + count_refused ans)),
       [EvGetInventory] ++ map (EvAssign site_id) macs ++ [EvWriteCsv df_out])
    ∧ run (Cli.main w)
      = (Ok (df_out, count_accepted ans, count_refused ans),
         [EvGetSites; EvGetInventory] ++ map (EvAssign site_id) macs ++ [EvWriteCsv df_out])
    ∧ length macs = length (rows df0)
    ∧ count_accepted ans + count_refused ans = length (rows df0)
    ∧ length (rows df_out) = length (rows df0)
    ∧ columns df_out = columns df1
    ∧ ∀ j r1, rows df1 !! j = Some r1 →
        ∃ a r_out,
          ans !! j = Some a
          ∧ rows df_out !! j = Some r_out
          ∧ lookup_col (columns df1) r_out "assignment status"
            = Some (Str (if accepted a then "SUCCESS" else "FAILED"))
          ∧ lookup_col (columns df1) r_out "error message" = Some (Str (default "" a))
          ∧ ∀ k, k ≠ "assignment status" → k ≠ "error message" →
              lookup_col (columns df1) r_out k = lookup_col (columns df1) r1 k.
Proof.
  intros Hin Hwf Hinv Hsite Hcomb df1.
  pose proof (normalize_wf df0 Hwf) as Hwf'.
  unfold combined_issues in Hcomb.
  destruct (nonempty (_validate_headers (_normalize_dataframe df0))) eqn:Eh; [done|].
  assert (Hgate : _validate_rows df1 (build_inv_map inventory) = Ok []).
  { unfold df1. by rewrite validate_rows_outcome_columns. }
  destruct (Forall_resolve_macs (build_inv_map inventory) (columns df1) (rows df1))
    as [macs Hmacs].
  { eapply Forall_impl; [exact (gate_rows_resolve _ _ Hgate)|].
    intros r (? & ? & mac & ? & ? & ? & ? & ?). eauto. }
  destruct (assign_loop_spec w site_id (build_inv_map inventory) (rows df1) 0 df1 0 0
              [EvGetInventory] macs Hmacs)
    as (df_out & Hcore & Hcols & Hlen & _ & _ & Hat).
  destruct (assign_loop_spec w site_id (build_inv_map inventory) (rows df1) 0 df1 0 0
              [EvGetSites; EvGetInventory] macs Hmacs)
    as (df_out' & Hcli & Hcols' & Hlen' & _ & _ & Hat').
  change (assign_calls [EvGetInventory]) with 0 in *.
  change (assign_calls [EvGetSites; EvGetInventory]) with 0 in *.
  assert (Hlm : length macs = length (rows df0)).
  { rewrite <- (Forall2_length _ _ _ Hmacs). unfold df1.
    by rewrite outcome_columns_length, normalize_length. }
  assert (Hsame : df_out' = df_out).
  { destruct df_out as [c1 rs1], df_out' as [c2 rs2]. simpl in *.
    f_equal; [congruence|].
    apply list_eq. intros j.
    destruct (answers w site_id 0 macs !! j) as [a|] eqn:Ea.
    - by rewrite (Hat j a Ea), (Hat' j a Ea).
    - apply lookup_ge_None in Ea. rewrite answers_length in Ea.
      assert (Hl1 : length (rows df1) = length (rows df0)).
      { unfold df1. by rewrite outcome_columns_length, normalize_length. }
      rewrite !(proj2 (lookup_ge_None _ _)); [done|lia..]. }
  subst df_out'.
  exists df_out, macs. cbv zeta. split_and!.
  - rewrite process_file_eq, Hin. cbv zeta. rewrite Eh, Hinv.
    fold df1. rewrite Hgate. cbn [nonempty]. rewrite Hcore.
    by rewrite <- app_assoc.
  - rewrite main_eq, Hin. cbv zeta. rewrite Eh, Hsite, Hinv, Hcomb. cbn [nonempty].
    fold df1. rewrite Hcli. by rewrite <- app_assoc.
  - done.
  - by rewrite count_accepted_refused, answers_length.
  - rewrite Hlen. unfold df1. by rewrite outcome_columns_length, normalize_length.
  - done.
  - intros j r1 Hr1.
    destruct (answers w site_id 0 macs !! j) as [a|] eqn:Ea.
    2:{ apply lookup_ge_None in Ea. rewrite answers_length, Hlm in Ea.
        apply lookup_lt_Some in Hr1. unfold df1 in Hr1.
        rewrite outcome_columns_length, normalize_length in Hr1. lia. }
    exists a, (outcome_row (columns df1) a r1).
    pose proof (Hat j a Ea) as Hj. simpl in Hj. rewrite Hr1 in Hj. simpl in Hj.
    destruct (outcome_columns_lookup _ _ _ Hwf' Hr1) as (r & _ & Hs & He & _).
    destruct (outcome_row_lookup (columns df1) a r1 _ Hs He) as (H1 & H2 & H3).
    split_and!; done.
Qed.

(** The theorem on [demo_input], where the second call is refused. *)
Lemma C6_row_outcomes_witness :
  let df1 := outcome_columns (_normalize_dataframe demo_input) in
  ∃ df_out macs,
    let ans := answers (demo_world demo_input) "site-1" 0 macs in
    run (Core.process_file "site-1" (demo_world demo_input))
    = (Ok (df_out, mkSummary (count_accepted ans) (count_refused ans)
                     (count_accepted ans + count_refused ans)),
       [EvGetInventory] ++ map (EvAssign "site-1") macs ++ [EvWriteCsv df_out])
    ∧ run (Cli.main (demo_world demo_input))
      = (Ok (df_out, count_accepted ans, count_refused ans),
         [EvGetSites; EvGetInventory] ++ map (EvAssign "site-1") macs ++ [EvWriteCsv df_out])
    ∧ length macs = length (rows demo_input)
    ∧ count_accepted ans + count_refused ans = length (rows demo_input)
    ∧ length (rows df_out) = length (rows demo_input)
    ∧ columns df_out = columns df1
    ∧ ∀ j r1, rows df1 !! j = Some r1 →
        ∃ a r_out,
          ans !! j = Some a
          ∧ rows df_out !! j = Some r_out
          ∧ lookup_col (columns df1) r_out "assignment status"
            = Some (Str (if accepted a then "SUCCESS" else "FAILED"))
          ∧ lookup_col (columns df1) r_out "error message" = Some (Str (default "" a))
          ∧ ∀ k, k ≠ "assignment status" → k ≠ "error message" →
              lookup_col (columns df1) r_out k = lookup_col (columns df1) r1 k.
Proof.
  apply (C6_row_outcomes (demo_world demo_input) "site-1" demo_input demo_inventory).
  - reflexivity.
  - repeat constructor.
  - reflexivity.
  - reflexivity.
  - vm_compute. reflexivity.
Defined.

(** The partial-failure case of the specification: two valid rows, the
    second assign call refused. *)
Example partial_remote_failure :
  ∃ t, run (Core.process_file "site-1" (demo_world demo_input))
       = (Ok (mkDataFrame
                ["floor #"; "wap hostname"; "serial number"; "mac address";
                 "assignment status"; "error message"]
                [[Str "1"; Str "ap1"; Str "ABC999"; Str "AA-BB-cc-dd-ee-ff";
                  Str "SUCCESS"; Str ""];
                 [Str "2"; Str ""; Str "XYZ"; Str "";
                  Str "FAILED"; Str "400 Client Error"]],
              mkSummary 1 1 2), t)
       ∧ assign_calls t = 2.
Proof. eexists. split; vm_compute; reflexivity. Qed.

End Outcomes.

(** ** Validation reports *)

Section Reports.

(** The grouping loop: under a key, the issues with that key in their
    order of arrival. *)
Lemma group_lookup_acc (key : RowIssue → Z) issues (m : gmap Z (list RowIssue)) k :
  foldl (fun m i => setdefault_append m (key i) i) m issues !! k
  = match filter (fun i => key i = k) issues with
    | [] => m !! k
    | l => Some (default [] (m !! k) ++ l)
    end.
Proof.
  revert m; induction issues as [|i issues IH]; intros m; simpl; [done|].
  rewrite IH. unfold setdefault_append.
  destruct (decide (key i = k)) as [<-|Hne].
  - rewrite filter_cons_True by done. rewrite lookup_insert_eq. simpl.
    destruct (filter _ issues); by rewrite <- ?app_assoc.
  - rewrite filter_cons_False by done. by rewrite lookup_insert_ne.
Qed.

Lemma group_lookup (key : RowIssue → Z) issues k :
  foldl (fun m i => setdefault_append m (key i) i) ∅ issues !! k
  = match filter (fun i => key i = k) issues with
    | [] => None
    | l => Some l
    end.
Proof. rewrite group_lookup_acc, lookup_empty. by destruct (filter _ issues). Qed.

Lemma annotate_length by_row rep idx :
  length (rows (annotate by_row rep idx)) = length (rows rep).
Proof.
  unfold annotate. destruct (by_row !! _); [|done]. simpl. by rewrite !length_alter.
Qed.

Lemma annotate_loop_length by_row idxs : ∀ rep,
  length (rows (foldl (annotate by_row) rep idxs)) = length (rows rep).
Proof.
  induction idxs as [|idx idxs IH]; intros rep; simpl; [done|].
  by rewrite IH, annotate_length.
Qed.

(** The loop over the rows only reads the groups of the positive row
    numbers. *)
Lemma annotate_loop_ext (m1 m2 : gmap Z (list RowIssue)) idxs : ∀ rep,
  (∀ k, (0 < k)%Z → m1 !! k = m2 !! k) →
  foldl (annotate m1) rep idxs = foldl (annotate m2) rep idxs.
Proof.
  induction idxs as [|idx idxs IH]; intros rep H; simpl; [done|].
  rewrite IH by done. f_equal. unfold annotate. by rewrite H by lia.
Qed.

Lemma annotate_loop_none (m : gmap Z (list RowIssue)) idxs : ∀ rep,
  (∀ k, (0 < k)%Z → m !! k = None) → foldl (annotate m) rep idxs = rep.
Proof.
  induction idxs as [|idx idxs IH]; intros rep H; simpl; [done|].
  rewrite IH by done. unfold annotate. by rewrite H by lia.
Qed.

Lemma issue_columns_length df : length (rows (issue_columns df)) = length (rows df).
Proof. unfold issue_columns. by rewrite !set_column_length. Qed.

(** The rows of a frame with the three issue columns read the empty
    string under each of them. *)
Lemma issue_columns_lookup df idx r' :
  wf_frame df →
  rows (issue_columns df) !! idx = Some r' →
  lookup_col (columns (issue_columns df)) r' "issue" = Some (Str "")
  ∧ lookup_col (columns (issue_columns df)) r' "issue_field" = Some (Str "")
  ∧ lookup_col (columns (issue_columns df)) r' "issue_value" = Some (Str "").
Proof.
  intros Hwf Hr'. unfold issue_columns in *.
  apply set_column_lookup in Hr' as (r2 & Hr2 & Hv & Ho2);
    [|by do 2 apply set_column_wf].
  apply set_column_lookup in Hr2 as (r1 & Hr1 & Hf & Ho1); [|by apply set_column_wf].
  apply set_column_lookup in Hr1 as (r & Hr & Hi & _); [|done].
  split_and!; [|by rewrite Ho2|done].
  by rewrite Ho2, Ho1.
Qed.

(** The degenerate report of [create_error_report]: no data row and at
    least one issue with [row <= 0]. *)
Lemma create_error_report_degenerate df issues :
  rows df = [] →
  filter (fun i => Core.group_key i = 0%Z) issues ≠ [] →
  Core.create_error_report df issues
  = let l := filter (fun i => Core.group_key i = 0%Z) issues in
    mkDataFrame ["issue"; "issue_field"; "issue_value"]
      [[Str (Py.join " | " (map message l));
        Str (Py.join " | " (map field l));
        Str (Py.join " | " (map value l))]].
Proof.
  intros Hrows Hl. unfold Core.create_error_report.
  rewrite group_lookup.
  destruct (filter (fun i => Core.group_key i = 0%Z) issues) as [|i l] eqn:El; [done|].
  rewrite annotate_loop_length, issue_columns_length, Hrows. done.
Qed.

(** With one header-level issue the degenerate report holds its message,
    field and value. *)
Lemma create_error_report_header_only df i :
  rows df = [] →
  row i = 0%Z →
  Core.create_error_report df [i]
  = mkDataFrame ["issue"; "issue_field"; "issue_value"]
      [[Str (message i); Str (field i); Str (value i)]].
Proof.
  intros Hrows Hi.
  assert (Hf : filter (fun i => Core.group_key i = 0%Z) [i] = [i]).
  { rewrite filter_cons_True; [done|]. unfold Core.group_key. by rewrite Hi. }
  rewrite create_error_report_degenerate; [|done|by rewrite Hf].
  cbv zeta. by rewrite Hf.
Qed.

(** The report of the CLI has as many rows as its input frame: none when
    the frame has none. *)
Lemma create_validation_report_length df issues :
  length (rows (Cli.create_validation_report df issues)) = length (rows df).
Proof.
  unfold Cli.create_validation_report.
  by rewrite annotate_loop_length, issue_columns_length.
Qed.

(** C8 fails in the CLI.  On the header without "WAP Hostname", [main]
    hands [create_validation_report] the frame without rows and the one
    header-level issue, and the report written has no row at all: the
    issue is lost.  On the same arguments [create_error_report] of the
    web core builds the one-row report the claim describes. *)
Theorem C8_cli_report_without_row :
  run (Cli.main (demo_world demo_bad_header))
  = (Raise (SystemExit 2),
     [EvWriteCsv (mkDataFrame
                    ["floor #"; "serial number"; "mac address";
                     "issue"; "issue_field"; "issue_value"] [])])
  ∧ Cli.create_validation_report (iloc_empty (_normalize_dataframe demo_bad_header))
      [header_issue ["wap hostname"]]
    = mkDataFrame ["floor #"; "serial number"; "mac address";
                   "issue"; "issue_field"; "issue_value"] []
  ∧ Core.create_error_report (iloc_empty (_normalize_dataframe demo_bad_header))
      [header_issue ["wap hostname"]]
    = mkDataFrame ["issue"; "issue_field"; "issue_value"]
        [[Str "Missing required column(s)"; Str "headers"; Str "wap hostname"]].
Proof. split_and!; vm_compute; reflexivity. Qed.

(** Header-level issues never reach a row: with at least one data row
    the report is the one built from the issues of positive row number. *)
Lemma header_issues_ignored df issues :
  rows df ≠ [] →
  Core.create_error_report df issues
  = Core.create_error_report df (filter (fun i => (0 < row i)%Z) issues).
Proof.
  intros Hrows. unfold Core.create_error_report.
  set (m1 := foldl _ ∅ issues). set (m2 := foldl _ ∅ (filter _ issues)).
  assert (Hext : ∀ k, (0 < k)%Z → m1 !! k = m2 !! k).
  { intros k Hk. unfold m1, m2. rewrite !group_lookup.
    rewrite list_filter_filter.
    rewrite (list_filter_iff (fun i => Core.group_key i = k)
               (fun i => Core.group_key i = k ∧ (0 < row i)%Z)); [done|].
    intros i. unfold Core.group_key. destruct (row i <=? 0)%Z eqn:E; lia. }
  rewrite (annotate_loop_ext m1 m2) by done.
  assert (Hn : (length (rows (foldl (annotate m2) (issue_columns df)
                   (seq 0 (length (rows (issue_columns df)))))) =? 0)%nat = false).
  { rewrite annotate_loop_length, issue_columns_length.
    apply Nat.eqb_neq. by destruct (rows df). }
  rewrite Hn. by destruct (m1 !! 0%Z), (m2 !! 0%Z).
Qed.

(** C10. Given a frame with at least one data row and issues that are all
    header-level, [create_error_report] attaches them to no row: the
    report is the input frame with the three issue columns, one row per
    data row, and each row reads the empty string under [issue],
    [issue_field] and [issue_value]. *)
Theorem C10_header_issue_dropped (df : DataFrame) (issues : list RowIssue) :
  wf_frame df →
  rows df ≠ [] →
  Forall (fun i => (row i <= 0)%Z) issues →
  Core.create_error_report df issues = issue_columns df
  ∧ length (rows (Core.create_error_report df issues)) = length (rows df)
  ∧ ∀ idx r, rows (Core.create_error_report df issues) !! idx = Some r →
      lookup_col (columns (Core.create_error_report df issues)) r "issue" = Some (Str "")
      ∧ lookup_col (columns (Core.create_error_report df issues)) r "issue_field"
        = Some (Str "")
      ∧ lookup_col (columns (Core.create_error_report df issues)) r "issue_value"
        = Some (Str "").
Proof.
  intros Hwf Hrows Hhdr.
  assert (Heq : Core.create_error_report df issues = issue_columns df).
  { rewrite header_issues_ignored by done.
    assert (filter (fun i => (0 < row i)%Z) issues = []) as ->.
    { induction Hhdr as [|i l Hi _ IH]; [done|].
      rewrite filter_cons_False by lia. done. }
    unfold Core.create_error_report. simpl.
    rewrite annotate_loop_none by (intros; apply lookup_empty).
    by rewrite lookup_empty. }
  rewrite Heq. split_and!; [done|apply issue_columns_length|].
  intros idx r Hr. by apply (issue_columns_lookup df idx).
Qed.

(** The theorem on [demo_bad_header], which has one data row. *)
Lemma C10_header_issue_dropped_witness :
  Core.create_error_report (_normalize_dataframe demo_bad_header)
    [header_issue ["wap hostname"]]
  = issue_columns (_normalize_dataframe demo_bad_header)
  ∧ length (rows (Core.create_error_report (_normalize_dataframe demo_bad_header)
                    [header_issue ["wap hostname"]]))
    = length (rows (_normalize_dataframe demo_bad_header))
  ∧ ∀ idx r,
      rows (Core.create_error_report (_normalize_dataframe demo_bad_header)
              [header_issue ["wap hostname"]]) !! idx = Some r →
      lookup_col (columns (Core.create_error_report (_normalize_dataframe demo_bad_header)
                             [header_issue ["wap hostname"]])) r "issue" = Some (Str "")
      ∧ lookup_col (columns (Core.create_error_report (_normalize_dataframe demo_bad_header)
                               [header_issue ["wap hostname"]])) r "issue_field"
        = Some (Str "")
      ∧ lookup_col (columns (Core.create_error_report (_normalize_dataframe demo_bad_header)
                               [header_issue ["wap hostname"]])) r "issue_value"
        = Some (Str "").
Proof.
  apply (C10_header_issue_dropped (_normalize_dataframe demo_bad_header)
           [header_issue ["wap hostname"]]).
  - repeat constructor.
  - vm_compute. discriminate.
  - repeat constructor. vm_compute. discriminate.
Defined.

(** The report the web front end builds after a missing-column failure on
    a file with one data row. *)
Example header_issue_lost_in_report :
  Core.create_error_report (_normalize_dataframe demo_bad_header)
    [header_issue ["wap hostname"]]
  = mkDataFrame ["floor #"; "serial number"; "mac address";
                 "issue"; "issue_field"; "issue_value"]
      [[Str "1"; Str "ABC999"; Str "aa:bb:cc:dd:ee:ff"; Str ""; Str ""; Str ""]].
Proof. vm_compute. reflexivity. Qed.

End Reports.

(** * Further properties of the code *)

(** ** Row numbers of the issues *)

Section IssueRows.

Context (inv_map : gmap string InvItem).

Lemma validate_row_adds cols idx r issues l :
  validate_row cols inv_map idx r issues = Ok l →
  l = issues
  ∨ ∃ i, l = issues ++ [i]
         ∧ row i = (Z.of_nat idx + 1)%Z
         ∧ (field i = "serial number" ∨ field i = "mac address").
Proof.
  unfold validate_row.
  destruct (get_or_empty cols r "serial number") as [s|]; [|done]. cbn [mbind result_bind].
  destruct (negb (Py.truthy (Py.strip s))); [intros [= <-]; right; eauto|].
  case_decide; [intros [= <-]; right; eauto|].
  destruct (get_or_empty cols r "mac address") as [m|]; [|done]. cbn [mbind result_bind].
  destruct (_ && _); intros [= <-]; [right|left]; eauto.
Qed.

Lemma validate_loop_adds cols idx rs issues l :
  validate_loop cols inv_map idx rs issues = Ok l →
  ∃ l', l = issues ++ l'
        ∧ Forall (fun i => (Z.of_nat idx < row i ≤ Z.of_nat idx + Z.of_nat (length rs))%Z
                           ∧ (field i = "serial number" ∨ field i = "mac address")) l'
        ∧ StronglySorted Z.lt (map row l')
        ∧ length l' ≤ length rs.
Proof.
  revert idx issues; induction rs as [|r rs IH]; intros idx issues; cbn [validate_loop].
  - intros [= <-]. exists []. rewrite app_nil_r. repeat constructor.
  - destruct (validate_row cols inv_map idx r issues) as [i1|] eqn:E1; [|done].
    cbn [mbind result_bind]. intros (l2 & -> & Hr2 & Hs2 & Hl2)%IH.
    assert (Hr2' : Forall (fun i =>
              (Z.of_nat idx < row i ≤ Z.of_nat idx + Z.of_nat (length (r :: rs)))%Z
              ∧ (field i = "serial number" ∨ field i = "mac address")) l2).
    { eapply Forall_impl; [exact Hr2|]. intros i [? ?]. rewrite length_cons. split; [lia|done]. }
    apply validate_row_adds in E1 as [->|(i & -> & Hi & Hf)].
    + exists l2. split_and!; try done. rewrite length_cons. lia.
    + exists (i :: l2). rewrite <- app_assoc. split_and!; try done.
      * constructor; [|done]. rewrite length_cons. split; [lia|done].
      * simpl. constructor; [done|]. apply Forall_forall. intros z Hz.
        apply list_elem_of_In, in_map_iff in Hz as (i' & <- & Hi'%list_elem_of_In).
        pose proof (proj1 (Forall_forall _ _) Hr2 i' Hi') as [? _]. lia.
      * simpl. lia.
Qed.

(** X1. Whatever the frame, the issues the row validator returns carry
    the numbers of data rows, between 1 and the number of rows, in
    strictly increasing order, and name the serial or the MAC field. *)
Theorem validate_rows_numbers (df : DataFrame) (issues : list RowIssue) :
  _validate_rows df inv_map = Ok issues →
  Forall (fun i => (1 ≤ row i ≤ Z.of_nat (length (rows df)))%Z
                   ∧ (field i = "serial number" ∨ field i = "mac address")) issues
  ∧ StronglySorted Z.lt (map row issues)
  ∧ length issues ≤ length (rows df).
Proof.
  intros (l' & -> & Hr & Hs & Hl)%validate_loop_adds. simpl.
  split_and!; try done. eapply Forall_impl; [exact Hr|]. intros i [? ?]. split; [lia|done].
Qed.

End IssueRows.

(** The theorem on [demo_bad_rows]. *)
Lemma validate_rows_numbers_witness :
  Forall (fun i => (1 ≤ row i ≤ Z.of_nat (length (rows demo_bad_rows)))%Z
                   ∧ (field i = "serial number" ∨ field i = "mac address"))
    [mkRowIssue 1 "mac address" "aa:bb:cc" "MAC Address format looks invalid";
     mkRowIssue 2 "serial number" "xyz" "Serial not found in Mist org inventory";
     mkRowIssue 3 "serial number" "" "Serial Number is blank"]
  ∧ StronglySorted Z.lt
      (map row [mkRowIssue 1 "mac address" "aa:bb:cc" "MAC Address format looks invalid";
                mkRowIssue 2 "serial number" "xyz" "Serial not found in Mist org inventory";
                mkRowIssue 3 "serial number" "" "Serial Number is blank"])
  ∧ length [mkRowIssue 1 "mac address" "aa:bb:cc" "MAC Address format looks invalid";
            mkRowIssue 2 "serial number" "xyz" "Serial not found in Mist org inventory";
            mkRowIssue 3 "serial number" "" "Serial Number is blank"]
    ≤ length (rows demo_bad_rows).
Proof.
  apply (validate_rows_numbers (build_inv_map demo_inventory) demo_bad_rows).
  vm_compute. reflexivity.
Defined.

(** ** The snapshot under repeated serials *)

Section Snapshot.

Lemma keeps_kept_under e k : keeps e k = true ↔ kept_under e k.
Proof.
  unfold keeps, kept_under. destruct (inv_serial e) as [s|]; [|naive_solver].
  rewrite andb_true_iff, truthy_true, bool_decide_eq_true. naive_solver.
Qed.

(** X2. The snapshot holds, under a key, the last entry of the inventory
    whose non-empty serial strips to that key: of entries with the same
    serial the later one shadows the earlier ones.  The snapshot has at
    most as many keys as the inventory has entries. *)
Theorem build_inv_map_shadowing (inventory : list InvItem) (k : string) :
  build_inv_map inventory !! k = last (filter (fun e => keeps e k = true) inventory)
  ∧ size (build_inv_map inventory) ≤ length inventory.
Proof.
  split.
  - induction inventory as [|e inventory IH] using rev_ind; [done|].
    rewrite build_inv_map_snoc, filter_app.
    unfold keeps at 2.
    destruct (inv_serial e) as [s|] eqn:Es.
    + destruct (Py.truthy s) eqn:Et; simpl.
      * destruct (decide (Py.strip s = k)) as [<-|Hne].
        -- rewrite lookup_insert_eq, filter_cons_True.
           ++ by rewrite filter_nil, last_snoc.
           ++ unfold keeps. by rewrite Es, Et, bool_decide_eq_true_2.
        -- rewrite lookup_insert_ne by done. rewrite filter_cons_False.
           ++ by rewrite filter_nil, app_nil_r.
           ++ unfold keeps. rewrite Es, Et, bool_decide_eq_false_2 by done. done.
      * rewrite filter_cons_False; [by rewrite filter_nil, app_nil_r|].
        unfold keeps. by rewrite Es, Et.
    + rewrite filter_cons_False; [by rewrite filter_nil, app_nil_r|].
      unfold keeps. by rewrite Es.
  - induction inventory as [|e inventory IH] using rev_ind; [done|].
    rewrite build_inv_map_snoc, length_app. simpl.
    destruct (inv_serial e) as [s|]; [|lia].
    destruct (Py.truthy s); [|lia].
    destruct (build_inv_map inventory !! Py.strip s) eqn:El.
    + rewrite map_size_insert_Some by done. lia.
    + rewrite map_size_insert_None by done. lia.
Qed.

(** Two entries with the serial "ABC999": the second one is found. *)
Example later_entry_shadows :
  build_inv_map [mkInvItem (Some "ABC999") (Some "aa:aa:aa:aa:aa:aa");
                 mkInvItem (Some " ABC999") (Some "bb:bb:bb:bb:bb:bb")] !! "ABC999"
  = Some (mkInvItem (Some " ABC999") (Some "bb:bb:bb:bb:bb:bb")).
Proof. vm_compute. reflexivity. Qed.

End Snapshot.

(** ** No failure inside the pipeline *)

Section NoCrash.


End NoCrash.

(** ** What the executor sends *)

Section Payloads.

Context (inv_map : gmap string InvItem).

Lemma get_or_empty_text cols r c m :
  get_or_empty cols r c = Ok m → m = cell_text cols r c.
Proof.
  unfold get_or_empty, cell_text. destruct (repeated cols c); [done|].
  destruct (lookup_col cols r c) as [[|s]|]; try done.
  - rewrite or_else_self. by intros [= <-].
  - by intros [= <-].
Qed.

(** A row that passes validation resolves to the MAC read off the row
    and the snapshot. *)
Lemma clean_row_chosen cols idx r issues :
  validate_row cols inv_map idx r issues = Ok issues →
  resolve cols inv_map r = Ok (chosen_mac inv_map cols r).
Proof.
  intros (s & inv & Hrep & Hl & Hne & Hi & m & Hm)%validate_row_clean.
  apply get_or_empty_text in Hm as Hm'.
  unfold resolve, chosen_mac, getitem_strip, getitem_inv, mac_source, cell_text at 1.
  rewrite Hrep, Hl. cbn [mbind result_bind]. rewrite Hi. cbn [mbind result_bind].
  destruct (inv_mac inv) as [s'|]; [destruct (Py.truthy s')|]; try done;
    by rewrite Hm, Hm'.
Qed.

Lemma gate_rows_chosen df :
  _validate_rows df inv_map = Ok [] →
  Forall (fun r => resolve (columns df) inv_map r
                   = Ok (chosen_mac inv_map (columns df) r)) (rows df).
Proof.
  intros H%validate_loop_clean. eapply Forall_impl; [exact H|].
  intros r [Hr|[idx' Hr]]; by eapply clean_row_chosen.
Qed.

End Payloads.

Example demo_payloads :
  map (chosen_mac (build_inv_map demo_inventory)
         (columns (_normalize_dataframe demo_input)))
    (rows (_normalize_dataframe demo_input))
  = ["aa:bb:cc:dd:ee:ff"; ""].
Proof. vm_compute. reflexivity. Qed.

(** ** What the validation reports hold *)

Section ReportRows.

Lemma annotate_eq (m : gmap Z (list RowIssue)) rep idx :
  annotate m rep idx
  = mkDataFrame (columns rep)
      (alter (annotate_opt (columns rep) (m !! (Z.of_nat idx + 1)%Z)) idx (rows rep)).
Proof.
  unfold annotate. destruct (m !! _) as [l|]; simpl.
  - unfold set_at. simpl. by rewrite !alter_alter.
  - destruct rep as [cols rs]. simpl. f_equal.
    clear. revert idx; induction rs as [|r rs IH]; intros [|idx]; simpl; try done.
    f_equal. apply IH.
Qed.

(** The loop over the rows writes on each row the group of its number
    and leaves the other rows alone. *)
Lemma annotate_loop_lookup (m : gmap Z (list RowIssue)) n : ∀ a rep,
  columns (foldl (annotate m) rep (seq a n)) = columns rep
  ∧ ∀ j, rows (foldl (annotate m) rep (seq a n)) !! j
         = if decide (a ≤ j < a + n)
           then annotate_opt (columns rep) (m !! (Z.of_nat j + 1)%Z) <$> rows rep !! j
           else rows rep !! j.
Proof.
  induction n as [|n IH]; intros a rep; simpl.
  - split; [done|]. intros j. by rewrite decide_False by lia.
  - destruct (IH (S a) (annotate m rep a)) as [Hc Hr].
    split; [by rewrite Hc, annotate_eq|]. intros j. rewrite Hr, annotate_eq. simpl.
    destruct (decide (j = a)) as [->|Hne].
    + rewrite list_lookup_alter_eq. repeat case_decide; (done || lia).
    + rewrite list_lookup_alter_ne by done.
      repeat case_decide; (done || lia).
Qed.

Lemma annotate_row_lookup cols l r :
  is_Some (lookup_col cols r "issue") →
  is_Some (lookup_col cols r "issue_field") →
  is_Some (lookup_col cols r "issue_value") →
  lookup_col cols (annotate_row cols l r) "issue"
  = Some (Str (Py.join " | " (map message l)))
  ∧ lookup_col cols (annotate_row cols l r) "issue_field"
    = Some (Str (Py.join " | " (map field l)))
  ∧ lookup_col cols (annotate_row cols l r) "issue_value"
    = Some (Str (Py.join " | " (map value l)))
  ∧ ∀ k, k ≠ "issue" → k ≠ "issue_field" → k ≠ "issue_value" →
      lookup_col cols (annotate_row cols l r) k = lookup_col cols r k.
Proof.
  intros [x1 H1] [x2 H2] [x3 H3]. unfold annotate_row. split_and!.
  - rewrite 2!lookup_col_map_col_ne by done. by rewrite lookup_col_map_col, H1.
  - rewrite lookup_col_map_col_ne by done.
    rewrite lookup_col_map_col, lookup_col_map_col_ne by done. by rewrite H2.
  - rewrite lookup_col_map_col, 2!lookup_col_map_col_ne by done. by rewrite H3.
  - intros k ? ? ?. by rewrite 3!lookup_col_map_col_ne.
Qed.

Lemma issue_columns_lookup_other df idx r' :
  wf_frame df →
  rows (issue_columns df) !! idx = Some r' →
  ∃ r, rows df !! idx = Some r
       ∧ ∀ k, k ≠ "issue" → k ≠ "issue_field" → k ≠ "issue_value" →
           lookup_col (columns (issue_columns df)) r' k = lookup_col (columns df) r k.
Proof.
  intros Hwf Hr'. unfold issue_columns in *.
  apply set_column_lookup in Hr' as (r2 & Hr2 & _ & Ho2);
    [|by do 2 apply set_column_wf].
  apply set_column_lookup in Hr2 as (r1 & Hr1 & _ & Ho1); [|by apply set_column_wf].
  apply set_column_lookup in Hr1 as (r & Hr & _ & Ho); [|done].
  exists r. split; [done|]. intros k ? ? ?. by rewrite Ho2, Ho1, Ho.
Qed.

(** The report of the CLI, row by row. *)
Lemma create_validation_report_lookup df issues j :
  columns (Cli.create_validation_report df issues) = columns (issue_columns df)
  ∧ rows (Cli.create_validation_report df issues) !! j
    = annotate_opt (columns (issue_columns df))
        (match filter (fun i => row i = (Z.of_nat j + 1)%Z) issues with
         | [] => None
         | l => Some l
         end) <$> rows (issue_columns df) !! j.
Proof.
  unfold Cli.create_validation_report.
  destruct (annotate_loop_lookup
              (foldl (fun m i => setdefault_append m (row i) i) ∅ issues)
              (length (rows (issue_columns df))) 0 (issue_columns df)) as [Hc Hr].
  split; [done|]. rewrite Hr, group_lookup.
  destruct (decide (0 ≤ j < 0 + length (rows (issue_columns df)))); [done|].
  rewrite (proj2 (lookup_ge_None _ _)); [done|lia].
Qed.

(** With a data row in the frame, the two builders write the same
    report. *)
Lemma reports_agree_on_rows df issues :
  rows df ≠ [] →
  Core.create_error_report df issues = Cli.create_validation_report df issues.
Proof.
  intros Hrows. unfold Core.create_error_report, Cli.create_validation_report.
  set (m1 := foldl _ ∅ issues). set (m2 := foldl _ ∅ issues).
  assert (Hext : ∀ k, (0 < k)%Z → m1 !! k = m2 !! k).
  { intros k Hk. unfold m1, m2. rewrite !group_lookup.
    rewrite (list_filter_iff (fun i => Core.group_key i = k) (fun i => row i = k)); [done|].
    intros i. unfold Core.group_key. destruct (row i <=? 0)%Z eqn:E; lia. }
  rewrite (annotate_loop_ext m1 m2) by done.
  assert (Hn : (length (rows (foldl (annotate m2) (issue_columns df)
                   (seq 0 (length (rows (issue_columns df)))))) =? 0)%nat = false).
  { rewrite annotate_loop_length, issue_columns_length.
    apply Nat.eqb_neq. by destruct (rows df). }
  rewrite Hn. by destruct (m1 !! 0%Z).
Qed.

End ReportRows.

(** The report of the CLI, read row by row. *)
Lemma validation_report_row (df : DataFrame) (issues : list RowIssue)
    (j : nat) (r : list cell) :
  wf_frame df →
  rows df !! j = Some r →
  let group := filter (fun i => row i = (Z.of_nat j + 1)%Z) issues in
  let cols := columns (Cli.create_validation_report df issues) in
  ∃ r', rows (Cli.create_validation_report df issues) !! j = Some r'
        ∧ lookup_col cols r' "issue" = Some (Str (Py.join " | " (map message group)))
        ∧ lookup_col cols r' "issue_field" = Some (Str (Py.join " | " (map field group)))
        ∧ lookup_col cols r' "issue_value" = Some (Str (Py.join " | " (map value group)))
        ∧ ∀ k, k ≠ "issue" → k ≠ "issue_field" → k ≠ "issue_value" →
            lookup_col cols r' k = lookup_col (columns df) r k.
Proof.
  intros Hwf Hr group cols.
  destruct (create_validation_report_lookup df issues j) as [Hc Hj].
  unfold cols. rewrite Hc, Hj. fold group.
  destruct (rows (issue_columns df) !! j) as [r0|] eqn:Er0.
  2:{ apply lookup_ge_None in Er0. rewrite issue_columns_length in Er0.
      apply lookup_lt_Some in Hr. lia. }
  destruct (issue_columns_lookup df j r0 Hwf Er0) as (H1 & H2 & H3).
  destruct (issue_columns_lookup_other df j r0 Hwf Er0) as (r1 & Hr1 & Ho).
  assert (r1 = r) as -> by congruence.
  eexists. split; [done|]. destruct group as [|i l]; simpl.
  - split_and!; done.
  - destruct (annotate_row_lookup (columns (issue_columns df)) (i :: l) r0)
      as (A1 & A2 & A3 & A4); [by rewrite ?H1, ?H2, ?H3..|].
    split_and!; try done. intros k ? ? ?. by rewrite A4, Ho.
Qed.

(** X5. In the validation report of either front end, the row of a data
    row reads, under [issue], [issue_field] and [issue_value], the
    messages, fields and values of the issues that carry its number, in
    their order and joined with " | " (the empty string when there is
    none), and under every other label what the data row reads. *)
Theorem report_row_contents (df : DataFrame) (issues : list RowIssue)
    (j : nat) (r : list cell) :
  wf_frame df →
  rows df !! j = Some r →
  let group := filter (fun i => row i = (Z.of_nat j + 1)%Z) issues in
  let cols := columns (Cli.create_validation_report df issues) in
  Core.create_error_report df issues = Cli.create_validation_report df issues
  ∧ ∃ r', rows (Cli.create_validation_report df issues) !! j = Some r'
          ∧ lookup_col cols r' "issue" = Some (Str (Py.join " | " (map message group)))
          ∧ lookup_col cols r' "issue_field" = Some (Str (Py.join " | " (map field group)))
          ∧ lookup_col cols r' "issue_value" = Some (Str (Py.join " | " (map value group)))
          ∧ ∀ k, k ≠ "issue" → k ≠ "issue_field" → k ≠ "issue_value" →
              lookup_col cols r' k = lookup_col (columns df) r k.
Proof.
  intros Hwf Hr group cols. split.
  - apply reports_agree_on_rows. by destruct (rows df).
  - by apply validation_report_row.
Qed.

(** The theorem on the first row of [demo_bad_rows] and two issues for
    it. *)
Lemma report_row_contents_witness :
  let issues := [mkRowIssue 1 "mac address" "aa:bb:cc" "first";
                 mkRowIssue 2 "serial number" "xyz" "other";
                 mkRowIssue 1 "serial number" "ABC999" "second"] in
  let group := filter (fun i => row i = (Z.of_nat 0 + 1)%Z) issues in
  let cols := columns (Cli.create_validation_report demo_bad_rows issues) in
  Core.create_error_report demo_bad_rows issues
  = Cli.create_validation_report demo_bad_rows issues
  ∧ ∃ r', rows (Cli.create_validation_report demo_bad_rows issues) !! 0 = Some r'
          ∧ lookup_col cols r' "issue" = Some (Str (Py.join " | " (map message group)))
          ∧ lookup_col cols r' "issue_field" = Some (Str (Py.join " | " (map field group)))
          ∧ lookup_col cols r' "issue_value" = Some (Str (Py.join " | " (map value group)))
          ∧ ∀ k, k ≠ "issue" → k ≠ "issue_field" → k ≠ "issue_value" →
              lookup_col cols r' k
              = lookup_col (columns demo_bad_rows)
                  [Str "1"; Str "ap1"; Str "ABC999"; Str "aa:bb:cc"] k.
Proof.
  apply (report_row_contents demo_bad_rows
           [mkRowIssue 1 "mac address" "aa:bb:cc" "first";
            mkRowIssue 2 "serial number" "xyz" "other";
            mkRowIssue 1 "serial number" "ABC999" "second"]
           0 [Str "1"; Str "ap1"; Str "ABC999"; Str "aa:bb:cc"]).
  - repeat constructor.
  - reflexivity.
Defined.

Example two_issues_on_one_row :
  rows (Core.create_error_report demo_bad_rows
          [mkRowIssue 1 "mac address" "aa:bb:cc" "first";
           mkRowIssue 2 "serial number" "xyz" "other";
           mkRowIssue 1 "serial number" "ABC999" "second"]) !! 0
  = Some [Str "1"; Str "ap1"; Str "ABC999"; Str "aa:bb:cc";
          Str "first | second"; Str "mac address | serial number";
          Str "aa:bb:cc | ABC999"].
Proof. vm_compute. reflexivity. Qed.

(** X6. The report builder of the web core and the one of the CLI write
    the same report exactly when the frame has a data row or no issue is
    header-level: they part only on a frame without rows and an issue of
    row number 0 or below, where the core writes its one-row report and
    the CLI a report without rows. *)
Theorem reports_agree_iff (df : DataFrame) (issues : list RowIssue) :
  Core.create_error_report df issues = Cli.create_validation_report df issues
  ↔ rows df ≠ [] ∨ Forall (fun i => (0 < row i)%Z) issues.
Proof.
  split.
  - intros Heq. destruct (decide (rows df = [])) as [Hr|Hr]; [|by left]. right.
    destruct (decide (Forall (fun i => (0 < row i)%Z) issues)) as [|Hn]; [done|].
    exfalso. apply not_Forall_Exists in Hn; [|apply _].
    apply Exists_exists in Hn as (i & Hi & Hrow). simpl in Hrow.
    assert (Hf : filter (fun i => Core.group_key i = 0%Z) issues ≠ []).
    { intros Hnil. apply (filter_nil_not_elem_of _ _ i Hnil); [|done].
      unfold Core.group_key. destruct (row i <=? 0)%Z eqn:E; lia. }
    apply (f_equal (fun d => length (rows d))) in Heq.
    rewrite create_error_report_degenerate, create_validation_report_length, Hr in Heq
      by done.
    done.
  - intros [Hr|Hpos]; [by apply reports_agree_on_rows|].
    destruct (decide (rows df = [])) as [Hr|Hr]; [|by apply reports_agree_on_rows].
    unfold Core.create_error_report, Cli.create_validation_report.
    rewrite group_lookup, issue_columns_length, Hr.
    rewrite (filter_none _ issues); [done|].
    intros i Hi. pose proof (proj1 (Forall_forall _ _) Hpos i Hi) as Hp. simpl in Hp.
    unfold Core.group_key. destruct (row i <=? 0)%Z eqn:E; lia.
Qed.

(** ** The route [/run] *)

Section RunRoute.

Lemma assign_calls_app t1 t2 : assign_calls (t1 ++ t2) = assign_calls t1 + assign_calls t2.
Proof. unfold assign_calls. by rewrite filter_app, length_app. Qed.


(** Started after a trace without assign call, the loop does what it
    does from the empty trace. *)
Lemma assign_loop_from w site inv_map t0 rs : ∀ idx st t,
  assign_calls t0 = 0 →
  assign_loop w site inv_map idx rs st (t0 ++ t)
  = ((assign_loop w site inv_map idx rs st t).1,
     t0 ++ (assign_loop w site inv_map idx rs st t).2).
Proof.
  induction rs as [|r rs IH]; intros idx st t H0; cbn [assign_loop]; [done|].
  unfold mbind, M_bind. rewrite !assign_row_eq, assign_calls_app, H0. simpl.
  destruct (resolve (columns st.1.1) inv_map r) as [mac|]; [|done].
  rewrite <- app_assoc. by rewrite IH.
Qed.

Lemma process_file_from site w t0 :
  assign_calls t0 = 0 →
  Core.process_file site w t0
  = ((run (Core.process_file site w)).1, t0 ++ (run (Core.process_file site w)).2).
Proof.
  intros H0. unfold run, Core.process_file, mbind, M_bind, lift, raise, get_inventory, emit.
  destruct (w_input w) as [df0|]; [|by rewrite app_nil_r]. cbv zeta.
  destruct (nonempty (_validate_headers (_normalize_dataframe df0)));
    [by rewrite app_nil_r|].
  simpl. destruct (w_inventory w) as [inventory|]; [|done].
  destruct (_validate_rows _ _) as [issues|]; [|done].
  destruct (nonempty issues); [done|].
  rewrite (assign_loop_from _ _ _ t0 _ _ _ [EvGetInventory]) by done.
  destruct (assign_loop _ _ _ _ _ _ [EvGetInventory]) as [[[[df' ok] bad]|] t]; simpl; [|done].
  by rewrite <- app_assoc.
Qed.




(** The route, once the form is complete and the file is there. *)
Lemma run_route_eq fn sid sites w :
  Py.strip (Py.or_else fn "") ≠ "" →
  Py.strip (Py.or_else sid "") ≠ "" →
  run (App.run_route fn sid true sites w)
  = match sites with
    | Raise e =>
        (if App.is_exception e then Ok (App.ErrorPage e) else Raise e, [EvGetSites])
    | Ok listing =>
        let site := Py.strip (Py.or_else sid "") in
        match run (Core.process_file site w) with
        | (Ok (df, summary), t) =>
            (Ok (App.ResultsPage (App.find_site_name listing site) summary df),
             EvGetSites :: t)
        | (Raise (ValidationError issues message), t) =>
            match w_input w with
            | Ok df2 =>
                let rep := Core.create_error_report (_normalize_dataframe df2) issues in
                (Ok (App.ValidationErrorsPage message issues (Some rep)),
                 EvGetSites :: t ++ [EvWriteCsv rep])
            | Raise e =>
                (if App.is_exception e
                 then Ok (App.ValidationErrorsPage message issues None)
                 else Raise e, EvGetSites :: t)
            end
        | (Raise e, t) =>
            (if App.is_exception e then Ok (App.ErrorPage e) else Raise e, EvGetSites :: t)
        end
    end.
Proof.
  intros Hfn%truthy_true Hsid%truthy_true.
  unfold App.run_route, run at 1. rewrite Hfn, Hsid. simpl.
  unfold App.get_sites. simpl.
  destruct sites as [listing|e]; [|by destruct (App.is_exception e)].
  rewrite (process_file_from _ _ [EvGetSites]) by done.
  destruct (run (Core.process_file _ w)) as [[[df summary]|e] t]; simpl; [done|].
  destruct e; try done. unfold App.build_report.
  destruct (w_input w) as [df2|e2]; [done|]. by destruct (App.is_exception e2).
Qed.

End RunRoute.

Section RouteReport.

Lemma sorted_rows_filter (l : list RowIssue) (i : RowIssue) :
  StronglySorted Z.lt (map row l) →
  i ∈ l →
  filter (fun i' => row i' = row i) l = [i].
Proof.
  induction l as [|i0 l IH]; intros Hs Hi; [by apply elem_of_nil in Hi|].
  simpl in Hs. apply StronglySorted_inv in Hs as [Hs Hlt].
  assert (Hall : ∀ i', i' ∈ l → (row i0 < row i')%Z).
  { intros i' Hi'. apply (proj1 (Forall_forall _ _) Hlt).
    apply list_elem_of_In, in_map_iff. exists i'. split; [done|by apply list_elem_of_In]. }
  apply elem_of_cons in Hi as [->|Hi].
  - rewrite filter_cons_True by done. f_equal.
    apply filter_none. intros i' Hi'. specialize (Hall i' Hi'). lia.
  - rewrite filter_cons_False by (specialize (Hall i Hi); lia). by apply IH.
Qed.

End RouteReport.

(** X8. When the row validator has found issues, the route [/run] answers
    with the validation page carrying them, after the inventory fetch and
    with no assign call, and writes a report with one row per data row in
    which every issue is shown on the row of its number, with its message,
    field and value, and the rows without issue read the empty string in
    the three issue columns: the row numbers of the validator, counted on
    the frame with the outcome columns, are those of the frame read again
    for the report. *)
Theorem run_route_report (fn sid : option string) (listing : list App.Site) (w : World)
    (df0 : DataFrame) (inventory : list InvItem) (issues : list RowIssue) :
  Py.strip (Py.or_else fn "") ≠ "" →
  Py.strip (Py.or_else sid "") ≠ "" →
  w_input w = Ok df0 →
  wf_frame df0 →
  w_inventory w = Ok inventory →
  _validate_headers (_normalize_dataframe df0) = [] →
  _validate_rows (outcome_columns (_normalize_dataframe df0)) (build_inv_map inventory)
  = Ok issues →
  issues ≠ [] →
  ∃ report,
    run (App.run_route fn sid true (Ok listing) w)
    = (Ok (App.ValidationErrorsPage "One or more rows are invalid" issues (Some report)),
       [EvGetSites; EvGetInventory; EvWriteCsv report])
    ∧ length (rows report) = length (rows df0)
    ∧ (∀ i, i ∈ issues →
         ∃ j r', row i = (Z.of_nat j + 1)%Z
                 ∧ rows report !! j = Some r'
                 ∧ lookup_col (columns report) r' "issue" = Some (Str (message i))
                 ∧ lookup_col (columns report) r' "issue_field" = Some (Str (field i))
                 ∧ lookup_col (columns report) r' "issue_value" = Some (Str (value i)))
    ∧ (∀ j r', rows report !! j = Some r' →
         (∀ i, i ∈ issues → row i ≠ (Z.of_nat j + 1)%Z) →
         lookup_col (columns report) r' "issue" = Some (Str "")
         ∧ lookup_col (columns report) r' "issue_field" = Some (Str "")
         ∧ lookup_col (columns report) r' "issue_value" = Some (Str "")).
Proof.
  intros Hfn Hsid Hin Hwf Hinv Hh Hv Hne.
  set (df := _normalize_dataframe df0) in *.
  pose proof (normalize_wf df0 Hwf) as Hwf'. fold df in Hwf'.
  destruct (validate_loop_adds _ _ _ _ _ _ Hv) as (l' & Hl' & Hrange & Hsorted & Hlen).
  simpl in Hl'. subst l'. rewrite outcome_columns_length in Hrange, Hlen.
  assert (Hrows : rows df ≠ []).
  { intros Hr. rewrite Hr in Hlen. destruct issues; [done|simpl in Hlen; lia]. }
  exists (Core.create_error_report df issues).
  assert (Hrep : Core.create_error_report df issues
                 = Cli.create_validation_report df issues)
    by (by apply reports_agree_on_rows).
  split_and!.
  - rewrite run_route_eq by done. cbv zeta.
    rewrite process_file_eq, Hin. cbv zeta. apply nonempty_false in Hh. fold df.
    rewrite Hh, Hinv, Hv. apply nonempty_true in Hne. by rewrite Hne.
  - rewrite Hrep, create_validation_report_length. unfold df.
    by rewrite normalize_length.
  - intros i Hi.
    pose proof (proj1 (Forall_forall _ _) Hrange i Hi) as [Hr _]. simpl in Hr.
    destruct (rows df !! Z.to_nat (row i - 1)) as [r|] eqn:Er.
    2:{ apply lookup_ge_None in Er. lia. }
    destruct (validation_report_row df issues _ r Hwf' Er) as (r' & Hr' & H1 & H2 & H3 & _).
    replace (Z.of_nat (Z.to_nat (row i - 1)) + 1)%Z with (row i) in * by lia.
    rewrite (sorted_rows_filter issues i Hsorted Hi) in H1, H2, H3. simpl in H1, H2, H3.
    exists (Z.to_nat (row i - 1)), r'. rewrite Hrep. split_and!; try done. lia.
  - intros j r' Hr' Hnone. rewrite Hrep in *.
    destruct (rows df !! j) as [r|] eqn:Er.
    2:{ apply lookup_ge_None in Er. apply lookup_lt_Some in Hr'.
        rewrite create_validation_report_length in Hr'. lia. }
    destruct (validation_report_row df issues j r Hwf' Er) as (r2 & Hr2 & H1 & H2 & H3 & _).
    assert (r2 = r') as -> by congruence.
    rewrite (filter_none _ issues) in H1, H2, H3 by done. done.
Qed.

(** The theorem on [demo_bad_rows]. *)
Lemma run_route_report_witness :
  ∃ report,
    run (App.run_route (Some "ab12cd34_aps.csv") (Some "site-1") true (Ok [])
           (demo_world demo_bad_rows))
    = (Ok (App.ValidationErrorsPage "One or more rows are invalid"
             [mkRowIssue 1 "mac address" "aa:bb:cc" "MAC Address format looks invalid";
              mkRowIssue 2 "serial number" "xyz" "Serial not found in Mist org inventory";
              mkRowIssue 3 "serial number" "" "Serial Number is blank"]
             (Some report)),
       [EvGetSites; EvGetInventory; EvWriteCsv report])
    ∧ length (rows report) = length (rows demo_bad_rows)
    ∧ (∀ i, i ∈ [mkRowIssue 1 "mac address" "aa:bb:cc" "MAC Address format looks invalid";
                 mkRowIssue 2 "serial number" "xyz" "Serial not found in Mist org inventory";
                 mkRowIssue 3 "serial number" "" "Serial Number is blank"] →
         ∃ j r', row i = (Z.of_nat j + 1)%Z
                 ∧ rows report !! j = Some r'
                 ∧ lookup_col (columns report) r' "issue" = Some (Str (message i))
                 ∧ lookup_col (columns report) r' "issue_field" = Some (Str (field i))
                 ∧ lookup_col (columns report) r' "issue_value" = Some (Str (value i)))
    ∧ (∀ j r', rows report !! j = Some r' →
         (∀ i, i ∈ [mkRowIssue 1 "mac address" "aa:bb:cc" "MAC Address format looks invalid";
                    mkRowIssue 2 "serial number" "xyz" "Serial not found in Mist org inventory";
                    mkRowIssue 3 "serial number" "" "Serial Number is blank"] →
               row i ≠ (Z.of_nat j + 1)%Z) →
         lookup_col (columns report) r' "issue" = Some (Str "")
         ∧ lookup_col (columns report) r' "issue_field" = Some (Str "")
         ∧ lookup_col (columns report) r' "issue_value" = Some (Str "")).
Proof.
  apply (run_route_report (Some "ab12cd34_aps.csv") (Some "site-1") []
           (demo_world demo_bad_rows) demo_bad_rows demo_inventory).
  - vm_compute. discriminate.
  - vm_compute. discriminate.
  - reflexivity.
  - repeat constructor.
  - reflexivity.
  - vm_compute. reflexivity.
  - vm_compute. reflexivity.
  - discriminate.
Defined.

(** ** The canonical form of a MAC address *)

Section MacForm.

Lemma lstrip_fixed s : Py.lstrip s = s ↔ head_space s = false.
Proof.
  destruct s as [|c s]; simpl; [done|].
  destruct (Py.isspace c) eqn:E; [|done]. split; [|done].
  intros H. exfalso.
  assert (Hlen : ∀ t, String.length (Py.lstrip t) ≤ String.length t).
  { clear. induction t as [|c t IH]; simpl; [done|]. destruct (Py.isspace c); simpl; lia. }
  specialize (Hlen s). rewrite H in Hlen. simpl in Hlen. lia.
Qed.

Lemma rstrip_fixed s : Py.rstrip s = s ↔ last_space s = false.
Proof.
  induction s as [|c s IH]; [done|].
  rewrite rstrip_cons. destruct s as [|c' s'] eqn:Es.
  - simpl. destruct (Py.isspace c); naive_solver.
  - rewrite <- Es in *.
    assert (Hlast : last_space (String c s) = last_space s) by (by rewrite Es).
    assert (Htr : Py.truthy s = true) by (by rewrite Es).
    rewrite Hlast. split.
    + destruct (Py.isspace c && negb (Py.truthy (Py.rstrip s))); [done|].
      intros [= Hr]. by apply IH.
    + intros Hls%IH. by rewrite Hls, Htr, andb_false_r.
Qed.

Lemma rstrip_length s : String.length (Py.rstrip s) ≤ String.length s.
Proof.
  induction s as [|c s IH]; [done|]. rewrite rstrip_cons.
  destruct (_ && _); simpl; lia.
Qed.

Lemma lstrip_length s : String.length (Py.lstrip s) ≤ String.length s.
Proof. induction s as [|c s IH]; simpl; [done|]. destruct (Py.isspace c); simpl; lia. Qed.

Lemma lstrip_same_or_shorter s :
  Py.lstrip s = s ∨ String.length (Py.lstrip s) < String.length s.
Proof.
  destruct s as [|c s]; simpl; [by left|].
  destruct (Py.isspace c); [right|by left]. pose proof (lstrip_length s). lia.
Qed.

(** A string is left alone by [strip] exactly when neither its first nor
    its last character is a space. *)
Lemma strip_fixed s : Py.strip s = s ↔ head_space s = false ∧ last_space s = false.
Proof.
  rewrite <- lstrip_fixed, <- rstrip_fixed. unfold Py.strip. split.
  - intros H. destruct (lstrip_same_or_shorter s) as [Hl|Hl].
    + split; [done|]. by rewrite Hl in H.
    + pose proof (rstrip_length (Py.lstrip s)) as Hr. rewrite H in Hr. lia.
  - intros [-> ->]. done.
Qed.

Lemma isspace_replace c :
  Py.isspace (if Ascii.eqb c "-" then ":"%char else c) = Py.isspace c.
Proof. destruct c as [[] [] [] [] [] [] [] []]; reflexivity. Qed.

Lemma lower_char_replace c :
  Py.lower_char (if Ascii.eqb c "-" then ":"%char else c)
  = if Ascii.eqb (Py.lower_char c) "-" then ":"%char else Py.lower_char c.
Proof. destruct c as [[] [] [] [] [] [] [] []]; reflexivity. Qed.

Lemma lstrip_replace s :
  Py.lstrip (Py.replace "-" ":" s) = Py.replace "-" ":" (Py.lstrip s).
Proof.
  induction s as [|c s IH]; simpl; [done|].
  rewrite isspace_replace. by destruct (Py.isspace c).
Qed.

Lemma truthy_replace s : Py.truthy (Py.replace "-" ":" s) = Py.truthy s.
Proof. by destruct s. Qed.

Lemma rstrip_replace s :
  Py.rstrip (Py.replace "-" ":" s) = Py.replace "-" ":" (Py.rstrip s).
Proof.
  induction s as [|c s IH]; [done|].
  cbn [Py.replace]. rewrite !rstrip_cons, IH, truthy_replace, isspace_replace.
  by destruct (Py.isspace c && negb (Py.truthy (Py.rstrip s))).
Qed.

Lemma strip_replace s :
  Py.strip (Py.replace "-" ":" s) = Py.replace "-" ":" (Py.strip s).
Proof. unfold Py.strip. by rewrite lstrip_replace, rstrip_replace. Qed.

Lemma lower_replace s :
  Py.lower (Py.replace "-" ":" s) = Py.replace "-" ":" (Py.lower s).
Proof. induction s as [|c s IH]; simpl; [done|]. by rewrite lower_char_replace, IH. Qed.

Lemma contains_replace s : Py.contains "-" (Py.replace "-" ":" s) = false.
Proof.
  induction s as [|c s IH]; simpl; [done|]. rewrite IH, orb_false_r.
  destruct (Ascii.eqb c "-") eqn:E; [done|exact E].
Qed.

Lemma replace_absent s : Py.contains "-" s = false → Py.replace "-" ":" s = s.
Proof.
  induction s as [|c s IH]; simpl; [done|].
  intros [-> Hs]%orb_false_iff. by rewrite IH.
Qed.

(** The string [normalize_mac] builds before it looks at the length. *)
Lemma pre_shape m :
  let x := Py.replace "-" ":" (Py.lower (Py.strip m)) in
  Py.strip x = x ∧ Py.lower x = x ∧ Py.contains "-" x = false.
Proof.
  cbv zeta. split_and!.
  - by rewrite strip_replace, <- lower_strip, strip_idem.
  - by rewrite lower_replace, lower_idem.
  - apply contains_replace.
Qed.

Lemma shaped_fixed x :
  Py.strip x = x → Py.lower x = x → Py.contains "-" x = false →
  Py.replace "-" ":" (Py.lower (Py.strip x)) = x.
Proof. intros -> -> H. by apply replace_absent. Qed.

(** Twelve characters cut in pairs and joined with colons keep the shape
    and gain a colon. *)
Lemma pairs_shape x :
  String.length x = 12 →
  Py.strip x = x → Py.lower x = x → Py.contains "-" x = false →
  let y := Py.join ":" (map (fun i => Py.slice i 2 x) [0; 2; 4; 6; 8; 10]) in
  Py.strip y = y ∧ Py.lower y = y ∧ Py.contains "-" y = false
  ∧ Py.contains ":" y = true ∧ String.length y = 17.
Proof.
  intros Hlen Hs Hl Hc.
  do 12 (destruct x as [|? x]; [discriminate Hlen|]).
  destruct x; [|discriminate Hlen]. clear Hlen.
  apply strip_fixed in Hs as [Hh Ht]. simpl in Hh, Ht.
  injection Hl as L0 L1 L2 L3 L4 L5 L6 L7 L8 L9 L10 L11.
  cbn [Py.contains] in Hc.
  repeat match type of Hc with (_ || _) = false => apply orb_false_iff in Hc as [? Hc] end.
  cbv zeta. cbn [map Py.slice String.substring Py.join]. cbv [String.append].
  split_and!.
  - apply strip_fixed. by split.
  - cbn [Py.lower]. change (Py.lower_char ":") with ":"%char.
    by rewrite L0, L1, L2, L3, L4, L5, L6, L7, L8, L9, L10, L11.
  - cbn [Py.contains]. change (Ascii.eqb ":" "-") with false.
    repeat match goal with H : Ascii.eqb _ "-" = false |- _ => rewrite H; clear H end.
    done.
  - cbn [Py.contains]. change (Ascii.eqb ":" ":") with true.
    by rewrite !orb_true_r.
  - done.
Qed.

End MacForm.

(** X9. [normalize_mac] returns a string with no space at either end, in
    lower case and without dash, and applying it again changes nothing:
    the canonical form is a fixed point. *)
Theorem normalize_mac_idempotent (m : string) :
  Py.strip (normalize_mac m) = normalize_mac m
  ∧ Py.lower (normalize_mac m) = normalize_mac m
  ∧ Py.contains "-" (normalize_mac m) = false
  ∧ normalize_mac (normalize_mac m) = normalize_mac m.
Proof.
  assert (Hshape : Py.strip (normalize_mac m) = normalize_mac m
                   ∧ Py.lower (normalize_mac m) = normalize_mac m
                   ∧ Py.contains "-" (normalize_mac m) = false
                   ∧ (Py.contains ":" (normalize_mac m) = false →
                      String.length (normalize_mac m) ≠ 12)).
  { unfold normalize_mac. rewrite or_else_self.
    destruct (pre_shape m) as (Hs & Hl & Hc). cbv zeta in Hs, Hl, Hc.
    set (x := Py.replace "-" ":" (Py.lower (Py.strip m))) in *.
    destruct (Py.contains ":" x) eqn:Ecol; cbn [negb andb].
    - split_and!; try done. intros H. by rewrite H in Ecol.
    - destruct (String.length x =? 12)%nat eqn:Elen.
      + apply Nat.eqb_eq in Elen.
        destruct (pairs_shape x Elen Hs Hl Hc) as (Ys & Yl & Yc & Ycol & Ylen).
        cbv zeta in Ys, Yl, Yc, Ycol, Ylen. split_and!; try done.
        intros H. by rewrite H in Ycol.
      + apply Nat.eqb_neq in Elen. split_and!; done. }
  destruct Hshape as (Hs & Hl & Hc & Hlen). split_and!; try done.
  set (y := normalize_mac m) in *. unfold normalize_mac at 1.
  rewrite or_else_self, (shaped_fixed y Hs Hl Hc).
  destruct (Py.contains ":" y) eqn:Ecol; [done|]. cbn [negb andb].
  destruct (String.length y =? 12)%nat eqn:Elen; [|done].
  apply Nat.eqb_eq in Elen. by destruct (Hlen eq_refl).
Qed.

(** ** MAC addresses in the usual notations *)

Section MacNotations.

Lemma append_nil_l (t : string) : "" +:+ t = t.
Proof. reflexivity. Qed.

Lemma append_cons (c : ascii) (s t : string) : String c s +:+ t = String c (s +:+ t).
Proof. reflexivity. Qed.

Lemma split_nonempty sep s : Py.split sep s ≠ [].
Proof.
  destruct s as [|c s]; simpl; [done|].
  destruct (Ascii.eqb c sep); [done|]. by destruct (Py.split sep s).
Qed.

(** Splitting at a separator and joining with it gives the string
    back. *)
Lemma join_split sep s : Py.join (String sep "") (Py.split sep s) = s.
Proof.
  induction s as [|c s IH]; [done|]. cbn [Py.split].
  pose proof (split_nonempty sep s) as Hne.
  destruct (Ascii.eqb c sep) eqn:E.
  - apply Ascii.eqb_eq in E as ->.
    destruct (Py.split sep s) as [|h t]; [done|].
    cbn [Py.join]. rewrite append_nil_l. cbn [Py.join] in IH.
    by rewrite append_cons, append_nil_l, IH.
  - destruct (Py.split sep s) as [|h t]; [done|]. cbn [Py.join] in *.
    destruct t as [|h' t].
    + by rewrite IH.
    + by rewrite append_cons, IH.
Qed.

Lemma split_absent sep g : Py.contains sep g = false → Py.split sep g = [g].
Proof.
  induction g as [|c g IH]; [done|]. cbn [Py.contains Py.split].
  intros [-> Hg]%orb_false_iff. by rewrite IH.
Qed.

Lemma split_app sep g rest :
  Py.contains sep g = false →
  Py.split sep (g +:+ String sep rest) = g :: Py.split sep rest.
Proof.
  induction g as [|c g IH]; cbn [Py.contains].
  - intros _. rewrite append_nil_l. cbn [Py.split]. by rewrite Ascii.eqb_refl.
  - intros [Hc Hg]%orb_false_iff. rewrite append_cons. cbn [Py.split].
    by rewrite Hc, IH.
Qed.

(** Joining groups that do not hold the separator and splitting again
    gives the groups back. *)
Lemma split_join sep gs :
  gs ≠ [] →
  Forall (fun g => Py.contains sep g = false) gs →
  Py.split sep (Py.join (String sep "") gs) = gs.
Proof.
  intros Hne Hall. induction Hall as [|g gs Hg Hall IH]; [done|].
  destruct gs as [|g' gs'].
  - cbn [Py.join]. by apply split_absent.
  - cbn [Py.join]. rewrite append_cons, append_nil_l, split_app by done.
    f_equal. by apply IH.
Qed.

Lemma lower_app s t : Py.lower (s +:+ t) = Py.lower s +:+ Py.lower t.
Proof.
  induction s as [|c s IH]; [done|].
  rewrite append_cons. cbn [Py.lower]. by rewrite IH, append_cons.
Qed.

Lemma replace_app s t :
  Py.replace "-" ":" (s +:+ t) = Py.replace "-" ":" s +:+ Py.replace "-" ":" t.
Proof.
  induction s as [|c s IH]; [done|].
  rewrite append_cons. cbn [Py.replace]. by rewrite IH, append_cons.
Qed.

Lemma canon_join sep gs :
  sep = ":"%char ∨ sep = "-"%char →
  Py.replace "-" ":" (Py.lower (Py.join (String sep "") gs))
  = Py.join ":" (map (fun g => Py.replace "-" ":" (Py.lower g)) gs).
Proof.
  intros Hsep. induction gs as [|g gs IH]; [done|].
  destruct gs as [|g' gs']; [done|].
  cbn [Py.join map] in *. rewrite !lower_app, !replace_app, IH.
  by destruct Hsep as [-> | ->].
Qed.

Lemma contains_app_sep sep s t : Py.contains sep (s +:+ String sep t) = true.
Proof.
  induction s as [|c s IH].
  - rewrite append_nil_l. cbn [Py.contains]. by rewrite Ascii.eqb_refl.
  - rewrite append_cons. cbn [Py.contains]. by rewrite IH, orb_true_r.
Qed.

Lemma contains_join sep g g' gs :
  Py.contains sep (Py.join (String sep "") (g :: g' :: gs)) = true.
Proof. cbn [Py.join]. rewrite append_cons, append_nil_l. apply contains_app_sep. Qed.

Lemma hex_digit_char c :
  is_hex_digit c = true →
  is_lower_hex (if Ascii.eqb (Py.lower_char c) "-" then ":"%char else Py.lower_char c)
  = true.
Proof. destruct c as [[] [] [] [] [] [] [] []]; done. Qed.

Lemma lower_hex_char c :
  is_lower_hex c = true →
  Py.isspace c = false ∧ Py.lower_char c = c
  ∧ Ascii.eqb c "-" = false ∧ Ascii.eqb c ":" = false.
Proof. destruct c as [[] [] [] [] [] [] [] []]; done. Qed.

(** Putting hex digits of either case in canonical form gives lower-case
    hex digits, as many. *)
Lemma canon_hex s :
  all_chars is_hex_digit s = true →
  all_chars is_lower_hex (Py.replace "-" ":" (Py.lower s)) = true
  ∧ String.length (Py.replace "-" ":" (Py.lower s)) = String.length s.
Proof.
  induction s as [|c s IH]; [done|]. cbn [all_chars Py.lower Py.replace String.length].
  intros [Hc Hs]%andb_true_iff. destruct (IH Hs) as [-> ->].
  by rewrite hex_digit_char.
Qed.

Lemma lower_hex_shape s :
  all_chars is_lower_hex s = true →
  Py.lower s = s ∧ Py.contains "-" s = false ∧ Py.contains ":" s = false.
Proof.
  induction s as [|c s IH]; [done|]. cbn [all_chars Py.lower Py.contains].
  intros [Hc Hs]%andb_true_iff. destruct (IH Hs) as (-> & -> & ->).
  destruct (lower_hex_char c Hc) as (_ & -> & -> & ->). done.
Qed.

Lemma hex_pair_chars g :
  hex_pair g = true ↔ String.length g = 2 ∧ all_chars is_lower_hex g = true.
Proof.
  destruct g as [|a [|b [|c g]]]; simpl; try naive_solver.
  rewrite andb_true_r. naive_solver.
Qed.

(** Six groups of two lower-case hex digits joined with colons are a
    canonical MAC address. *)
Lemma canonical_join gs :
  length gs = 6 →
  Forall (fun g => hex_pair g = true) gs →
  canonical_mac (Py.join ":" gs) = true.
Proof.
  intros Hlen Hall. unfold canonical_mac.
  rewrite split_join.
  - rewrite Hlen. simpl. apply forallb_forall. intros g Hg%list_elem_of_In.
    exact (proj1 (Forall_forall _ _) Hall g Hg).
  - by destruct gs.
  - eapply Forall_impl; [exact Hall|]. intros g [_ Hg]%hex_pair_chars.
    by destruct (lower_hex_shape g Hg) as (_ & _ & ?).
Qed.

End MacNotations.

Section MacCanonical.

Lemma mac_pairs_canonical sep s :
  sep = ":"%char ∨ sep = "-"%char →
  mac_pairs sep s = true →
  let x := Py.replace "-" ":" (Py.lower s) in
  Py.contains ":" x = true ∧ canonical_mac x = true.
Proof.
  intros Hsep [Hlen Hall]%andb_true_iff. apply Nat.eqb_eq in Hlen.
  cbv zeta. rewrite <- (join_split sep s) at 1 2.
  rewrite canon_join by done.
  set (gs := Py.split sep s) in *. split.
  - destruct gs as [|g [|g' gs']]; [done..|]. apply (contains_join ":").
  - apply canonical_join; [by rewrite length_map|].
    rewrite Forall_map. apply Forall_forall. intros g Hg%list_elem_of_In. simpl.
    pose proof (proj1 (forallb_forall _ _) Hall g Hg) as [Hl Hh]%andb_true_iff.
    apply Nat.eqb_eq in Hl. destruct (canon_hex g Hh) as [H1 H2].
    apply hex_pair_chars. split; [congruence|done].
Qed.

Lemma bare_canonical x :
  String.length x = 12 →
  all_chars is_lower_hex x = true →
  canonical_mac (Py.join ":" (map (fun i => Py.slice i 2 x) [0; 2; 4; 6; 8; 10])) = true.
Proof.
  intros Hlen Hall.
  do 12 (destruct x as [|? x]; [discriminate Hlen|]).
  destruct x; [|discriminate Hlen]. clear Hlen.
  cbn [all_chars] in Hall.
  repeat match type of Hall with (_ && _) = true => apply andb_true_iff in Hall as [? Hall] end.
  apply canonical_join; [done|].
  cbn [map Py.slice String.substring].
  repeat constructor; cbn [hex_pair]; by apply andb_true_iff.
Qed.

End MacCanonical.

(** X10. A MAC address written as twelve hex digits, or as six pairs of
    hex digits separated by colons or by dashes, in either case and with
    spaces around it, is put by [normalize_mac] in the canonical form of
    six colon-separated pairs of lower-case hex digits. *)
Theorem wellformed_mac_canonical (m : string) :
  wellformed_mac (Py.strip m) = true →
  canonical_mac (normalize_mac m) = true.
Proof.
  unfold wellformed_mac, normalize_mac. rewrite or_else_self.
  set (s := Py.strip m). set (x := Py.replace "-" ":" (Py.lower s)).
  intros [[[Hlen Hall]%andb_true_iff|Hp]%orb_true_iff|Hp]%orb_true_iff.
  - apply Nat.eqb_eq in Hlen. destruct (canon_hex s Hall) as [Hx Hxl]. fold x in Hx, Hxl.
    destruct (lower_hex_shape x Hx) as (_ & _ & ->).
    rewrite Hxl, Hlen. cbn [negb andb Nat.eqb].
    apply bare_canonical; [congruence|done].
  - destruct (mac_pairs_canonical ":" s) as [Hc Hcan]; [by left|done|].
    fold x in Hc, Hcan. by rewrite Hc.
  - destruct (mac_pairs_canonical "-" s) as [Hc Hcan]; [by right|done|].
    fold x in Hc, Hcan. by rewrite Hc.
Qed.

(** The theorem on a MAC address in upper case with dashes and spaces. *)
Lemma wellformed_mac_canonical_witness :
  canonical_mac (normalize_mac "  AA-BB-CC-DD-EE-0F ") = true.
Proof.
  apply (wellformed_mac_canonical "  AA-BB-CC-DD-EE-0F ").
  vm_compute. reflexivity.
Defined.

(** X11. [normalize_mac] leaves a canonical MAC address as it is. *)
Theorem canonical_mac_unchanged (m : string) :
  canonical_mac m = true → normalize_mac m = m.
Proof.
  intros [Hlen Hall]%andb_true_iff. apply Nat.eqb_eq in Hlen.
  rewrite <- (join_split ":" m).
  destruct (Py.split ":" m) as [|g0 [|g1 [|g2 [|g3 [|g4 [|g5 [|g6 gs]]]]]]];
    try discriminate Hlen. clear Hlen.
  cbn [forallb] in Hall.
  repeat match type of Hall with (_ && _) = true => apply andb_true_iff in Hall as [? Hall] end.
  repeat match goal with
         | H : hex_pair ?g = true |- _ =>
             destruct g as [|? [|? [|? ?]]]; try discriminate H;
             cbn [hex_pair] in H; apply andb_true_iff in H as [? ?]
         end.
  repeat match goal with
         | H : is_lower_hex ?c = true |- _ =>
             destruct (lower_hex_char c H) as (? & ? & ? & ?); clear H
         end.
  cbn [Py.join]. cbv [String.append].
  match goal with |- normalize_mac ?y = _ => set (y0 := y) end.
  assert (Hs : Py.strip y0 = y0) by (apply strip_fixed; by split).
  assert (Hl : Py.lower y0 = y0).
  { unfold y0. cbn [Py.lower]. change (Py.lower_char ":") with ":"%char.
    repeat match goal with H : Py.lower_char _ = _ |- _ => rewrite H; clear H end. done. }
  assert (Hd : Py.contains "-" y0 = false).
  { unfold y0. cbn [Py.contains]. change (Ascii.eqb ":" "-") with false.
    repeat match goal with H : Ascii.eqb _ "-" = false |- _ => rewrite H; clear H end.
    done. }
  assert (Hc : Py.contains ":" y0 = true).
  { unfold y0. cbn [Py.contains]. change (Ascii.eqb ":" ":") with true.
    by rewrite !orb_true_r. }
  unfold normalize_mac. rewrite or_else_self, (shaped_fixed y0 Hs Hl Hd), Hc. done.
Qed.

(** The theorem on a canonical MAC address. *)
Lemma canonical_mac_unchanged_witness :
  normalize_mac "aa:bb:cc:dd:ee:0f" = "aa:bb:cc:dd:ee:0f".
Proof.
  apply (canonical_mac_unchanged "aa:bb:cc:dd:ee:0f").
  vm_compute. reflexivity.
Defined.


(** ** The name of the uploaded file and the readers *)

Section Paths.

Lemma endswith_refl s : endswith s s = true.
Proof.
  destruct s as [|c s]; [done|].
  change (String.eqb (String c s) (String c s) || endswith s (String c s) = true).
  by rewrite String.eqb_refl.
Qed.

Lemma endswith_cons c s suf :
  endswith (String c s) suf = String.eqb (String c s) suf || endswith s suf.
Proof. reflexivity. Qed.

Lemma endswith_nil suf : endswith "" suf = String.eqb "" suf.
Proof. apply orb_false_r. Qed.

Lemma endswith_app p s suf : endswith s suf = true → endswith (p +:+ s) suf = true.
Proof.
  intros H. induction p as [|c p IH]; [done|].
  rewrite append_cons, endswith_cons, IH. apply orb_true_r.
Qed.

Lemma endswith_length s a : endswith s a = true → String.length a ≤ String.length s.
Proof.
  induction s as [|c s IH].
  - rewrite endswith_nil. by intros <-%String.eqb_eq.
  - rewrite endswith_cons. intros [->%String.eqb_eq|H%IH]%orb_true_iff; simpl; lia.
Qed.

Lemma endswith_both s a b :
  endswith s a = true → endswith s b = true →
  String.length a ≤ String.length b → endswith b a = true.
Proof.
  induction s as [|c s IH].
  - rewrite !endswith_nil. intros <-%String.eqb_eq <-%String.eqb_eq _. done.
  - rewrite !endswith_cons.
    intros [<-%String.eqb_eq|Ha]%orb_true_iff [<-%String.eqb_eq|Hb]%orb_true_iff Hl.
    + apply endswith_refl.
    + apply endswith_length in Hb. simpl in Hl. lia.
    + by rewrite endswith_cons, Ha, orb_true_r.
    + by apply IH.
Qed.

Lemma xlsx_not_csv s : endswith s ".xlsx" = true → endswith s ".csv" = false.
Proof.
  intros Hx. destruct (endswith s ".csv") eqn:Hc; [|done].
  by pose proof (endswith_both s ".csv" ".xlsx" Hc Hx ltac:(simpl; lia)).
Qed.

Lemma endswith_nonempty s suf : endswith s suf = true → suf ≠ "" → s ≠ "".
Proof. intros H Hs ->. rewrite endswith_nil in H. by apply String.eqb_eq in H. Qed.

Lemma endswith_last_space s suf :
  endswith s suf = true → suf ≠ "" → last_space s = last_space suf.
Proof.
  intros H Hs. induction s as [|c s IH].
  - by destruct (endswith_nonempty _ _ H Hs).
  - rewrite endswith_cons in H. apply orb_true_iff in H as [->%String.eqb_eq|H]; [done|].
    rewrite <- (IH H). pose proof (endswith_nonempty _ _ H Hs). by destruct s.
Qed.

Lemma last_space_lower s : last_space (Py.lower s) = last_space s.
Proof.
  induction s as [|c s IH]; [done|].
  destruct s as [|d s]; [apply isspace_lower_char|]. exact IH.
Qed.

Lemma last_space_app p s : s ≠ "" → last_space (p +:+ s) = last_space s.
Proof.
  intros Hs. induction p as [|c p IH]; [done|].
  rewrite append_cons. rewrite <- IH.
  destruct (p +:+ s) eqn:E; [|done]. by destruct p, s.
Qed.

Lemma split_pieces sep s : Forall (fun g => Py.contains sep g = false) (Py.split sep s).
Proof.
  induction s as [|c s IH]; cbn [Py.split]; [by repeat constructor|].
  destruct (Ascii.eqb c sep) eqn:E; [by constructor|].
  destruct (Py.split sep s) as [|h t]; [by repeat constructor; simpl; rewrite E|].
  inversion_clear IH. constructor; [|done]. cbn [Py.contains]. by rewrite E.
Qed.

Lemma split_single sep s h : Py.split sep s = [h] → Py.contains sep s = false.
Proof.
  intros H. pose proof (split_pieces sep s) as Hp. pose proof (join_split sep s) as Hj.
  rewrite H in Hp, Hj. inversion_clear Hp. simpl in Hj. by subst.
Qed.

(** What follows the last slash. *)
Lemma basename_cons c r :
  basename (String c r)
  = if Py.contains "/" (String c r) then basename r else String c r.
Proof.
  unfold basename. cbn [Py.split Py.contains].
  pose proof (split_nonempty "/" r) as Hne.
  destruct (Ascii.eqb c "/") eqn:E; simpl.
  - destruct (Py.split "/" r) as [|h t]; [done|]. done.
  - destruct (Py.split "/" r) as [|h t] eqn:Hs; [done|].
    destruct t as [|h' t].
    + rewrite (split_single _ _ _ Hs). simpl.
      pose proof (join_split "/" r) as Hj. rewrite Hs in Hj. simpl in Hj. by subst.
    + destruct (Py.contains "/" r) eqn:Hc; [done|].
      rewrite (split_absent _ _ Hc) in Hs. done.
Qed.

Lemma basename_no_slash p : Py.contains "/" (basename p) = false.
Proof.
  unfold basename. pose proof (split_pieces "/" p) as Hp.
  pose proof (split_nonempty "/" p) as Hne.
  destruct (last (Py.split "/" p)) as [b|] eqn:Hl; [|done].
  apply last_Some_elem_of in Hl. rewrite Forall_forall in Hp. by apply Hp.
Qed.

Lemma basename_tail p :
  ∃ pre, p = pre +:+ basename p ∧ (pre = "" ∨ ∃ q, pre = q +:+ "/").
Proof.
  induction p as [|c r IH]; [by exists ""; eauto|].
  rewrite basename_cons. destruct (Py.contains "/" (String c r)) eqn:Hc.
  - destruct IH as (pre & Hpre & Hq). exists (String c pre). split.
    + rewrite append_cons. by rewrite <- Hpre.
    + right. destruct Hq as [->|[q ->]]; [|by exists (String c q)].
      exists "". rewrite append_nil_l in Hpre. rewrite append_nil_l.
      assert (Py.contains "/" r = false) as Hr
        by (rewrite Hpre; apply basename_no_slash).
      cbn [Py.contains] in Hc. rewrite Hr, orb_false_r in Hc.
      by apply Ascii.eqb_eq in Hc as ->.
  - exists "". eauto.
Qed.

Lemma eqb_no_slash s suf :
  Py.contains "/" s = true → Py.contains "/" suf = false → String.eqb s suf = false.
Proof. intros Hs Hf. apply String.eqb_neq. intros ->. congruence. Qed.

Lemma contains_app a s t : Py.contains a (s +:+ t) = Py.contains a s || Py.contains a t.
Proof.
  induction s as [|c s IH]; [done|].
  rewrite append_cons. cbn [Py.contains]. by rewrite IH, orb_assoc.
Qed.

Lemma endswith_after_slash q b suf :
  Py.contains "/" suf = false →
  endswith ((q +:+ "/") +:+ b) suf = endswith b suf.
Proof.
  intros Hs. induction q as [|c q IH].
  - rewrite append_nil_l, append_cons, append_nil_l, endswith_cons.
    by rewrite eqb_no_slash.
  - rewrite !append_cons, endswith_cons, IH. rewrite eqb_no_slash; [done| |done].
    rewrite <- !append_cons, !contains_app. cbn [Py.contains].
    by rewrite orb_true_r.
Qed.

Lemma lower_char_slash c : Ascii.eqb (Py.lower_char c) "/" = Ascii.eqb c "/".
Proof. destruct c as [[] [] [] [] [] [] [] []]; reflexivity. Qed.

(** A suffix without slash that the name has in lower case, its last
    component has as well. *)
Lemma endswith_basename name suf :
  Py.contains "/" suf = false →
  endswith (Py.lower (basename name)) suf = endswith (Py.lower name) suf.
Proof.
  intros Hs. destruct (basename_tail name) as (pre & Hp & [->|[q ->]]).
  - rewrite append_nil_l in Hp. by rewrite <- Hp.
  - rewrite Hp at 2. rewrite !lower_app. symmetry.
    by apply (endswith_after_slash (Py.lower q)).
Qed.

Lemma path_join_tail dir b : ∃ p, path_join dir b = p +:+ b.
Proof.
  unfold path_join.
  assert (∃ p, (if negb (Py.truthy dir) || endswith dir "/" then dir +:+ b
                else dir +:+ "/" +:+ b) = p +:+ b) as Hgen.
  { destruct (negb (Py.truthy dir) || endswith dir "/"); [by exists dir|].
    exists (dir +:+ "/"). clear. induction dir as [|c d IH]; [done|].
    rewrite !append_cons. by f_equal. }
  destruct b as [|c b]; [done|].
  destruct (Ascii.eqb c "/") eqn:E.
  - apply Ascii.eqb_eq in E as ->. by exists "".
  - destruct c as [[] [] [] [] [] [] [] []]; try done.
Qed.

Lemma endswith_stored dir job name suf :
  Py.contains "/" suf = false →
  endswith (Py.lower name) suf = true →
  endswith (Py.lower (path_join dir (job +:+ "_" +:+ basename name))) suf = true.
Proof.
  intros Hs Hn. destruct (path_join_tail dir (job +:+ "_" +:+ basename name)) as [p ->].
  rewrite !lower_app. do 3 apply endswith_app. by rewrite endswith_basename.
Qed.

End Paths.

(** X12.  A file that [/upload] accepts is stored under a name made of the
    job's hex digits, an underscore and the last component of the name
    sent: it has no slash, so it lies in the upload directory itself;
    the form field of [/run], which is stripped there, gives it back
    unchanged; and under this name both readers make the choice the
    route made from the name sent, [read_csv] for a name ending in
    .csv in whatever case and [read_excel] otherwise, the reader of the
    command-line tool never refusing it. *)
Theorem upload_stored_name (file : option string) (job_id : string)
    (saved : result unit) (sites : result (list App.Site)) (t t' : list event)
    (filename : string) (listing : list App.Site) :
  all_chars is_hex_digit job_id = true →
  String.length job_id = 8 →
  Upload.upload file job_id saved sites t = (Ok (Upload.SelectSitePage filename listing), t') →
  ∃ name,
    file = Some name
    ∧ filename = job_id +:+ "_" +:+ basename name
    ∧ Py.contains "/" filename = false
    ∧ Py.strip filename = filename
    ∧ Py.truthy filename = true
    ∧ ∀ dir sheet,
        Reader._read_input (path_join dir filename) sheet
        = (if endswith (Py.lower name) ".csv" then Reader.ReadCsv
           else Reader.ReadExcel
                  (match sheet with
                   | Some s => if Py.truthy s then Some s else None
                   | None => None
                   end))
        ∧ Reader.read_input true (path_join dir filename) sheet
          = Some (Reader._read_input (path_join dir filename) sheet).
Proof.
  intros Hhex Hlen Hup. unfold Upload.upload in Hup.
  destruct file as [name|]; [|done]. simpl in Hup.
  destruct (Py.truthy name) eqn:Hname; [|done]. simpl in Hup.
  destruct (endswith (Py.lower name) ".csv" || endswith (Py.lower name) ".xlsx") eqn:Hext;
    [|done].
  simpl in Hup. destruct saved as [[]|e]; [|done].
  unfold App.get_sites in Hup. destruct sites as [l|e].
  2:{ by destruct (App.is_exception e). }
  injection Hup as <- _ _. exists name. split; [done|]. split; [done|].
  assert (∃ suf, suf ≠ "" ∧ last_space suf = false ∧ Py.contains "/" suf = false
                 ∧ endswith (Py.lower name) suf = true) as (suf & Hne & Hsp & Hsl & Hends).
  { apply orb_true_iff in Hext as [H|H]; [exists ".csv"|exists ".xlsx"]; by split_and!. }
  destruct job_id as [|c job]; [done|].
  split_and!.
  - assert (Py.contains "/" (String c job) = false) as Hjob.
    { clear -Hhex. revert Hhex. generalize (String c job). intros s.
      induction s as [|d s IH]; [done|].
      cbn [all_chars Py.contains]. intros [Hd Hs]%andb_true_iff.
      rewrite (IH Hs), orb_false_r.
      clear -Hd. destruct d as [[] [] [] [] [] [] [] []]; done. }
    by rewrite !contains_app, basename_no_slash, Hjob.
  - apply strip_fixed. split.
    + rewrite append_cons. cbn [head_space]. cbn [all_chars] in Hhex.
      apply andb_true_iff in Hhex as [Hc _]. clear -Hc.
      destruct c as [[] [] [] [] [] [] [] []]; done.
    + assert (endswith (Py.lower (basename name)) suf = true) as Hb
        by by rewrite endswith_basename.
      pose proof (endswith_nonempty _ _ Hb Hne) as Hbne.
      rewrite 2!last_space_app; [| |].
      * by rewrite <- last_space_lower, (endswith_last_space _ _ Hb Hne).
      * by destruct (basename name).
      * by destruct (basename name).
  - by rewrite append_cons.
  - intros dir sheet. unfold Reader._read_input, Reader.read_input. cbn [negb].
    apply orb_true_iff in Hext as [Hc|Hx].
    + by rewrite Hc, (endswith_stored dir (String c job) name ".csv" eq_refl Hc).
    + pose proof (endswith_stored dir (String c job) name ".xlsx" eq_refl Hx) as Hx'.
      rewrite (xlsx_not_csv _ Hx), (xlsx_not_csv _ Hx'), Hx'.
      by destruct sheet as [s|]; [destruct (Py.truthy s)|].
Qed.

Lemma upload_stored_name_witness :
  ∃ name,
    Some "../Plan/APs.CSV" = Some name
    ∧ "1a2b3c4d_APs.CSV" = "1a2b3c4d" +:+ "_" +:+ basename name
    ∧ Py.contains "/" "1a2b3c4d_APs.CSV" = false
    ∧ Py.strip "1a2b3c4d_APs.CSV" = "1a2b3c4d_APs.CSV"
    ∧ Py.truthy "1a2b3c4d_APs.CSV" = true
    ∧ ∀ dir sheet,
        Reader._read_input (path_join dir "1a2b3c4d_APs.CSV") sheet
        = (if endswith (Py.lower name) ".csv" then Reader.ReadCsv
           else Reader.ReadExcel
                  (match sheet with
                   | Some s => if Py.truthy s then Some s else None
                   | None => None
                   end))
        ∧ Reader.read_input true (path_join dir "1a2b3c4d_APs.CSV") sheet
          = Some (Reader._read_input (path_join dir "1a2b3c4d_APs.CSV") sheet).
Proof.
  apply (upload_stored_name (Some "../Plan/APs.CSV") "1a2b3c4d" (Ok tt) (Ok []) []
           [EvGetSites] "1a2b3c4d_APs.CSV" []);
    [reflexivity | reflexivity | vm_compute; reflexivity].
Defined.


(** ** The listing of the sites *)

Section SiteListing.

Lemma key_le_trans a b c : key_le a b → key_le b c → key_le a c.
Proof. unfold key_le. intros H1 H2. by etrans. Qed.

Lemma key_le_flip a b :
  String.leb (Prompt.name_key a) (Prompt.name_key b) = false → key_le b a.
Proof.
  unfold key_le, String.le. intros H.
  destruct (String.leb_total (Prompt.name_key a) (Prompt.name_key b)) as [H'|H'];
    [congruence|by rewrite H'].
Qed.

Lemma insert_site_perm x l : Prompt.insert_site x l ≡ₚ x :: l.
Proof.
  induction l as [|y l IH]; simpl; [done|].
  destruct (String.leb _ _); [done|]. rewrite IH. apply Permutation_swap.
Qed.

Lemma insert_site_sorted x l :
  StronglySorted key_le l → StronglySorted key_le (Prompt.insert_site x l).
Proof.
  induction 1 as [|y l Hl IH Hy]; simpl; [by repeat constructor|].
  destruct (String.leb _ _) eqn:E.
  - constructor; [by constructor|]. constructor.
    + unfold key_le, String.le. by rewrite E.
    + eapply Forall_impl; [exact Hy|]. intros z Hz. eapply key_le_trans; [|exact Hz].
      unfold key_le, String.le. by rewrite E.
  - constructor; [done|]. rewrite insert_site_perm. constructor; [|done].
    by apply key_le_flip.
Qed.

Lemma insert_site_filter k x l :
  filter (fun s => Prompt.name_key s = k) (Prompt.insert_site x l)
  = filter (fun s => Prompt.name_key s = k) (x :: l).
Proof.
  induction l as [|y l IH]; simpl; [done|].
  destruct (String.leb _ _) eqn:E; [done|].
  rewrite (filter_cons _ y), IH, !filter_cons.
  destruct (decide (Prompt.name_key x = k)) as [Hx|Hx]; [|done].
  destruct (decide (Prompt.name_key y = k)) as [Hy|Hy]; [|done].
  unfold String.leb in E. rewrite Hx, Hy in E.
  assert (String.compare k k = Eq) as Hk.
  { clear. induction k as [|c k IH]; [done|]. simpl.
    unfold Ascii.compare. by rewrite N.compare_refl. }
  by rewrite Hk in E.
Qed.

Lemma insert_site_sorted_head x l :
  Forall (key_le x) l → Prompt.insert_site x l = x :: l.
Proof.
  destruct l as [|y l]; [done|]. intros [H _]%Forall_cons. simpl.
  unfold key_le, String.le in H. by destruct (String.leb _ _).
Qed.

Lemma sort_sites_sorted_fixed l : StronglySorted key_le l → Prompt.sort_sites l = l.
Proof.
  induction 1 as [|y l Hl IH Hy]; [done|].
  unfold Prompt.sort_sites in *. cbn [foldr]. rewrite IH.
  by apply insert_site_sorted_head.
Qed.

End SiteListing.

(** X13.  The listing of the sites, as the command-line tool numbers it
    and as the web page shows it, holds the sites the service returned,
    each as often as returned; it is in the order of the names in lower
    case, a site without name or with a null name counting as one with
    the empty name; sites whose names differ in case only stay in the
    order the service gave them; and sorting a listing again changes
    nothing. *)
Theorem sort_sites_stable (sites : list App.Site) :
  Prompt.sort_sites sites ≡ₚ sites
  ∧ StronglySorted key_le (Prompt.sort_sites sites)
  ∧ (∀ k, filter (fun s => Prompt.name_key s = k) (Prompt.sort_sites sites)
          = filter (fun s => Prompt.name_key s = k) sites)
  ∧ Prompt.sort_sites (Prompt.sort_sites sites) = Prompt.sort_sites sites.
Proof.
  assert (StronglySorted key_le (Prompt.sort_sites sites)) as Hsorted.
  { induction sites as [|x l IH]; [constructor|]. by apply insert_site_sorted. }
  split_and!; [| done | | by apply sort_sites_sorted_fixed].
  - clear Hsorted. induction sites as [|x l IH]; [done|].
    unfold Prompt.sort_sites in *. cbn [foldr]. by rewrite insert_site_perm, IH.
  - intros k. clear Hsorted. induction sites as [|x l IH]; [done|].
    unfold Prompt.sort_sites in *. cbn [foldr].
    by rewrite insert_site_filter, !filter_cons, IH.
Qed.

Example sort_sites_demo :
  Prompt.sort_sites
    [App.mkSite (Some "s1") (Some (App.JStr "lab"));
     App.mkSite (Some "s2") (Some (App.JStr "HQ"));
     App.mkSite (Some "s3") (Some App.JNull);
     App.mkSite (Some "s4") (Some (App.JStr "Lab"));
     App.mkSite (Some "s5") None]
  = [App.mkSite (Some "s3") (Some App.JNull);
     App.mkSite (Some "s5") None;
     App.mkSite (Some "s2") (Some (App.JStr "HQ"));
     App.mkSite (Some "s1") (Some (App.JStr "lab"));
     App.mkSite (Some "s4") (Some (App.JStr "Lab"))].
Proof. reflexivity. Qed.

(** ** The prompt for the site *)

(** X14.  The prompt of the command-line tool returns a site exactly when
    a line typed holds, between spaces, a number from 1 to the length of
    the list, all the lines before being refused; the site is the one
    shown under that number.  Zero and the negative numbers are refused,
    they do not count from the end of the list. *)
Theorem choose_site_first_valid (max_str_digits : nat) (sites : list App.Site)
    (lines : list string) (s : App.Site) :
  Prompt.choose_site max_str_digits sites lines = Some s
  ↔ ∃ pre line post idx,
      lines = pre ++ line :: post
      ∧ Forall (refused max_str_digits sites) pre
      ∧ Prompt.py_int max_str_digits (Py.strip line) = Some idx
      ∧ (1 ≤ idx ≤ Z.of_nat (length sites))%Z
      ∧ sites !! Z.to_nat (idx - 1) = Some s.
Proof.
  split.
  - induction lines as [|line rest IH]; [done|]. cbn [Prompt.choose_site].
    assert (Prompt.choose_site max_str_digits sites rest = Some s →
            refused max_str_digits sites line →
            ∃ pre line0 post idx,
              line :: rest = pre ++ line0 :: post
              ∧ Forall (refused max_str_digits sites) pre
              ∧ Prompt.py_int max_str_digits (Py.strip line0) = Some idx
              ∧ (1 ≤ idx ≤ Z.of_nat (length sites))%Z
              ∧ sites !! Z.to_nat (idx - 1) = Some s) as Hrest.
    { intros (pre & l0 & post & idx & -> & Hpre & Hint & Hidx & Hs)%IH Hline.
      exists (line :: pre), l0, post, idx. split_and!; try done; [|lia..].
      by constructor. }
    destruct (Prompt.py_int max_str_digits (Py.strip line)) as [idx|] eqn:Hint.
    2:{ intros H. apply Hrest; [done|]. intros idx. by rewrite Hint. }
    destruct ((idx <? 1)%Z || (Z.of_nat (length sites) <? idx)%Z) eqn:Hrange.
    { intros H. apply Hrest; [done|]. intros idx'. rewrite Hint. intros [= <-].
      apply orb_true_iff in Hrange as [?%Z.ltb_lt|?%Z.ltb_lt]; lia. }
    apply orb_false_iff in Hrange as [?%Z.ltb_ge ?%Z.ltb_ge].
    destruct (sites !! Z.to_nat (idx - 1)) as [s'|] eqn:Hs.
    + intros [= ->]. exists [], line, rest, idx. by split_and!.
    + apply lookup_ge_None in Hs. lia.
  - intros (pre & line & post & idx & -> & Hpre & Hint & Hidx & Hs).
    induction Hpre as [|l pre Hl Hpre IH]; cbn [app Prompt.choose_site].
    + rewrite Hint.
      assert (((idx <? 1)%Z || (Z.of_nat (length sites) <? idx)%Z) = false) as ->.
      { apply orb_false_iff. split; apply Z.ltb_ge; lia. }
      by rewrite Hs.
    + destruct (Prompt.py_int max_str_digits (Py.strip l)) as [i|] eqn:Hi; [|done].
      destruct (Hl i Hi) as [H|H].
      * apply Z.ltb_lt in H. by rewrite H.
      * apply Z.ltb_lt in H. by rewrite H, orb_true_r.
Qed.

Example choose_site_demo :
  Prompt.choose_site 4300
    [App.mkSite (Some "s2") (Some (App.JStr "HQ"));
     App.mkSite (Some "s1") (Some (App.JStr "lab"))]
    ["two"; ""; "0"; "-1"; "3"; "1 2"; "_2"; " +0_2 "; "1"]
  = Some (App.mkSite (Some "s1") (Some (App.JStr "lab"))).
Proof. reflexivity. Qed.


(** ** The numbers of the list and the prompt *)

Section Decimal.

Import DecimalString.

Lemma lstrip_int_decimal u :
  Prompt.lstrip_int (NilEmpty.string_of_uint u) = NilEmpty.string_of_uint u.
Proof. by destruct u. Qed.

Lemma rstrip_int_decimal u :
  Prompt.rstrip_int (NilEmpty.string_of_uint u) = NilEmpty.string_of_uint u.
Proof.
  induction u as [|u IH|u IH|u IH|u IH|u IH|u IH|u IH|u IH|u IH|u IH]; [done|..];
    cbn [NilEmpty.string_of_uint Prompt.rstrip_int]; rewrite IH;
    by destruct (NilEmpty.string_of_uint u).
Qed.

Lemma last_space_decimal u : last_space (NilEmpty.string_of_uint u) = false.
Proof.
  induction u as [|u IH|u IH|u IH|u IH|u IH|u IH|u IH|u IH|u IH|u IH]; [done|..];
    cbn [NilEmpty.string_of_uint last_space]; rewrite <- IH;
    by destruct (NilEmpty.string_of_uint u).
Qed.

Lemma strip_decimal u :
  Py.strip (NilEmpty.string_of_uint u) = NilEmpty.string_of_uint u.
Proof. apply strip_fixed. split; [by destruct u|apply last_space_decimal]. Qed.

Lemma count_digits_decimal u :
  Prompt.count_digits (NilEmpty.string_of_uint u)
  = String.length (NilEmpty.string_of_uint u).
Proof.
  induction u as [|u IH|u IH|u IH|u IH|u IH|u IH|u IH|u IH|u IH|u IH]; [done|..];
    cbn [NilEmpty.string_of_uint Prompt.count_digits String.length]; by rewrite IH.
Qed.

Lemma digits_decimal u (a : nat) (b : bool) :
  u ≠ Decimal.Nil ∨ b = true →
  Prompt.digits (Z.of_nat a) b (NilEmpty.string_of_uint u)
  = Some (Z.of_nat (Nat.of_uint_acc u a)).
Proof.
  revert a b.
  induction u as [|u IH|u IH|u IH|u IH|u IH|u IH|u IH|u IH|u IH|u IH]; intros a b Hb;
    [by destruct Hb as [?| ->]|..];
    cbn [NilEmpty.string_of_uint Prompt.digits Nat.of_uint_acc];
    rewrite Nat.tail_mul_spec;
    (etrans; [|apply (IH _ true); by right]);
    change (Prompt.digit_value _) with (Some 0%Z) ||
    change (Prompt.digit_value _) with (Some 1%Z) ||
    change (Prompt.digit_value _) with (Some 2%Z) ||
    change (Prompt.digit_value _) with (Some 3%Z) ||
    change (Prompt.digit_value _) with (Some 4%Z) ||
    change (Prompt.digit_value _) with (Some 5%Z) ||
    change (Prompt.digit_value _) with (Some 6%Z) ||
    change (Prompt.digit_value _) with (Some 7%Z) ||
    change (Prompt.digit_value _) with (Some 8%Z) ||
    change (Prompt.digit_value _) with (Some 9%Z);
    cbv beta iota; f_equal; lia.
Qed.

(** [int(str(i))] is [i], as long as the interpreter's limit on digits is
    not reached. *)
Lemma py_int_str_nat max_str_digits i :
  String.length (str_nat (S i)) ≤ 640 →
  Prompt.py_int max_str_digits (Py.strip (str_nat (S i))) = Some (Z.of_nat (S i)).
Proof.
  unfold str_nat. intros Hlen. rewrite strip_decimal. unfold Prompt.py_int.
  rewrite lstrip_int_decimal, rstrip_int_decimal, count_digits_decimal.
  assert ((640 <? String.length (NilEmpty.string_of_uint (Nat.to_uint (S i)))) = false)
    as -> by (apply Nat.ltb_ge; lia).
  cbn [andb].
  assert (Nat.to_uint (S i) ≠ Decimal.Nil) as Hnil.
  { intros H. pose proof (DecimalNat.Unsigned.of_to (S i)) as Hof.
    by rewrite H in Hof. }
  pose proof (digits_decimal (Nat.to_uint (S i)) 0 false (or_introl Hnil)) as Hd.
  change (Nat.of_uint_acc (Nat.to_uint (S i)) 0) with (Nat.of_uint (Nat.to_uint (S i))) in Hd.
  rewrite DecimalNat.Unsigned.of_to in Hd. change (Z.of_nat 0) with 0%Z in Hd.
  by destruct (Nat.to_uint (S i)).
Qed.

End Decimal.

(** X15.  The number printed before a site in the list of the prompt,
    typed back, selects that site, whatever was to follow on the input. *)
Theorem menu_number_selects (max_str_digits : nat) (sites : list App.Site)
    (i : nat) (s : App.Site) (rest : list string) :
  sites !! i = Some s →
  String.length (str_nat (S i)) ≤ 640 →
  menu sites !! i = Some (str_nat (S i) +:+ ". " +:+ shown_name s)
  ∧ Prompt.choose_site max_str_digits sites (str_nat (S i) :: rest) = Some s.
Proof.
  intros Hs Hlen. split.
  - unfold menu. by rewrite list_lookup_imap, Hs.
  - cbn [Prompt.choose_site]. rewrite (py_int_str_nat _ _ Hlen).
    pose proof (lookup_lt_Some _ _ _ Hs) as Hlt.
    assert (((Z.of_nat (S i) <? 1)%Z || (Z.of_nat (length sites) <? Z.of_nat (S i))%Z) = false)
      as ->.
    { apply orb_false_iff. split; apply Z.ltb_ge; lia. }
    replace (Z.to_nat (Z.of_nat (S i) - 1)) with i by lia. by rewrite Hs.
Qed.

Lemma menu_number_selects_witness :
  menu [App.mkSite (Some "s2") (Some (App.JStr "HQ"));
        App.mkSite (Some "s1") None] !! 1
  = Some (str_nat 2 +:+ ". " +:+ shown_name (App.mkSite (Some "s1") None))
  ∧ Prompt.choose_site 4300
      [App.mkSite (Some "s2") (Some (App.JStr "HQ"));
       App.mkSite (Some "s1") None]
      [str_nat 2; "1"]
    = Some (App.mkSite (Some "s1") None).
Proof.
  apply (menu_number_selects 4300
           [App.mkSite (Some "s2") (Some (App.JStr "HQ")); App.mkSite (Some "s1") None]
           1 (App.mkSite (Some "s1") None) ["1"]);
    [reflexivity | vm_compute; lia].
Defined.


(** * The pipeline on its host *)

Section HostPipeline.

(** [process_file] on a host does what it does above, then creates the
    directory and writes the file: when either fails, the exception
    comes out after the assign calls, and no file is recorded. *)
Lemma io_process_file h site w t0 :
  Io.process_file h site w t0
  = match Core.process_file site w t0 with
    | (Ok (df, s), t) =>
        match Io.h_makedirs h with
        | Raise e => (Raise e, removelast t)
        | Ok _ =>
            match Io.h_to_csv h df with
            | Raise e => (Raise e, removelast t)
            | Ok _ => (Ok (df, s), t)
            end
        end
    | (Raise e, t) => (Raise e, t)
    end.
Proof.
  unfold Io.process_file, Core.process_file, Io.makedirs, Io.to_csv,
    mbind, M_bind, lift, raise, get_inventory, emit, mret, M_ret.
  destruct (w_input w) as [df0|]; [|done]. cbv zeta.
  destruct (nonempty (_validate_headers (_normalize_dataframe df0))); [done|].
  destruct (w_inventory w) as [inventory|]; [|done].
  destruct (_validate_rows _ _) as [issues|]; [|done].
  destruct (nonempty issues); [done|].
  destruct (assign_loop _ _ _ _ _ _ _) as [[[[df' ok] bad]|] t]; [|done].
  rewrite removelast_last.
  destruct (Io.h_makedirs h) as [[]|]; [|done].
  by destruct (Io.h_to_csv h df') as [[]|].
Qed.

(** On a host where nothing fails, it is the function above. *)
Lemma process_file_reliable site w t0 :
  Io.process_file reliable site w t0 = Core.process_file site w t0.
Proof.
  rewrite io_process_file. simpl.
  by destruct (Core.process_file site w t0) as [[[df s]|e] t].
Qed.



(** After a clean gate the loop sends, for each row in turn, the MAC
    chosen for it, whatever the trace before. *)
Lemma clean_gate_loop w site df0 inventory t0 :
  wf_frame df0 →
  combined_issues df0 inventory = Ok [] →
  let df := _normalize_dataframe df0 in
  let inv_map := build_inv_map inventory in
  _validate_headers df = []
  ∧ _validate_rows df inv_map = Ok []
  ∧ ∃ df_out ok bad,
      assign_loop w site inv_map 0 (rows (outcome_columns df)) (outcome_columns df, 0, 0) t0
      = (Ok (df_out, ok, bad),
         t0 ++ map (fun r => EvAssign site (chosen_mac inv_map (columns df) r)) (rows df)).
Proof.
  intros Hwf Hcomb df inv_map.
  pose proof (normalize_wf df0 Hwf) as Hwf'.
  unfold combined_issues in Hcomb. fold df inv_map in Hcomb, Hwf'.
  destruct (nonempty (_validate_headers df)) eqn:Eh; [done|].
  split; [by apply nonempty_false|]. split; [done|].
  set (macs := map (chosen_mac inv_map (columns df)) (rows df)).
  assert (Hmacs : Forall2 (fun r mac => resolve (columns (outcome_columns df)) inv_map r
                                        = Ok mac) (rows (outcome_columns df)) macs).
  { apply Forall2_same_length_lookup. split.
    { unfold macs. by rewrite outcome_columns_length, length_map. }
    intros j r1 mac Hr1 Hmac.
    destruct (outcome_columns_resolve inv_map df j r1 Hwf' Hr1) as (r & Hr & -> & _).
    unfold macs in Hmac. rewrite list_lookup_map, Hr in Hmac. injection Hmac as <-.
    exact (Forall_lookup_1 _ _ _ _ (gate_rows_chosen inv_map df Hcomb) Hr). }
  destruct (assign_loop_spec w site inv_map _ 0 _ 0 0 t0 macs Hmacs)
    as (df_out & Hloop & _).
  do 3 eexists. rewrite Hloop. unfold macs. by rewrite map_map.
Qed.

(** What [main] does on a host. *)
Lemma io_main_eq h w :
  run (Io.main h w)
  = match w_input w with
    | Raise e => (Raise e, [])
    | Ok df0 =>
        let df := _normalize_dataframe df0 in
        let missing := _validate_headers df in
        let written := fun (t : list event) (rep : DataFrame) =>
          match Io.h_makedirs h with
          | Raise e => (Raise e, t)
          | Ok _ =>
              match Io.h_to_csv h rep with
              | Raise e => (Raise e, t)
              | Ok _ => (Raise (SystemExit 2), t ++ [EvWriteCsv rep])
              end
          end in
        if nonempty missing then
          written [] (Cli.create_validation_report (iloc_empty df) [header_issue missing])
        else
          match Io.or_die (w_sites w) with
          | Raise e => (Raise e, [EvGetSites])
          | Ok site_id =>
              match Io.or_die (w_inventory w) with
              | Raise e => (Raise e, [EvGetSites; EvGetInventory])
              | Ok inventory =>
                  let inv_map := build_inv_map inventory in
                  match _validate_rows df inv_map with
                  | Raise e => (Raise e, [EvGetSites; EvGetInventory])
                  | Ok issues =>
                      if nonempty issues then
                        written [EvGetSites; EvGetInventory]
                          (Cli.create_validation_report df issues)
                      else
                        match assign_loop w site_id inv_map 0 (rows (outcome_columns df))
                                (outcome_columns df, 0, 0) [EvGetSites; EvGetInventory] with
                        | (Ok (df', ok, bad), t) =>
                            match Io.h_to_csv h df' with
                            | Raise e => (Raise e, t)
                            | Ok _ => (Ok (df', ok, bad), t ++ [EvWriteCsv df'])
                            end
                        | (Raise e, t) => (Raise e, t)
                        end
                  end
              end
          end
    end.
Proof.
  unfold run, Io.main, Io.create_validation_report, Io.makedirs, Io.to_csv,
    Io.get_sites, Io.get_inventory, mbind, M_bind, lift, raise, emit, mret, M_ret,
    Cli.normalize_dataframe, Cli.validate_headers, Cli.validate_rows.
  destruct (w_input w) as [df0|]; [|done]. cbv zeta.
  destruct (nonempty (_validate_headers (_normalize_dataframe df0))).
  { destruct (Io.h_makedirs h) as [[]|]; [|done].
    by destruct (Io.h_to_csv h _) as [[]|]. }
  cbn [app].
  destruct (Io.or_die (w_sites w)) as [site_id|]; [|done].
  destruct (Io.or_die (w_inventory w)) as [inventory|]; [|done].
  destruct (_validate_rows _ _) as [issues|]; [|done].
  destruct (nonempty issues).
  { destruct (Io.h_makedirs h) as [[]|]; [|done].
    by destruct (Io.h_to_csv h _) as [[]|]. }
  fold (outcome_columns (_normalize_dataframe df0)).
  destruct (assign_loop _ _ _ _ _ _ _) as [[[[df' ok] bad]|] t]; [|done].
  by destruct (Io.h_to_csv h df') as [[]|].
Qed.

(** On a host where nothing fails, and with a remote service that fails
    by an error status only, [main] is the function above. *)
Lemma main_reliable w t0 :
  (∀ e, w_sites w = Raise e → e = FetchError) →
  (∀ e, w_inventory w = Raise e → e = FetchError) →
  Io.main reliable w t0 = Cli.main w t0.
Proof.
  intros Hs Hi.
  unfold Io.main, Cli.main, Io.create_validation_report, Io.makedirs, Io.to_csv,
    Io.get_sites, Io.get_inventory, Cli.get_sites, Cli.get_inventory,
    mbind, M_bind, lift, raise, emit, mret, M_ret.
  destruct (w_input w) as [df0|]; [|done]. cbv zeta.
  destruct (nonempty _); [done|].
  destruct (w_sites w) as [site_id|e]; [|by rewrite (Hs e eq_refl)].
  destruct (w_inventory w) as [inventory|e]; [|by rewrite (Hi e eq_refl)].
  cbn [Io.or_die].
  destruct (Cli.validate_rows _ _) as [issues|]; [|done].
  destruct (nonempty issues); [done|].
  by destruct (assign_loop _ _ _ _ _ _ _) as [[[[df' ok] bad]|] t].
Qed.

Lemma remote_calls_app t1 t2 : remote_calls (t1 ++ t2) = remote_calls t1 ++ remote_calls t2.
Proof. unfold remote_calls. apply filter_app. Qed.

Lemma remote_calls_assign site macs :
  remote_calls (map (EvAssign site) macs) = map (EvAssign site) macs.
Proof.
  unfold remote_calls. induction macs as [|mac macs IH]; [done|].
  cbn [map]. rewrite filter_cons_True by done. by rewrite IH.
Qed.

End HostPipeline.




Example write_refused_after_calls :
  run (Io.process_file full_disk "site-1" (demo_world demo_input))
  = (Raise ReadError,
     [EvGetInventory; EvAssign "site-1" "aa:bb:cc:dd:ee:ff"; EvAssign "site-1" ""]).
Proof. vm_compute. reflexivity. Qed.

(** X4. After a clean gate the remote service receives, for the rows of
    the file in their order, one assign call each for the selected site,
    with the canonical form of the MAC of the inventory record of the
    row's serial when that record has a non-empty MAC, and of the MAC of
    the file otherwise: a MAC in the file is not sent when the inventory
    has one, and a row without MAC on either side is sent with the empty
    MAC.  The web core and the CLI make the same calls, whatever the
    service answers to each program and whether or not the files can be
    written. *)
Theorem assign_payloads (h h' : Io.Host) (w w' : World) (site_id : string)
    (df0 : DataFrame) (inventory : list InvItem) :
  w_input w = Ok df0 →
  w_inventory w = Ok inventory →
  w_input w' = Ok df0 →
  w_inventory w' = Ok inventory →
  w_sites w' = Ok site_id →
  wf_frame df0 →
  combined_issues df0 inventory = Ok [] →
  let df := _normalize_dataframe df0 in
  let calls := map (fun r => EvAssign site_id
                               (chosen_mac (build_inv_map inventory) (columns df) r))
                 (rows df) in
  remote_calls (run (Io.process_file h site_id w)).2 = [EvGetInventory] ++ calls
  ∧ remote_calls (run (Io.main h' w')).2 = [EvGetSites; EvGetInventory] ++ calls.
Proof.
  intros Hin Hinv Hin' Hinv' Hsite Hwf Hcomb df calls. subst df.
  pose proof (normalize_wf df0 Hwf) as Hwf'.
  assert (Hrc : ∀ t0, remote_calls t0 = t0 → remote_calls (t0 ++ calls) = t0 ++ calls).
  { intros t0 H0. rewrite remote_calls_app, H0. f_equal. unfold calls.
    rewrite <- (map_map _ (EvAssign site_id)). apply remote_calls_assign. }
  assert (Hrw : ∀ t0 d, remote_calls t0 = t0 →
                        remote_calls ((t0 ++ calls) ++ [EvWriteCsv d]) = t0 ++ calls).
  { intros t0 d H0. rewrite remote_calls_app, (Hrc t0 H0). apply app_nil_r. }
  split.
  - destruct (clean_gate_loop w site_id df0 inventory [EvGetInventory] Hwf Hcomb)
      as (Hh & Hr & df_out & ok & bad & Hloop).
    unfold run at 1. rewrite io_process_file. fold (run (Core.process_file site_id w)).
    rewrite process_file_eq, Hin. cbv zeta. rewrite Hh, Hinv. cbn [nonempty].
    rewrite validate_rows_outcome_columns, Hr by done. cbn [nonempty].
    rewrite Hloop. fold calls. rewrite removelast_last.
    destruct (Io.h_makedirs h) as [[]|e]; [|by apply Hrc].
    destruct (Io.h_to_csv h df_out) as [[]|e]; [by apply Hrw|by apply Hrc].
  - destruct (clean_gate_loop w' site_id df0 inventory [EvGetSites; EvGetInventory]
                Hwf Hcomb) as (Hh & Hr & df_out & ok & bad & Hloop).
    rewrite io_main_eq, Hin'. cbv zeta. rewrite Hh, Hsite, Hinv'.
    cbn [nonempty Io.or_die]. rewrite Hr. cbn [nonempty]. rewrite Hloop. fold calls.
    destruct (Io.h_to_csv h' df_out) as [[]|e]; [by apply Hrw|by apply Hrc].
Qed.

(** The theorem on [demo_input]: the first row is sent with the MAC of
    the inventory, the second, which has no MAC on either side, with the
    empty MAC; the core writes its file, the CLI cannot. *)
Lemma assign_payloads_witness :
  let df := _normalize_dataframe demo_input in
  let calls := map (fun r => EvAssign "site-1"
                               (chosen_mac (build_inv_map demo_inventory) (columns df) r))
                 (rows df) in
  remote_calls (run (Io.process_file reliable "site-1" (demo_world demo_input))).2
  = [EvGetInventory] ++ calls
  ∧ remote_calls (run (Io.main full_disk
                         (mkWorld (Ok demo_input) (Ok "site-1") (Ok demo_inventory)
                            (fun _ _ _ => Some "Assign/update failed (HTTP 400): no")))).2
    = [EvGetSites; EvGetInventory] ++ calls.
Proof.
  apply (assign_payloads reliable full_disk (demo_world demo_input)
           (mkWorld (Ok demo_input) (Ok "site-1") (Ok demo_inventory)
              (fun _ _ _ => Some "Assign/update failed (HTTP 400): no"))
           "site-1" demo_input demo_inventory).
  - reflexivity.
  - reflexivity.
  - reflexivity.
  - reflexivity.
  - reflexivity.
  - repeat constructor.
  - vm_compute. reflexivity.
Defined.


(** ** The route [/run] on its host *)

Section HostRoute.



(** With a host on which nothing fails, the route is the one above. *)
Lemma run_route_reliable fn sid file_exists sites w t :
  Io.run_route reliable fn sid file_exists sites w t
  = App.run_route fn sid file_exists sites w t.
Proof.
  unfold Io.run_route, App.run_route.
  destruct (negb _ || negb _); [done|]. destruct (negb file_exists); [done|].
  destruct (App.get_sites sites t) as [[listing|e] t1]; [|by destruct (App.is_exception e)].
  cbv zeta. unfold mbind at 1, M_bind at 1. rewrite process_file_reliable.
  destruct (Core.process_file _ w t1) as [[[df s]|e] t2]; [done|].
  destruct e; try done.
  unfold Io.build_report, App.build_report, Io.try_except, Io.create_error_report,
    Io.makedirs, Io.to_csv, Io.render_template, mbind, M_bind, lift, emit, mret, M_ret.
  simpl.
  destruct (w_input w) as [df2|e2]; [done|]. by destruct (App.is_exception e2).
Qed.


End HostRoute.



Example error_page_after_calls :
  run (Io.run_route full_disk (Some "ab12cd34_aps.csv") (Some "site-1") true
         (Ok [App.mkSite (Some "site-1") (Some (App.JStr "HQ"))])
         (demo_world demo_input))
  = (Ok (App.ErrorPage ReadError),
     [EvGetSites; EvGetInventory; EvAssign "site-1" "aa:bb:cc:dd:ee:ff";
      EvAssign "site-1" ""]).
Proof. vm_compute. reflexivity. Qed.
